(** * AgriChain: hashing, ledger anchoring, persistence and verification

    A shallow embedding of the services of the AgriChain server
    (hash.service.js, file.service.js, blockchain.service.js,
    database.service.js, agrichain.service.js) together with the properties
    stated about them.

    Conventions of the embedding:
    - a JavaScript string is a [string] holding its UTF-8 bytes;
    - a JSON-domain JavaScript value is a [JSON]; [option JSON] adds
      [undefined] (as [None]);
    - a JavaScript number is an integer [Z], or a decimal fraction held by
      its digits and the place of its point;
    - asynchronous service code is sequential code in the monad [M], which
      threads the [World] (clock, file system, ledger, database, logger) and
      propagates thrown errors. *)

From Stdlib Require Import ZArith NArith List String Ascii Bool Lia.
From Stdlib Require Import DecimalString DecimalPos DecimalZ.
Import ListNotations.
Open Scope string_scope.
Open Scope Z_scope.

Set Implicit Arguments.

(* ================================================================== *)
(** ** Bytes, hexadecimal text and string helpers *)
(* ================================================================== *)

Module Text.

Definition byte_of (c : ascii) : Z := Z.of_N (N_of_ascii c).
Definition char_of (z : Z) : ascii := ascii_of_N (Z.to_N (z mod 256)).

Fixpoint bytes_of (s : string) : list Z :=
  match s with
  | EmptyString => []
  | String c r => byte_of c :: bytes_of r
  end.

(** One lowercase hexadecimal digit, for a value below 16. *)
Definition hex_digit (z : Z) : ascii :=
  if z <? 10 then char_of (48 + z) else char_of (87 + z).

(** Value of a hexadecimal digit, either case. *)
Definition hex_value (c : ascii) : option Z :=
  let z := byte_of c in
  if (48 <=? z) && (z <=? 57) then Some (z - 48)
  else if (97 <=? z) && (z <=? 102) then Some (z - 87)
  else if (65 <=? z) && (z <=? 70) then Some (z - 55)
  else None.

Definition is_hex (c : ascii) : bool :=
  match hex_value c with Some _ => true | None => false end.

Fixpoint all_chars (p : ascii -> bool) (s : string) : bool :=
  match s with
  | EmptyString => true
  | String c r => p c && all_chars p r
  end.

(** Two lowercase hex digits per byte. *)
Fixpoint hex_of_string (s : string) : string :=
  match s with
  | EmptyString => EmptyString
  | String c r =>
      String (hex_digit (byte_of c / 16))
        (String (hex_digit (byte_of c mod 16)) (hex_of_string r))
  end.

Fixpoint string_of_hex (s : string) : option string :=
  match s with
  | EmptyString => Some EmptyString
  | String h (String l r) =>
      match hex_value h, hex_value l, string_of_hex r with
      | Some a, Some b, Some t => Some (String (char_of (16 * a + b)) t)
      | _, _, _ => None
      end
  | String _ EmptyString => None
  end.

(** [width] lowercase hex digits of [n], most significant first. *)
Fixpoint hex_fixed (width : nat) (n : Z) (acc : string) : string :=
  match width with
  | O => acc
  | S k => hex_fixed k (n / 16) (String (hex_digit (n mod 16)) acc)
  end.

(** [String.prototype.startsWith]. *)
Fixpoint startsWith (s p : string) {struct p} : bool :=
  match p with
  | EmptyString => true
  | String a p' =>
      match s with
      | EmptyString => false
      | String b s' => Ascii.eqb a b && startsWith s' p'
      end
  end.

(** [String.prototype.slice(n)] for [0 <= n]. *)
Fixpoint slice (n : nat) (s : string) : string :=
  match n, s with
  | O, _ => s
  | S k, EmptyString => EmptyString
  | S k, String _ r => slice k r
  end.

(** [String.prototype.includes]. *)
Fixpoint includes (s p : string) : bool :=
  startsWith s p ||
  match s with
  | EmptyString => false
  | String _ r => includes r p
  end.

(** [Array.prototype.join]. *)
Fixpoint join (sep : string) (l : list string) : string :=
  match l with
  | [] => ""
  | [x] => x
  | x :: r => x ++ sep ++ join sep r
  end.

(** The number of bytes of a text. *)
Definition len (s : string) : Z := Z.of_nat (String.length s).

(** [s.length] of the JavaScript string whose UTF-8 text is [s], in UTF-16
    code units: one per character, two for a character of four bytes. *)
Fixpoint units (s : string) : Z :=
  match s with
  | EmptyString => 0
  | String c r =>
      (let z := byte_of c in
       if (128 <=? z) && (z <? 192) then 0 else if 240 <=? z then 2 else 1)
      + units r
  end.

(** The strings of a list, one after the other. *)
Definition concat_all (l : list string) : string := fold_right String.append "" l.

End Text.

(* ================================================================== *)
(** ** SHA-256 (FIPS 180-4), as computed by [crypto.createHash("sha256")] *)
(* ================================================================== *)

Module SHA256.

Definition mask : Z := 4294967295.
Definition w32 (x : Z) : Z := Z.land x mask.
Definition add32 (x y : Z) : Z := w32 (x + y).
Definition rotr (n x : Z) : Z := Z.lor (Z.shiftr x n) (w32 (Z.shiftl x (32 - n))).
Definition shr (n x : Z) : Z := Z.shiftr x n.
Definition not32 (x : Z) : Z := Z.lxor x mask.

Definition Ch (x y z : Z) : Z := Z.lxor (Z.land x y) (Z.land (not32 x) z).
Definition Maj (x y z : Z) : Z :=
  Z.lxor (Z.lxor (Z.land x y) (Z.land x z)) (Z.land y z).
Definition Sigma0 (x : Z) : Z := Z.lxor (Z.lxor (rotr 2 x) (rotr 13 x)) (rotr 22 x).
Definition Sigma1 (x : Z) : Z := Z.lxor (Z.lxor (rotr 6 x) (rotr 11 x)) (rotr 25 x).
Definition sigma0 (x : Z) : Z := Z.lxor (Z.lxor (rotr 7 x) (rotr 18 x)) (shr 3 x).
Definition sigma1 (x : Z) : Z := Z.lxor (Z.lxor (rotr 17 x) (rotr 19 x)) (shr 10 x).

(** The constants of FIPS 180-4 are fractional parts of roots of the first
    primes: 32 bits of the cube roots for the round constants, of the square
    roots for the initial hash value. *)
Definition primes : list Z :=
  [2; 3; 5; 7; 11; 13; 17; 19; 23; 29; 31; 37; 41; 43; 47; 53; 59; 61; 67; 71;
   73; 79; 83; 89; 97; 101; 103; 107; 109; 113; 127; 131; 137; 139; 149; 151;
   157; 163; 167; 173; 179; 181; 191; 193; 197; 199; 211; 223; 227; 229; 233;
   239; 241; 251; 257; 263; 269; 271; 277; 281; 283; 293; 307; 311].

(** The integer cube root below [2 ^ bits], one bit at a time. *)
Fixpoint cube_root (bits : nat) (n r : Z) : Z :=
  match bits with
  | O => r
  | S b =>
      let c := r + 2 ^ Z.of_nat b in
      cube_root b n (if c * c * c <=? n then c else r)
  end.

Definition K : list Z :=
  Eval vm_compute in map (fun p => cube_root 40 (p * 2 ^ 96) 0 mod 2 ^ 32) primes.

Definition H0 : list Z :=
  Eval vm_compute in map (fun p => Z.sqrt (p * 2 ^ 64) mod 2 ^ 32) (firstn 8 primes).

(** Padding: a 1 bit, zeros up to 56 mod 64 bytes, the bit length on 64 bits. *)
Definition pad (msg : list Z) : list Z :=
  let l := Z.of_nat (List.length msg) in
  let zeros := Z.to_nat ((55 - l) mod 64) in
  let bits := 8 * l in
  msg ++ [128] ++ List.repeat 0 zeros
      ++ map (fun i => Z.land (Z.shiftr bits (8 * (7 - Z.of_nat i))) 255) (seq 0 8).

(** Big-endian 32-bit words of a byte list. *)
Fixpoint words (l : list Z) : list Z :=
  match l with
  | a :: b :: c :: d :: r =>
      (Z.shiftl a 24 + Z.shiftl b 16 + Z.shiftl c 8 + d) :: words r
  | _ => []
  end.

(** The message schedule, most recent word first: [w] holds W[t-1] .. W[0]. *)
Fixpoint schedule (n : nat) (w : list Z) : list Z :=
  match n with
  | O => w
  | S k =>
      let wt := add32 (add32 (sigma1 (nth 1 w 0)) (nth 6 w 0))
                      (add32 (sigma0 (nth 14 w 0)) (nth 15 w 0)) in
      schedule k (wt :: w)
  end.

Record Regs := mkRegs { ra : Z; rb : Z; rc : Z; rd : Z; re : Z; rf : Z; rg : Z; rh : Z }.

Definition round (s : Regs) (kw : Z * Z) : Regs :=
  let '(k, w) := kw in
  let t1 := add32 (add32 (add32 (add32 (rh s) (Sigma1 (re s))) (Ch (re s) (rf s) (rg s))) k) w in
  let t2 := add32 (Sigma0 (ra s)) (Maj (ra s) (rb s) (rc s)) in
  mkRegs (add32 t1 t2) (ra s) (rb s) (rc s) (add32 (rd s) t1) (re s) (rf s) (rg s).

Definition regs_of (h : list Z) : Regs :=
  mkRegs (nth 0 h 0) (nth 1 h 0) (nth 2 h 0) (nth 3 h 0)
         (nth 4 h 0) (nth 5 h 0) (nth 6 h 0) (nth 7 h 0).

Definition compress (h : list Z) (block : list Z) : list Z :=
  let w := rev (schedule 48 (rev block)) in
  let s := fold_left round (combine K w) (regs_of h) in
  map (fun p => add32 (fst p) (snd p))
      (combine h [ra s; rb s; rc s; rd s; re s; rf s; rg s; rh s]).

(** Fold [compress] over the 16-word blocks; [n] bounds the number of blocks. *)
Fixpoint blocks (n : nat) (h : list Z) (ws : list Z) : list Z :=
  match n with
  | O => h
  | S k =>
      match ws with
      | [] => h
      | _ => blocks k (compress h (firstn 16 ws)) (skipn 16 ws)
      end
  end.

Definition digest (msg : list Z) : list Z :=
  let ws := words (pad msg) in
  blocks (List.length ws) H0 ws.

(** [.digest("hex")]: 64 lowercase hexadecimal digits. *)
Definition hex (msg : string) : string :=
  fold_right (fun w acc => Text.hex_fixed 8 w acc) "" (digest (Text.bytes_of msg)).

End SHA256.


(* ================================================================== *)
(** ** JavaScript values of the JSON domain *)
(* ================================================================== *)

(** An object is the list of its own properties in JavaScript's own-key order
    (array-index keys in ascending order first, then the other keys in
    insertion order); a key occurs at most once.  A number is an integer
    [JNum n], or the number [m / 10^e] with [e] decimal places, [JFrac m e]
    ([m] is not a multiple of ten when the number is in lowest terms). *)
#[local] Set Warnings "-register-all".
Inductive JSON : Type :=
| JNull
| JBool (b : bool)
| JNum (n : Z)
| JFrac (m : Z) (e : positive)
| JStr (s : string)
| JArr (items : list JSON)
| JObj (props : list (string * JSON)).

(** A value or [undefined]. *)
Definition JSval : Type := option JSON.
Definition undefined : JSval := None.

Module JS.

Definition dquote : ascii := "034"%char.
Definition backslash : ascii := "092"%char.

(** The decimal digits of an integer: [toString] of a BigInt, and
    [String(n)] of a number that is an integer below 1e21 in size. *)
Definition dec (n : Z) : string := NilZero.string_of_int (Z.to_int n).

Fixpoint zeros (n : nat) : string :=
  match n with
  | O => ""
  | S k => String "0" (zeros k)
  end.

Fixpoint take (n : nat) (s : string) : string :=
  match n, s with
  | S k, String c r => String c (take k r)
  | _, _ => ""
  end.

(** The digits of a numeral without the zeros that end it. *)
Fixpoint significant (s : string) : string :=
  match s with
  | EmptyString => ""
  | String c r =>
      let r' := significant r in
      if String.eqb r' "" && (Text.byte_of c =? 48) then "" else String c r'
  end.

(** [String(n)] for a number that is an integer: its digits below 1e21, the
    exponent form from there. *)
Definition integral (n : Z) : string :=
  if Z.abs n <? 10 ^ 21 then dec n
  else
    let digits := dec (Z.abs n) in
    let s := significant digits in
    (if n <? 0 then "-" else "")
    ++ take 1 s
    ++ (if String.eqb (Text.slice 1 s) "" then "" else "." ++ Text.slice 1 s)
    ++ "e+" ++ dec (Z.of_nat (String.length digits) - 1).

(** [String(x)] for the number [m / 10^e] that is not an integer, with its
    digits as they are: the point after the first [n] digits when the number
    is 1 or more in size, zeros between the point and the digits down to
    1e-6, the exponent form below. *)
Definition decimal (m e : Z) : string :=
  let digits := dec (Z.abs m) in
  let n := Z.of_nat (String.length digits) - e in
  (if m <? 0 then "-" else "") ++
  (if 0 <? n then
     take (Z.to_nat n) digits ++ "." ++ Text.slice (Z.to_nat n) digits
   else if -6 <? n then
     "0." ++ zeros (Z.to_nat (- n)) ++ digits
   else
     take 1 digits
     ++ (if String.eqb (Text.slice 1 digits) "" then "" else "." ++ Text.slice 1 digits)
     ++ "e-" ++ dec (1 - n)).

(** ToBoolean. *)
Definition truthy (v : JSval) : bool :=
  match v with
  | None => false
  | Some JNull => false
  | Some (JBool b) => b
  | Some (JNum n) => negb (n =? 0)
  | Some (JFrac _ _) => true
  | Some (JStr s) => negb (String.eqb s "")
  | Some (JArr _) => true
  | Some (JObj _) => true
  end.

(** [a || b]. *)
Definition or_else (a b : JSval) : JSval := if truthy a then a else b.

(** [typeof v === "object"]. *)
Definition typeof_object (v : JSval) : bool :=
  match v with
  | Some JNull | Some (JArr _) | Some (JObj _) => true
  | _ => false
  end.

Fixpoint lookup (k : string) (o : list (string * JSON)) : JSval :=
  match o with
  | [] => None
  | (k', v) :: r => if String.eqb k' k then Some v else lookup k r
  end.

Definition has_key (k : string) (o : list (string * JSON)) : bool :=
  match lookup k o with Some _ => true | None => false end.

Definition is_digit (c : ascii) : bool :=
  let z := Text.byte_of c in (48 <=? z) && (z <=? 57).

Fixpoint digits_value (s : string) (acc : Z) : Z :=
  match s with
  | EmptyString => acc
  | String c r => digits_value r (10 * acc + (Text.byte_of c - 48))
  end.

(** The array index a property key denotes, if any: a canonical decimal
    numeral below 2^32 - 1. *)
Definition array_index (k : string) : option Z :=
  match k with
  | EmptyString => None
  | String c r =>
      if Text.all_chars is_digit k
         && (negb (Ascii.eqb c "0"%char) || String.eqb r "")
         && (Z.of_nat (String.length k) <=? 10)
         && (digits_value k 0 <=? 4294967294)
      then Some (digits_value k 0) else None
  end.

Fixpoint obj_update (k : string) (v : JSON) (o : list (string * JSON))
  : list (string * JSON) :=
  match o with
  | [] => []
  | (k', v') :: r =>
      if String.eqb k' k then (k', v) :: r else (k', v') :: obj_update k v r
  end.

Fixpoint obj_insert_index (i : Z) (k : string) (v : JSON)
  (o : list (string * JSON)) : list (string * JSON) :=
  match o with
  | [] => [(k, v)]
  | (k', v') :: r =>
      match array_index k' with
      | Some j => if j <? i then (k', v') :: obj_insert_index i k v r
                  else (k, v) :: o
      | None => (k, v) :: o
      end
  end.

(** [o[k] = v] on an ordinary object: an existing key keeps its place. *)
Definition obj_set (o : list (string * JSON)) (k : string) (v : JSON)
  : list (string * JSON) :=
  if has_key k o then obj_update k v o
  else match array_index k with
       | Some i => obj_insert_index i k v o
       | None => o ++ [(k, v)]
       end.

Fixpoint indexed (i : Z) (l : list JSON) : list (string * JSON) :=
  match l with
  | [] => []
  | x :: r => (dec i, x) :: indexed (i + 1) r
  end.

Fixpoint chars (s : string) : list JSON :=
  match s with
  | EmptyString => []
  | String c r => JStr (String c EmptyString) :: chars r
  end.

(** The own enumerable properties a spread [...v] copies. *)
Definition own_entries (v : JSval) : list (string * JSON) :=
  match v with
  | Some (JObj o) => o
  | Some (JArr l) => indexed 0 l
  | Some (JStr s) => indexed 0 (chars s)
  | _ => []
  end.

(** [{ ...o, ...v }]: the properties of [v] assigned onto [o] in order. *)
Definition spread_into (o : list (string * JSON)) (v : JSval)
  : list (string * JSON) :=
  fold_left (fun acc kv => obj_set acc (fst kv) (snd kv)) (own_entries v) o.

(** An object literal: the properties assigned in source order. *)
Definition literal (props : list (string * JSON)) : list (string * JSON) :=
  fold_left (fun acc kv => obj_set acc (fst kv) (snd kv)) props [].

(** [Object.keys]. *)
Definition keys (o : list (string * JSON)) : list string := map fst o.

(** The property [v[k]] for the keys the services read (field names, never
    [length] or an index): [None] is a TypeError (reading a property of
    [null] or [undefined]); [Some None] is [undefined]. *)
Definition get (v : JSval) (k : string) : option JSval :=
  match v with
  | None | Some JNull => None
  | Some (JObj o) => Some (lookup k o)
  | Some _ => Some None
  end.

(** The escape of one character inside a JSON string literal. *)
Definition escape_char (c : ascii) : string :=
  let z := Text.byte_of c in
  if z =? 34 then String backslash (String dquote "")
  else if z =? 92 then String backslash (String backslash "")
  else if z =? 8 then String backslash "b"
  else if z =? 12 then String backslash "f"
  else if z =? 10 then String backslash "n"
  else if z =? 13 then String backslash "r"
  else if z =? 9 then String backslash "t"
  else if z <? 32 then String backslash ("u00" ++ Text.hex_fixed 2 z "")
  else String c "".

Fixpoint escape (s : string) : string :=
  match s with
  | EmptyString => ""
  | String c r => escape_char c ++ escape r
  end.

Definition quote (s : string) : string :=
  String dquote (escape s ++ String dquote "").

(** [JSON.stringify(v)] (no indentation). *)
Fixpoint stringify (v : JSON) : string :=
  match v with
  | JNull => "null"
  | JBool true => "true"
  | JBool false => "false"
  | JNum n => integral n
  | JFrac m e => decimal m (Z.pos e)
  | JStr s => quote s
  | JArr l =>
      "[" ++ (fix elems (l : list JSON) : string :=
                match l with
                | [] => ""
                | x :: r =>
                    stringify x ++
                    match r with [] => "" | _ :: _ => "," ++ elems r end
                end) l ++ "]"
  | JObj o =>
      "{" ++ (fix members (o : list (string * JSON)) : string :=
                match o with
                | [] => ""
                | (k, x) :: r =>
                    quote k ++ ":" ++ stringify x ++
                    match r with [] => "" | _ :: _ => "," ++ members r end
                end) o ++ "}"
  end.

(** [String(v)] for a value that is not an object. *)
Definition to_string (v : JSval) : string :=
  match v with
  | None => "undefined"
  | Some (JBool true) => "true"
  | Some (JBool false) => "false"
  | Some (JNum n) => integral n
  | Some (JStr s) => s
  | Some j => stringify j
  end.

End JS.

(* ================================================================== *)
(** ** [JSON.parse] and UTF-8 *)
(* ================================================================== *)

Module Utf8.

Definition between (lo hi : Z) (c : ascii) : bool :=
  let z := Text.byte_of c in (lo <=? z) && (z <=? hi).
Definition cont : ascii -> bool := between 128 191.

(** Well-formed UTF-8 (no overlong form, no surrogate, at most U+10FFFF). *)
Fixpoint valid (s : string) : bool :=
  match s with
  | EmptyString => true
  | String a r =>
      if between 0 127 a then valid r
      else match r with
      | EmptyString => false
      | String b r1 =>
          if between 194 223 a then cont b && valid r1
          else match r1 with
          | EmptyString => false
          | String c r2 =>
              if between 224 224 a then between 160 191 b && cont c && valid r2
              else if between 225 236 a || between 238 239 a
                   then cont b && cont c && valid r2
              else if between 237 237 a then between 128 159 b && cont c && valid r2
              else match r2 with
              | EmptyString => false
              | String d r3 =>
                  if between 240 240 a
                  then between 144 191 b && cont c && cont d && valid r3
                  else if between 241 243 a
                  then cont b && cont c && cont d && valid r3
                  else if between 244 244 a
                  then between 128 143 b && cont c && cont d && valid r3
                  else false
              end
          end
      end
  end.

(** The bytes of one code point (a lone surrogate is encoded like any other
    value of its range, which [valid] rejects). *)
Definition encode (cp : Z) : string :=
  if cp <? 128 then String (Text.char_of cp) ""
  else if cp <? 2048 then
    String (Text.char_of (192 + cp / 64)) (String (Text.char_of (128 + cp mod 64)) "")
  else if cp <? 65536 then
    String (Text.char_of (224 + cp / 4096))
      (String (Text.char_of (128 + (cp / 64) mod 64))
         (String (Text.char_of (128 + cp mod 64)) ""))
  else
    String (Text.char_of (240 + cp / 262144))
      (String (Text.char_of (128 + (cp / 4096) mod 64))
         (String (Text.char_of (128 + (cp / 64) mod 64))
            (String (Text.char_of (128 + cp mod 64)) ""))).

End Utf8.

Module Parse.

(** What a string literal holds: a character as written, or the UTF-16 code
    unit of an escape. *)
Inductive Item : Type :=
| Raw (c : ascii)
| Esc (u : Z).

Definition is_ws (c : ascii) : bool :=
  let z := Text.byte_of c in (z =? 32) || (z =? 9) || (z =? 10) || (z =? 13).

Fixpoint skip_ws (s : string) : string :=
  match s with
  | EmptyString => EmptyString
  | String c r => if is_ws c then skip_ws r else s
  end.

Definition simple_escape (e : ascii) : option Z :=
  let z := Text.byte_of e in
  if z =? 34 then Some 34          (* quote *)
  else if z =? 92 then Some 92     (* backslash *)
  else if z =? 47 then Some 47     (* slash *)
  else if z =? 98 then Some 8      (* b *)
  else if z =? 102 then Some 12    (* f *)
  else if z =? 110 then Some 10    (* n *)
  else if z =? 114 then Some 13    (* r *)
  else if z =? 116 then Some 9     (* t *)
  else None.

Definition hex4 (a b c d : ascii) : option Z :=
  match Text.hex_value a, Text.hex_value b, Text.hex_value c, Text.hex_value d with
  | Some x, Some y, Some z, Some t => Some (4096 * x + 256 * y + 16 * z + t)
  | _, _, _, _ => None
  end.

Definition cons_item (i : Item) (r : option (list Item * string))
  : option (list Item * string) :=
  match r with
  | Some (l, rest) => Some (i :: l, rest)
  | None => None
  end.

(** The items of a string literal after its opening quote, and the text
    after its closing quote. *)
Fixpoint items (s : string) : option (list Item * string) :=
  match s with
  | EmptyString => None
  | String c r =>
      if Text.byte_of c =? 34 then Some ([], r)
      else if Text.byte_of c =? 92 then
        match r with
        | EmptyString => None
        | String e r1 =>
            if Text.byte_of e =? 117 then
              match r1 with
              | String h1 (String h2 (String h3 (String h4 r2))) =>
                  match hex4 h1 h2 h3 h4 with
                  | Some u => cons_item (Esc u) (items r2)
                  | None => None
                  end
              | _ => None
              end
            else
              match simple_escape e with
              | Some u => cons_item (Esc u) (items r1)
              | None => None
              end
        end
      else if Text.byte_of c <? 32 then None
      else cons_item (Raw c) (items r)
  end.

Definition high_surrogate (u : Z) : bool := (55296 <=? u) && (u <=? 56319).
Definition low_surrogate (u : Z) : bool := (56320 <=? u) && (u <=? 57343).

(** The string the items denote, as UTF-8. *)
Fixpoint decode (l : list Item) : string :=
  match l with
  | [] => ""
  | Raw c :: r => String c (decode r)
  | Esc u :: r =>
      match r with
      | Esc v :: r1 =>
          if high_surrogate u && low_surrogate v
          then Utf8.encode (65536 + (u - 55296) * 1024 + (v - 56320)) ++ decode r1
          else Utf8.encode u ++ decode r
      | _ => Utf8.encode u ++ decode r
      end
  end.

Definition string_literal (s : string) : option (string * string) :=
  match items s with
  | Some (l, rest) => Some (decode l, rest)
  | None => None
  end.

Definition numeral_char (c : ascii) : bool :=
  JS.is_digit c || (Text.byte_of c =? 45).

Fixpoint span_numeral (s : string) : string * string :=
  match s with
  | EmptyString => ("", "")
  | String c r =>
      if numeral_char c
      then let '(n, rest) := span_numeral r in (String c n, rest)
      else ("", s)
  end.

(** An integer numeral as the conversion of text to an integer column reads
    it: an optional minus sign and digits without a leading zero. *)
Definition integer (s : string) : option (Z * string) :=
  let '(t, rest) := span_numeral s in
  match NilZero.int_of_string t with
  | Some d =>
      let n := Z.of_int d in
      if String.eqb (JS.dec n) t || String.eqb t "-0" then Some (n, rest) else None
  | None => None
  end.

Fixpoint span_digits (s : string) : string * string :=
  match s with
  | EmptyString => ("", "")
  | String c r =>
      if JS.is_digit c
      then let '(d, rest) := span_digits r in (String c d, rest)
      else ("", s)
  end.

(** The integer part of a numeral: one digit at least, and no leading zero
    before another digit. *)
Definition int_ok (d : string) : bool :=
  match d with
  | EmptyString => false
  | String c r => negb (Text.byte_of c =? 48) || String.eqb r ""
  end.

(** The digits of the fraction, if the numeral has one. *)
Definition fraction (s : string) : option (string * string) :=
  match s with
  | String c r =>
      if Text.byte_of c =? 46 then
        let '(d, rest) := span_digits r in
        if String.eqb d "" then None else Some (d, rest)
      else Some ("", s)
  | EmptyString => Some ("", s)
  end.

(** The exponent, if the numeral has one. *)
Definition exponent (s : string) : option (Z * string) :=
  match s with
  | String c r =>
      if (Text.byte_of c =? 101) || (Text.byte_of c =? 69) then
        let '(neg, r1) :=
          match r with
          | String g r' =>
              if Text.byte_of g =? 45 then (true, r')
              else if Text.byte_of g =? 43 then (false, r')
              else (false, r)
          | EmptyString => (false, r)
          end in
        let '(d, rest) := span_digits r1 in
        if String.eqb d "" then None
        else Some ((if neg then -1 else 1) * JS.digits_value d 0, rest)
      else Some (0, s)
  | EmptyString => Some (0, s)
  end.

(** [m / 10^e] without the factors of ten it can lose. *)
Fixpoint strip_tens (fuel : nat) (m e : Z) : Z * Z :=
  match fuel with
  | O => (m, e)
  | S f =>
      if (0 <? e) && (m mod 10 =? 0) then strip_tens f (m / 10) (e - 1) else (m, e)
  end.

(** The number [+-m * 10^x]. *)
Definition normal (neg : bool) (m x : Z) : JSON :=
  let s := if neg then -1 else 1 in
  if m =? 0 then JNum 0
  else if 0 <=? x then JNum (s * m * 10 ^ x)
  else let '(m', e') := strip_tens (Z.to_nat (- x)) m (- x) in
       match e' with
       | Z.pos p => JFrac (s * m') p
       | _ => JNum (s * m')
       end.

(** A numeral after its sign: the integer part, an optional fraction and an
    optional exponent. *)
Definition magnitude (neg : bool) (s : string) : option (JSON * string) :=
  let '(ip, s2) := span_digits s in
  if int_ok ip then
    match fraction s2 with
    | Some (fp, s3) =>
        match exponent s3 with
        | Some (x, s4) =>
            Some (normal neg (JS.digits_value (ip ++ fp) 0)
                    (x - Z.of_nat (String.length fp)), s4)
        | None => None
        end
    | None => None
    end
  else None.

(** A JSON numeral: an optional minus sign and the magnitude. *)
Definition number (s : string) : option (JSON * string) :=
  match s with
  | String c r => if Text.byte_of c =? 45 then magnitude true r else magnitude false s
  | EmptyString => magnitude false s
  end.

Definition literal (word : string) (v : JSON) (s : string) : option (JSON * string) :=
  if Text.startsWith s word then Some (v, Text.slice (String.length word) s) else None.

(** Values, array elements and object members; [fuel] bounds the recursion.
    Members are assigned in order, so a repeated key keeps its first place
    and its last value. *)
Fixpoint value (fuel : nat) (s : string) : option (JSON * string) :=
  match fuel with
  | O => None
  | S f =>
      match skip_ws s with
      | EmptyString => None
      | String c r =>
          let z := Text.byte_of c in
          if z =? 123 then                           (* { *)
            match skip_ws r with
            | String c1 r1 =>
                if Text.byte_of c1 =? 125 then Some (JObj [], r1)
                else match members f [] r with
                     | Some (o, rest) => Some (JObj o, rest)
                     | None => None
                     end
            | EmptyString => None
            end
          else if z =? 91 then                       (* [ *)
            match skip_ws r with
            | String c1 r1 =>
                if Text.byte_of c1 =? 93 then Some (JArr [], r1)
                else match elements f r with
                     | Some (l, rest) => Some (JArr l, rest)
                     | None => None
                     end
            | EmptyString => None
            end
          else if z =? 34 then
            match string_literal r with
            | Some (t, rest) => Some (JStr t, rest)
            | None => None
            end
          else if z =? 110 then literal "null" JNull (String c r)
          else if z =? 116 then literal "true" (JBool true) (String c r)
          else if z =? 102 then literal "false" (JBool false) (String c r)
          else number (String c r)
      end
  end
with elements (fuel : nat) (s : string) : option (list JSON * string) :=
  match fuel with
  | O => None
  | S f =>
      match value f s with
      | Some (v, rest) =>
          match skip_ws rest with
          | String c r =>
              if Text.byte_of c =? 44 then
                match elements f r with
                | Some (l, rest') => Some (v :: l, rest')
                | None => None
                end
              else if Text.byte_of c =? 93 then Some ([v], r)
              else None
          | EmptyString => None
          end
      | None => None
      end
  end
with members (fuel : nat) (acc : list (string * JSON)) (s : string)
  : option (list (string * JSON) * string) :=
  match fuel with
  | O => None
  | S f =>
      match skip_ws s with
      | String q r =>
          if Text.byte_of q =? 34 then
            match string_literal r with
            | Some (k, rest) =>
                match skip_ws rest with
                | String c r1 =>
                    if Text.byte_of c =? 58 then
                      match value f r1 with
                      | Some (v, rest1) =>
                          let acc' := JS.obj_set acc k v in
                          match skip_ws rest1 with
                          | String c2 r2 =>
                              if Text.byte_of c2 =? 44 then members f acc' r2
                              else if Text.byte_of c2 =? 125 then Some (acc', r2)
                              else None
                          | EmptyString => None
                          end
                      | None => None
                      end
                    else None
                | EmptyString => None
                end
            | None => None
            end
          else None
      | EmptyString => None
      end
  end.

End Parse.

(** [JSON.parse(text)]: [None] is a SyntaxError. *)
Definition JSON_parse (text : string) : option JSON :=
  match Parse.value (2 * String.length text + 2) text with
  | Some (v, rest) =>
      match Parse.skip_ws rest with
      | EmptyString => Some v
      | String _ _ => None
      end
  | None => None
  end.

(* ================================================================== *)
(** ** Errors, the world and the monad of service code *)
(* ================================================================== *)

(** Thrown values, by constructor ([err.name]) and fields. *)
Inductive JSError : Type :=
| Error (message : string)
| TypeError (message : string)
| SyntaxError (message : string)
| ValidationError (message : string)
| BlockchainError (message code : string) (statusCode : Z)
| RpcError (code message : string)      (* an ethers error carrying [code] *)
| RequestError (message : string)       (* an error of the SQL driver *)
| SystemError (code message : string).  (* a Node.js file-system error *)

Definition error_message (e : JSError) : string :=
  match e with
  | Error m | TypeError m | SyntaxError m | ValidationError m
  | BlockchainError m _ _ | RpcError _ m | RequestError m | SystemError _ m => m
  end.

Definition error_name (e : JSError) : string :=
  match e with
  | Error _ | RpcError _ _ | SystemError _ _ => "Error"
  | TypeError _ => "TypeError"
  | SyntaxError _ => "SyntaxError"
  | ValidationError _ => "ValidationError"
  | BlockchainError _ _ _ => "BlockchainError"
  | RequestError _ => "RequestError"
  end.

(** [error instanceof BlockchainError]. *)
Definition is_BlockchainError (e : JSError) : bool :=
  match e with BlockchainError _ _ _ => true | _ => false end.

(** *** The ledger behind the JSON-RPC provider *)

Record Tx : Type := mkTx {
  tx_hash : string;
  tx_from : string;
  tx_to : string;
  tx_value : Z;
  tx_data : string   (* the input data, 0x-prefixed hex; empty when absent *)
}.

Record Receipt : Type := mkReceipt {
  rc_hash : string;
  rc_blockNumber : Z;
  rc_blockHash : string;
  rc_gasUsed : Z;
  rc_gasPrice : option Z;
  rc_status : Z;
  rc_from : string;
  rc_to : string
}.

(** What the network does with the next submitted transaction. *)
Inductive SendOutcome : Type :=
| Rejected (code message : string)
    (* not accepted: insufficient funds, endpoint unreachable, ... *)
| Mined (id blockNumber blockHash gasUsed : Z) (gasPrice : option Z)
    (* accepted under the 256-bit identifier [id] and confirmed *)
| Dropped (id : Z) (code message : string)
    (* accepted, but waiting for the receipt fails; no receipt exists *)
| Reverted (id blockNumber blockHash gasUsed : Z) (gasPrice : option Z).
    (* accepted and mined with status 0: waiting for the receipt fails *)

Record Ledger : Type := mkLedger {
  network : string;            (* blockchainConfig.network *)
  chainId : Z;
  wallet_address : string;
  txs : list Tx;
  receipts : list Receipt;
  outcomes : list SendOutcome  (* the outcomes of the submissions to come *)
}.

(** *** The relational store *)

(** A [Date] object: the clock reading it was created at, or the argument
    it was constructed from (left unparsed). *)
Inductive JSDate : Type :=
| DateAt (iso : string)
| DateOf (arg : JSval).

(** A query parameter as the driver receives it. *)
Inductive SqlVal : Type :=
| SqlNull
| SqlStr (s : string)
| SqlNum (n : Z)
| SqlBit (b : bool)
| SqlFloat (m : Z) (e : positive)
| SqlDate (d : JSDate)
| SqlJson (j : JSON).

Record FarmerRow : Type := mkFarmerRow {
  f_farmer_id : string;
  f_full_name : string;
  f_email : option string;
  f_phone : option string;
  f_address : option string;
  f_province : option string;
  f_district : option string;
  f_ward : option string;
  f_certification_level : option string;
  f_wallet_address : option string
}.

Record AgriDataRow : Type := mkAgriDataRow {
  ad_data_id : Z;
  ad_farmer_id : string;
  ad_product_type : string;
  ad_location : string;
  ad_harvest_date : JSDate;
  ad_quantity : SqlVal;
  ad_quality : option string;
  ad_notes : option string;
  ad_data_hash : string;
  ad_transaction_hash : string;
  ad_block_number : option Z;
  ad_has_files : bool;
  ad_file_count : Z
}.

Record ChainTxRow : Type := mkChainTxRow {
  bt_transaction_hash : string;
  bt_block_number : option Z;
  bt_block_hash : option string;
  bt_from_address : string;
  bt_to_address : option string;
  bt_gas_used : SqlVal;
  bt_gas_price : SqlVal;
  bt_transaction_fee : SqlVal;
  bt_network_name : option string;
  bt_network_id : SqlVal;
  bt_status : option string;
  bt_transaction_date : JSDate
}.

Record FileRow : Type := mkFileRow {
  uf_file_id : Z;
  uf_data_id : Z;
  uf_original_name : string;
  uf_stored_filename : string;
  uf_file_path : string;
  uf_file_size : Z;
  uf_mime_type : string;
  uf_file_hash : string;
  uf_upload_date : string;
  uf_is_active : bool
}.

Record VerificationRow : Type := mkVerificationRow {
  vl_log_id : Z;
  vl_data_id : Z;
  vl_transaction_hash : string;
  vl_verification_date : string;
  vl_verification_method : string;
  vl_is_valid : bool;
  vl_stored_hash : string;
  vl_current_hash : string;
  vl_client_ip : option string;
  vl_user_agent : option string
}.

Record SystemLogRow : Type := mkSystemLogRow {
  sl_log_level : string;
  sl_log_category : string;
  sl_message : string;
  sl_details : string;
  sl_timestamp : string
}.

(** The tables, each in insertion order, the identity counters, and the
    faults to come: the head of [faults] is consumed by the next request sent
    to the server, and [Some m] makes that request fail with message [m]
    (connection lost, timeout, ...) before it touches the tables. *)
Record Database : Type := mkDatabase {
  farmers : list FarmerRow;
  agricultural_data : list AgriDataRow;
  blockchain_transactions : list ChainTxRow;
  uploaded_files : list FileRow;
  verification_logs : list VerificationRow;
  system_logs : list SystemLogRow;
  next_data_id : Z;
  next_file_id : Z;
  next_log_id : Z;
  faults : list (option string)
}.

(** *** The world *)

Record World : Type := mkWorld {
  clock : nat -> string;  (* the ISO text of the n-th reading of the clock *)
  ticks : nat;            (* readings taken so far *)
  disk : list (string * string);    (* path, file content *)
  ledger : Ledger;
  db : Database;
  log : list (string * string)      (* logger and console lines: level, message *)
}.

Definition set_ticks (n : nat) (w : World) : World :=
  mkWorld (clock w) n (disk w) (ledger w) (db w) (log w).
Definition set_ledger (l : Ledger) (w : World) : World :=
  mkWorld (clock w) (ticks w) (disk w) l (db w) (log w).
Definition set_db (d : Database) (w : World) : World :=
  mkWorld (clock w) (ticks w) (disk w) (ledger w) d (log w).
Definition set_log (l : list (string * string)) (w : World) : World :=
  mkWorld (clock w) (ticks w) (disk w) (ledger w) (db w) l.

(** *** The monad: state passing with thrown errors *)

Inductive Res (A : Type) : Type :=
| Ok (a : A)
| Throw (e : JSError).
Arguments Ok {A} a.
Arguments Throw {A} e.

Definition M (A : Type) : Type := World -> Res A * World.

Definition ret {A} (a : A) : M A := fun w => (Ok a, w).
Definition throw {A} (e : JSError) : M A := fun w => (Throw e, w).
Definition bind {A B} (c : M A) (k : A -> M B) : M B :=
  fun w => match c w with
           | (Ok a, w') => k a w'
           | (Throw e, w') => (Throw e, w')
           end.
(** [try { c } catch (error) { h error }]. *)
Definition try_catch {A} (c : M A) (h : JSError -> M A) : M A :=
  fun w => match c w with
           | (Ok a, w') => (Ok a, w')
           | (Throw e, w') => h e w'
           end.
(** A pure step that may throw. *)
Definition lift {A} (r : Res A) : M A := fun w => (r, w).

Declare Scope monad_scope.
Delimit Scope monad_scope with monad.
Notation "x <- c ;; k" := (bind c (fun x => k))
  (at level 61, c at next level, right associativity) : monad_scope.
Notation "c ;;; k" := (bind c (fun _ => k))
  (at level 61, right associativity) : monad_scope.
Open Scope monad_scope.

Definition result_of {A} (c : M A) (w : World) : Res A := fst (c w).
Definition world_after {A} (c : M A) (w : World) : World := snd (c w).

(** [new Date()] read as its ISO text ([toISOString]). *)
Definition now : M string :=
  fun w => (Ok (clock w (ticks w)), set_ticks (S (ticks w)) w).

(** A line of the logger ([logger.info] ...) or of the console. *)
Definition log_line (level message : string) : M unit :=
  fun w => (Ok tt, set_log (log w ++ [(level, message)]) w).
Definition logger_info := log_line "info".
Definition logger_warn := log_line "warn".
Definition logger_error := log_line "error".

(* ================================================================== *)
(** ** hash.service.js *)
(* ================================================================== *)

Module HashService.

(** The text [generateHash] hashes:
    [typeof data === "object" ? JSON.stringify(data) : String(data)]. *)
Definition dataString (data : JSval) : string :=
  match data with
  | Some j => if JS.typeof_object data then JS.stringify j else JS.to_string data
  | None => JS.to_string data
  end.

Definition generateHash (data : JSval) : M string :=
  try_catch
    (let hash := SHA256.hex (dataString data) in
     logger_info "Hash generated successfully" ;;;
     ret ("0x" ++ hash))
    (fun error =>
       logger_error "Failed to generate hash" ;;;
       throw (Error ("Hash generation failed: " ++ error_message error))).

(** [hash.startsWith("0x") ? hash : `0x${hash}`]; only a string has the
    method. *)
Definition cleanHash (hash : JSval) : Res string :=
  match hash with
  | Some (JStr h) => Ok (if Text.startsWith h "0x" then h else "0x" ++ h)
  | None => Throw (TypeError "Cannot read properties of undefined (reading 'startsWith')")
  | Some JNull => Throw (TypeError "Cannot read properties of null (reading 'startsWith')")
  | Some _ => Throw (TypeError "hash.startsWith is not a function")
  end.

Definition verifyHash (data : JSval) (hash : JSval) : M bool :=
  try_catch
    (generatedHash <- generateHash data ;;
     clean <- lift (cleanHash hash) ;;
     let isValid := String.eqb generatedHash clean in
     logger_info "Hash verification completed" ;;;
     ret isValid)
    (fun error =>
       logger_error "Hash verification failed" ;;;
       ret false).

Definition requiredFields : list string :=
  ["farmerId"; "productType"; "harvestDate"; "location"].

(** [requiredFields.filter((field) => !agriData[field])]. *)
Definition missingFields (agriData : JSval) : Res (list string) :=
  match agriData with
  | None => Throw (TypeError "Cannot read properties of undefined (reading 'farmerId')")
  | Some JNull => Throw (TypeError "Cannot read properties of null (reading 'farmerId')")
  | Some (JObj o) =>
      Ok (filter (fun field => negb (JS.truthy (JS.lookup field o))) requiredFields)
  | Some _ => Ok requiredFields
  end.

Record HashResult : Type := mkHashResult {
  hash : string;
  data : list (string * JSON);   (* dataWithMetadata *)
  fields : list string;
  size : Z                        (* length of the JSON text *)
}.

Definition createAgriDataHash (agriData : JSval) : M HashResult :=
  try_catch
    (missing <- lift (missingFields agriData) ;;
     (if (0 <? Z.of_nat (List.length missing))
      then throw (Error ("Missing required fields: " ++ Text.join ", " missing))
      else ret tt) ;;;
     timestamp <- now ;;
     let dataWithMetadata :=
       JS.obj_set
         (JS.obj_set
            (JS.obj_set (JS.spread_into [] agriData) "timestamp" (JStr timestamp))
            "version" (JStr "1.0"))
         "system" (JStr "AgriChain") in
     hash <- generateHash (Some (JObj dataWithMetadata)) ;;
     logger_info "Agricultural data hash created" ;;;
     ret (mkHashResult hash dataWithMetadata (JS.keys dataWithMetadata)
            (Text.units (JS.stringify (JObj dataWithMetadata)))))
    (fun error =>
       logger_error "Failed to create agricultural data hash" ;;;
       throw error).

End HashService.

(* ================================================================== *)
(** ** file.service.js: the combined hash of data and files *)
(* ================================================================== *)

(** A file as the upload middleware hands it over. *)
Record UploadedFile : Type := mkUploadedFile {
  originalname : string;
  filename : string;
  fsize : Z;
  mimetype : string;
  path : string;
  fhash : JSval     (* [file.hash]; the upload middleware sets none *)
}.

Module FileService.

(** [fs.readFileSync(path)]. *)
Definition readFileSync (p : string) : M string :=
  fun w =>
    match find (fun e => String.eqb (fst e) p) (disk w) with
    | Some e => (Ok (snd e), w)
    | None =>
        (Throw (SystemError "ENOENT"
                  ("ENOENT: no such file or directory, open '" ++ p ++ "'")), w)
    end.

Record FileInfo : Type := mkFileInfo {
  fi_originalName : string;
  fi_filename : string;
  fi_size : Z;
  fi_mimetype : string;
  fi_hash : string;
  fi_path : string
}.

Record CombinedMetadata : Type := mkCombinedMetadata {
  hasFiles : bool;
  fileCount : Z;
  totalSize : Z;
  dataSize : Z;
  combinedSize : Z;
  cm_timestamp : string
}.

Record CombinedResult : Type := mkCombinedResult {
  combinedHash : string;
  dataHash : string;
  files : list FileInfo;
  metadata : CombinedMetadata
}.

(** The [for (const file of files)] loop over [combinedContent] and
    [fileInfo]. *)
Fixpoint processFiles (fs : list UploadedFile) (combinedContent : string)
  (fileInfo : list FileInfo) : M (string * list FileInfo) :=
  match fs with
  | [] => ret (combinedContent, fileInfo)
  | file :: rest =>
      fileBuffer <- readFileSync (path file) ;;
      let fileHash := SHA256.hex fileBuffer in
      logger_info "File processed for combined hash" ;;;
      processFiles rest (combinedContent ++ fileHash)
        (fileInfo ++ [mkFileInfo (originalname file) (filename file) (fsize file)
                        (mimetype file) ("0x" ++ fileHash) (path file)])
  end.

Definition generateCombinedHash (data : JSON) (fs : list UploadedFile)
  : M CombinedResult :=
  try_catch
    (let dataString := JS.stringify data in
     r <- processFiles fs dataString [] ;;
     let '(combinedContent, fileInfo) := r in
     let combined := SHA256.hex combinedContent in
     timestamp <- now ;;
     let result :=
       mkCombinedResult ("0x" ++ combined) (SHA256.hex dataString) fileInfo
         (mkCombinedMetadata
            (0 <? Z.of_nat (List.length fs))
            (Z.of_nat (List.length fs))
            (fold_left (fun sum file => sum + fi_size file) fileInfo 0)
            (Text.units dataString)
            (Text.units combinedContent)
            timestamp) in
     logger_info "Combined hash generated successfully" ;;;
     ret result)
    (fun error =>
       logger_error "Failed to generate combined hash" ;;;
       throw (Error ("Combined hash generation failed: " ++ error_message error))).

End FileService.

(* ================================================================== *)
(** ** The ethers library and the provider, as the service uses them *)
(* ================================================================== *)

Module Ethers.

Definition lower_char (c : ascii) : ascii :=
  let z := Text.byte_of c in
  if (65 <=? z) && (z <=? 90) then Text.char_of (z + 32) else c.

Fixpoint lower (s : string) : string :=
  match s with
  | EmptyString => EmptyString
  | String c r => String (lower_char c) (lower r)
  end.

(** [ethers.isHexString(value, length)]: [0x] and hexadecimal digits, and
    [length] bytes when a length is given. *)
Definition isHexString (value : string) (length : option nat) : bool :=
  Text.startsWith value "0x"
  && Text.all_chars Text.is_hex (Text.slice 2 value)
  && match length with
     | Some n => Nat.eqb (String.length value) (2 + 2 * n)
     | None => true
     end.

(** [ethers.toUtf8Bytes]: refuses a string that is not well-formed Unicode. *)
Definition toUtf8Bytes (s : string) : Res string :=
  if Utf8.valid s then Ok s
  else Throw (RpcError "INVALID_ARGUMENT" "invalid surrogate pair").

(** [ethers.hexlify]. *)
Definition hexlify (bytes : string) : string := "0x" ++ Text.hex_of_string bytes.

(** [ethers.toUtf8String] of a hex string. *)
Definition toUtf8String (data : string) : Res string :=
  if isHexString data None then
    match Text.string_of_hex (Text.slice 2 data) with
    | Some bytes =>
        if Utf8.valid bytes then Ok bytes
        else Throw (RpcError "INVALID_ARGUMENT" "invalid codepoint")
    | None => Throw (RpcError "INVALID_ARGUMENT" "invalid BytesLike value")
    end
  else Throw (RpcError "INVALID_ARGUMENT" "invalid BytesLike value").

Fixpoint strip_zeros (l : list ascii) : list ascii :=
  match l with
  | c :: r => if Ascii.eqb c "0"%char then strip_zeros r else l
  | [] => []
  end.

(** [ethers.formatEther] of a non-negative amount of wei. *)
Definition formatEther (wei : Z) : string :=
  let whole := wei / 1000000000000000000 in
  let frac := wei mod 1000000000000000000 in
  let digits := rev (strip_zeros (rev (list_ascii_of_string
                  (Text.slice 1 (JS.dec (1000000000000000000 + frac)))))) in
  JS.dec whole ++ "." ++
  match digits with
  | [] => "0"
  | _ => string_of_list_ascii digits
  end.

(** The identifier of a transaction or of a block: 32 bytes in hex. *)
Definition hash32 (id : Z) : string := "0x" ++ Text.hex_fixed 64 id "".

(** What [wallet.sendTransaction] resolves to. *)
Record TxResponse : Type := mkTxResponse {
  tr_tx : Tx;
  tr_outcome : SendOutcome
}.

Definition set_chain (txs' : list Tx) (receipts' : list Receipt)
  (outcomes' : list SendOutcome) (l : Ledger) : Ledger :=
  mkLedger (network l) (chainId l) (wallet_address l) txs' receipts' outcomes'.

Definition known (h : string) (l : Ledger) : bool :=
  existsb (fun t => String.eqb (tx_hash t) h) (txs l).

(** [wallet.sendTransaction({ to, value, data })]: the network takes the
    next outcome; an accepted transaction is visible from then on. *)
Definition sendTransaction (to : string) (value : Z) (data : string) : M TxResponse :=
  fun w =>
    let l := ledger w in
    match outcomes l with
    | [] => (Throw (RpcError "NETWORK_ERROR" "could not detect network"), w)
    | o :: rest =>
        let refused e :=
          (Throw e, set_ledger (set_chain (txs l) (receipts l) rest l) w) in
        let accepted id :=
          if known (hash32 id) l
          then refused (RpcError "UNKNOWN_ERROR" "already known")
          else
            let t := mkTx (hash32 id) (wallet_address l) to value data in
            (Ok (mkTxResponse t o),
             set_ledger (set_chain (txs l ++ [t]) (receipts l) rest l) w) in
        match o with
        | Rejected code message => refused (RpcError code message)
        | Mined id _ _ _ _ => accepted id
        | Dropped id _ _ => accepted id
        | Reverted id _ _ _ _ => accepted id
        end
    end.

(** [tx.wait()]. *)
Definition wait (r : TxResponse) : M Receipt :=
  fun w =>
    let l := ledger w in
    let t := tr_tx r in
    let receipt bn bh gu gp st :=
      mkReceipt (tx_hash t) bn (hash32 bh) gu gp st (tx_from t) (tx_to t) in
    match tr_outcome r with
    | Mined _ bn bh gu gp =>
        (Ok (receipt bn bh gu gp 1),
         set_ledger (set_chain (txs l) (receipts l ++ [receipt bn bh gu gp 1])
                       (outcomes l) l) w)
    | Reverted _ bn bh gu gp =>
        (Throw (RpcError "CALL_EXCEPTION" "transaction execution reverted"),
         set_ledger (set_chain (txs l) (receipts l ++ [receipt bn bh gu gp 0])
                       (outcomes l) l) w)
    | Dropped _ code message => (Throw (RpcError code message), w)
    | Rejected code message => (Throw (RpcError code message), w)
    end.

(** The transaction and the receipt the ledger holds under an identifier
    (hex digits of either case). *)
Definition tx_of (l : Ledger) (h : string) : option Tx :=
  find (fun t => String.eqb (tx_hash t) (lower h)) (txs l).
Definition receipt_of (l : Ledger) (h : string) : option Receipt :=
  find (fun r => String.eqb (rc_hash r) (lower h)) (receipts l).

(** [provider.getTransaction(hash)], [null] as [None]. *)
Definition getTransaction (h : string) : M (option Tx) :=
  fun w => (Ok (tx_of (ledger w) h), w).

(** [provider.getTransactionReceipt(hash)]. *)
Definition getTransactionReceipt (h : string) : M (option Receipt) :=
  fun w => (Ok (receipt_of (ledger w) h), w).

(** [(await provider.getNetwork()).chainId.toString()]. *)
Definition getNetworkChainId : M string :=
  fun w => (Ok (JS.dec (chainId (ledger w))), w).

Definition walletAddress : M string :=
  fun w => (Ok (wallet_address (ledger w)), w).

Definition configNetwork : M string :=
  fun w => (Ok (network (ledger w)), w).

End Ethers.

(* ================================================================== *)
(** ** blockchain.service.js: anchoring a hash and reading it back *)
(* ================================================================== *)

Module BlockchainService.

Record StoreProof : Type := mkStoreProof {
  sp_network : string;
  sp_chainId : string;
  sp_timestamp : JSval;
  sp_fromAddress : string;
  sp_toAddress : string;
  sp_gasUsed : string;
  sp_gasPrice : string;
  sp_transactionFee : string
}.

Record StoreResult : Type := mkStoreResult {
  transactionHash : string;
  blockNumber : Z;
  gasUsed : string;
  storedHash : string;
  metadata : list (string * JSON);   (* txData *)
  blockchainProof : StoreProof
}.

(** [/^[a-fA-F0-9]{64}$/.test(s)]. *)
Definition is_hex64 (s : string) : bool :=
  Nat.eqb (String.length s) 64 && Text.all_chars Text.is_hex s.

(** The payload: [{ timestamp, hash: `0x${cleanHash}`, ...metadata }]. *)
Definition txData (timestamp cleanHash : string) (metadata : JSval)
  : list (string * JSON) :=
  JS.spread_into
    (JS.literal [("timestamp", JStr timestamp); ("hash", JStr ("0x" ++ cleanHash))])
    metadata.

Definition rethrow {A} (prefix code : string) (error : JSError) : M A :=
  if is_BlockchainError error then throw error
  else throw (BlockchainError (prefix ++ error_message error) code 500).

Definition storeHashOnBlockchain (hash : string) (metadata : JSval)
  : M StoreResult :=
  try_catch
    ((if String.eqb hash "" then
        throw (BlockchainError "Invalid hash format" "INVALID_HASH" 400)
      else ret tt) ;;;
     let cleanHash := if Text.startsWith hash "0x" then Text.slice 2 hash else hash in
     (if negb (is_hex64 cleanHash) then
        throw (BlockchainError "Hash must be 64 hex characters" "INVALID_HASH_LENGTH" 400)
      else ret tt) ;;;
     timestamp <- now ;;
     let txData := txData timestamp cleanHash metadata in
     let dataString := JS.stringify (JObj txData) in
     bytes <- lift (Ethers.toUtf8Bytes dataString) ;;
     let hexData := Ethers.hexlify bytes in
     logger_info "Storing hash on blockchain" ;;;
     self <- Ethers.walletAddress ;;
     tx <- Ethers.sendTransaction self 0 hexData ;;
     logger_info "Hash storage transaction sent" ;;;
     receipt <- Ethers.wait tx ;;
     logger_info "Hash stored on blockchain successfully" ;;;
     net <- Ethers.configNetwork ;;
     chain <- Ethers.getNetworkChainId ;;
     ret (mkStoreResult (rc_hash receipt) (rc_blockNumber receipt)
            (JS.dec (rc_gasUsed receipt)) hash txData
            (mkStoreProof net chain (JS.lookup "timestamp" txData)
               (rc_from receipt) (rc_to receipt)
               (JS.dec (rc_gasUsed receipt))
               (match rc_gasPrice receipt with
                | Some p => JS.dec p
                | None => "0"
                end)
               (match rc_gasPrice receipt with
                | Some p =>
                    if negb (rc_gasUsed receipt =? 0) && negb (p =? 0)
                    then Ethers.formatEther (rc_gasUsed receipt * p)
                    else "0"
                | None => "0"
                end))))
    (fun error =>
       logger_error "Failed to store hash on blockchain" ;;;
       rethrow "Hash storage failed: " "HASH_STORAGE_ERROR" error).

Record RetrieveProof : Type := mkRetrieveProof {
  rp_network : string;
  rp_chainId : string;
  rp_confirmed : bool
}.

Record RetrieveResult : Type := mkRetrieveResult {
  r_transactionHash : string;
  r_blockNumber : Z;
  r_blockHash : string;
  r_gasUsed : string;
  r_status : string;
  r_from : string;
  r_to : string;
  r_timestamp : JSval;
  r_storedHash : JSval;
  r_metadata : JSON;          (* decodedData *)
  r_blockchainProof : RetrieveProof
}.

(** The [decodedData] and [storedHash] variables after the decoding block:
    both start as [null]; [decodedData] is assigned once the payload parses,
    [storedHash] once the [hash] property has been read. *)
Definition decodePayload (data : string) : M (JSON * JSval) :=
  if negb (String.eqb data "") && negb (String.eqb data "0x") then
    try_catch
      (dataString <- lift (Ethers.toUtf8String data) ;;
       decodedData <- match JSON_parse dataString with
                      | Some v => ret v
                      | None => throw (SyntaxError "Unexpected token in JSON")
                      end ;;
       match JS.get (Some decodedData) "hash" with
       | Some h => ret (decodedData, h)
       | None =>
           logger_warn "Could not decode transaction data" ;;;
           ret (decodedData, Some JNull)
       end)
      (fun decodeError =>
         logger_warn "Could not decode transaction data" ;;;
         ret (JNull, Some JNull))
  else ret (JNull, Some JNull).

(** [storedHash?.substring(0, 10)], evaluated for the final log line: only
    a string has the method. *)
Definition substring_of (v : JSval) : Res unit :=
  match v with
  | None | Some JNull | Some (JStr _) => Ok tt
  | Some _ => Throw (TypeError "storedHash?.substring is not a function")
  end.

Definition retrieveHashFromBlockchain (transactionHash : string)
  : M RetrieveResult :=
  try_catch
    ((if String.eqb transactionHash ""
         || negb (Ethers.isHexString transactionHash (Some 32%nat))
      then throw (BlockchainError "Invalid transaction hash format" "INVALID_TX_HASH" 400)
      else ret tt) ;;;
     logger_info "Retrieving hash from blockchain" ;;;
     tx <- Ethers.getTransaction transactionHash ;;
     match tx with
     | None => throw (BlockchainError "Transaction not found" "TX_NOT_FOUND" 404)
     | Some tx =>
         receipt <- Ethers.getTransactionReceipt transactionHash ;;
         match receipt with
         | None => throw (BlockchainError "Transaction not confirmed" "TX_NOT_CONFIRMED" 404)
         | Some receipt =>
             decoded <- decodePayload (tx_data tx) ;;
             let '(decodedData, storedHash) := decoded in
             net <- Ethers.configNetwork ;;
             chain <- Ethers.getNetworkChainId ;;
             let result :=
               mkRetrieveResult (rc_hash receipt) (rc_blockNumber receipt)
                 (rc_blockHash receipt) (JS.dec (rc_gasUsed receipt))
                 (if rc_status receipt =? 1 then "success" else "failed")
                 (tx_from tx) (tx_to tx)
                 (JS.or_else
                    (match decodedData with
                     | JObj o => JS.lookup "timestamp" o
                     | _ => None
                     end)
                    (Some JNull))
                 storedHash decodedData
                 (mkRetrieveProof net chain (rc_status receipt =? 1)) in
             lift (substring_of storedHash) ;;;
             logger_info "Hash retrieved from blockchain successfully" ;;;
             ret result
         end
     end)
    (fun error =>
       logger_error "Failed to retrieve hash from blockchain" ;;;
       rethrow "Hash retrieval failed: " "HASH_RETRIEVAL_ERROR" error).

End BlockchainService.

(* ================================================================== *)
(** ** The SQL statements of database.service.js *)
(* ================================================================== *)

(** Each statement is a function on the tables; a violated constraint makes
    it fail with the server's message and leaves the tables as they were.
    Columns the service never writes or reads (defaults such as
    [created_date]) are not represented, text is compared exactly, and
    [ORDER BY ... DESC] is a stable sort. *)
Module Sql.

Definition Statement (A : Type) : Type := Database -> Res A * Database.

(** A JavaScript value as a query parameter. *)
Definition param (v : JSval) : SqlVal :=
  match v with
  | None | Some JNull => SqlNull
  | Some (JStr s) => SqlStr s
  | Some (JNum n) => SqlNum n
  | Some (JFrac m e) => SqlFloat m e
  | Some (JBool b) => SqlBit b
  | Some j => SqlJson j
  end.

Definition failure {A} (message : string) : Res A := Throw (RequestError message).

(** Conversion of a parameter to a text column. *)
Definition as_text (v : SqlVal) : Res (option string) :=
  match v with
  | SqlNull => Ok None
  | SqlStr s => Ok (Some s)
  | SqlNum n => Ok (Some (JS.dec n))
  | SqlBit b => Ok (Some (if b then "1" else "0"))
  | SqlFloat m e => Ok (Some (JS.decimal m (Z.pos e)))
  | SqlDate _ => failure "Operand type clash: datetime2 is incompatible with nvarchar"
  | SqlJson _ => failure "Validation failed for parameter. Invalid string."
  end.

(** Conversion of a parameter to an integer column. *)
Definition as_int (v : SqlVal) : Res (option Z) :=
  match v with
  | SqlNull => Ok None
  | SqlNum n => Ok (Some n)
  | SqlBit b => Ok (Some (if b then 1 else 0))
  | SqlFloat m e => Ok (Some (Z.quot m (10 ^ Z.pos e)))
  | SqlStr s =>
      match Parse.integer s with
      | Some (n, EmptyString) => Ok (Some n)
      | _ => failure "Error converting data type nvarchar to bigint."
      end
  | SqlDate _ => failure "Operand type clash: datetime2 is incompatible with bigint"
  | SqlJson _ => failure "Validation failed for parameter. Invalid number."
  end.

Definition not_null {A} (column table : string) (v : option A) : Res A :=
  match v with
  | Some a => Ok a
  | None =>
      failure ("Cannot insert the value NULL into column '" ++ column ++ "', table '"
               ++ table ++ "'; column does not allow nulls. INSERT fails.")
  end.

Definition rbind {A B} (r : Res A) (k : A -> Res B) : Res B :=
  match r with
  | Ok a => k a
  | Throw e => Throw e
  end.

Definition text_column (column table : string) (v : SqlVal) : Res string :=
  rbind (as_text v) (not_null column table).

Definition unique_violation (table : string) : string :=
  "Violation of UNIQUE KEY constraint. Cannot insert duplicate key in object '"
  ++ table ++ "'.".
Definition primary_key_violation (table : string) : string :=
  "Violation of PRIMARY KEY constraint. Cannot insert duplicate key in object '"
  ++ table ++ "'.".
Definition foreign_key_violation (table : string) : string :=
  "The INSERT statement conflicted with the FOREIGN KEY constraint on table '"
  ++ table ++ "'.".

Definition opt_eqb (a b : option string) : bool :=
  match a, b with
  | Some x, Some y => String.eqb x y
  | None, None => true
  | _, _ => false
  end.

(** The database with one table replaced. *)
Definition with_farmers (l : list FarmerRow) (d : Database) : Database :=
  mkDatabase l (agricultural_data d) (blockchain_transactions d) (uploaded_files d)
    (verification_logs d) (system_logs d) (next_data_id d) (next_file_id d)
    (next_log_id d) (faults d).
Definition with_agricultural_data (l : list AgriDataRow) (n : Z) (d : Database) : Database :=
  mkDatabase (farmers d) l (blockchain_transactions d) (uploaded_files d)
    (verification_logs d) (system_logs d) n (next_file_id d) (next_log_id d) (faults d).
Definition with_blockchain_transactions (l : list ChainTxRow) (d : Database) : Database :=
  mkDatabase (farmers d) (agricultural_data d) l (uploaded_files d)
    (verification_logs d) (system_logs d) (next_data_id d) (next_file_id d)
    (next_log_id d) (faults d).
Definition with_uploaded_files (l : list FileRow) (n : Z) (d : Database) : Database :=
  mkDatabase (farmers d) (agricultural_data d) (blockchain_transactions d) l
    (verification_logs d) (system_logs d) (next_data_id d) n (next_log_id d) (faults d).
Definition with_verification_logs (l : list VerificationRow) (n : Z) (d : Database) : Database :=
  mkDatabase (farmers d) (agricultural_data d) (blockchain_transactions d)
    (uploaded_files d) l (system_logs d) (next_data_id d) (next_file_id d) n (faults d).
Definition with_system_logs (l : list SystemLogRow) (d : Database) : Database :=
  mkDatabase (farmers d) (agricultural_data d) (blockchain_transactions d)
    (uploaded_files d) (verification_logs d) l (next_data_id d) (next_file_id d)
    (next_log_id d) (faults d).
Definition with_faults (l : list (option string)) (d : Database) : Database :=
  mkDatabase (farmers d) (agricultural_data d) (blockchain_transactions d)
    (uploaded_files d) (verification_logs d) (system_logs d) (next_data_id d)
    (next_file_id d) (next_log_id d) l.

Definition has_farmer (id : string) (d : Database) : bool :=
  existsb (fun f => String.eqb (f_farmer_id f) id) (farmers d).
Definition has_data (id : Z) (d : Database) : bool :=
  existsb (fun r => ad_data_id r =? id) (agricultural_data d).

(** [SELECT farmer_id FROM farmers WHERE farmer_id = @farmerId]. *)
Definition select_farmer (farmerId : SqlVal) : Statement (list string) :=
  fun d =>
    match as_text farmerId with
    | Ok (Some id) =>
        (Ok (map f_farmer_id
               (filter (fun f => String.eqb (f_farmer_id f) id) (farmers d))), d)
    | Ok None => (Ok [], d)
    | Throw e => (Throw e, d)
    end.

Record FarmerParams : Type := mkFarmerParams {
  p_farmerId : SqlVal; p_fullName : SqlVal; p_email : SqlVal; p_phone : SqlVal;
  p_address : SqlVal; p_province : SqlVal; p_district : SqlVal; p_ward : SqlVal;
  p_certificationLevel : SqlVal; p_walletAddress : SqlVal
}.

(** [INSERT INTO farmers (...)]: [farmer_id] is the primary key, [email] is
    unique (a NULL counts as a value), [full_name] is required. *)
Definition insert_farmer (p : FarmerParams) : Statement unit :=
  fun d =>
    let row :=
      rbind (text_column "farmer_id" "farmers" (p_farmerId p)) (fun id =>
      rbind (text_column "full_name" "farmers" (p_fullName p)) (fun name =>
      rbind (as_text (p_email p)) (fun email =>
      rbind (as_text (p_phone p)) (fun phone =>
      rbind (as_text (p_address p)) (fun address =>
      rbind (as_text (p_province p)) (fun province =>
      rbind (as_text (p_district p)) (fun district =>
      rbind (as_text (p_ward p)) (fun ward =>
      rbind (as_text (p_certificationLevel p)) (fun level =>
      rbind (as_text (p_walletAddress p)) (fun wallet =>
      Ok (mkFarmerRow id name email phone address province district ward level
            wallet))))))))))) in
    match row with
    | Throw e => (Throw e, d)
    | Ok r =>
        if has_farmer (f_farmer_id r) d
        then (failure (primary_key_violation "dbo.farmers"), d)
        else if existsb (fun f => opt_eqb (f_email f) (f_email r)) (farmers d)
        then (failure (unique_violation "dbo.farmers"), d)
        else (Ok tt, with_farmers (farmers d ++ [r]) d)
    end.

Record AgriParams : Type := mkAgriParams {
  p_FarmerId : SqlVal; p_ProductType : SqlVal; p_Location : SqlVal;
  p_HarvestDate : JSDate; p_Quantity : SqlVal; p_Quality : SqlVal;
  p_Notes : SqlVal; p_DataHash : SqlVal; p_TransactionHash : SqlVal;
  p_BlockNumber : SqlVal; p_HasFiles : bool; p_FileCount : Z
}.

(** [EXEC sp_StoreAgriData]: the insert into [agricultural_data] runs in the
    procedure's own transaction, committed before the procedure returns the
    new row. *)
Definition sp_StoreAgriData (p : AgriParams) : Statement AgriDataRow :=
  fun d =>
    let id := next_data_id d in
    let row :=
      rbind (text_column "farmer_id" "agricultural_data" (p_FarmerId p)) (fun farmer =>
      rbind (text_column "product_type" "agricultural_data" (p_ProductType p)) (fun product =>
      rbind (text_column "location" "agricultural_data" (p_Location p)) (fun location =>
      rbind (as_text (p_Quality p)) (fun quality =>
      rbind (as_text (p_Notes p)) (fun notes =>
      rbind (text_column "data_hash" "agricultural_data" (p_DataHash p)) (fun dataHash =>
      rbind (text_column "transaction_hash" "agricultural_data" (p_TransactionHash p)) (fun txHash =>
      rbind (as_int (p_BlockNumber p)) (fun block =>
      Ok (mkAgriDataRow id farmer product location (p_HarvestDate p) (p_Quantity p)
            quality notes dataHash txHash block (p_HasFiles p) (p_FileCount p)))))))))) in
    match row with
    | Throw e => (Throw e, d)
    | Ok r =>
        if has_farmer (ad_farmer_id r) d
        then (Ok r, with_agricultural_data (agricultural_data d ++ [r]) (id + 1) d)
        else (failure (foreign_key_violation "dbo.farmers"), d)
    end.

Record ChainTxParams : Type := mkChainTxParams {
  p_transactionHash : SqlVal; p_blockNumber : SqlVal; p_blockHash : SqlVal;
  p_fromAddress : SqlVal; p_toAddress : SqlVal; p_gasUsed : SqlVal;
  p_gasPrice : SqlVal; p_transactionFee : SqlVal; p_networkName : SqlVal;
  p_networkId : SqlVal; p_status : SqlVal; p_transactionDate : JSDate
}.

(** [INSERT INTO blockchain_transactions (...)]: [transaction_hash] is
    unique. *)
Definition insert_blockchain_transaction (p : ChainTxParams) : Statement unit :=
  fun d =>
    let row :=
      rbind (text_column "transaction_hash" "blockchain_transactions" (p_transactionHash p)) (fun txHash =>
      rbind (as_int (p_blockNumber p)) (fun block =>
      rbind (as_text (p_blockHash p)) (fun blockHash =>
      rbind (text_column "from_address" "blockchain_transactions" (p_fromAddress p)) (fun from =>
      rbind (as_text (p_toAddress p)) (fun to =>
      rbind (as_text (p_networkName p)) (fun net =>
      rbind (as_text (p_status p)) (fun status =>
      Ok (mkChainTxRow txHash block blockHash from to (p_gasUsed p) (p_gasPrice p)
            (p_transactionFee p) net (p_networkId p) status (p_transactionDate p))))))))) in
    match row with
    | Throw e => (Throw e, d)
    | Ok r =>
        if existsb (fun t => String.eqb (bt_transaction_hash t) (bt_transaction_hash r))
             (blockchain_transactions d)
        then (failure (unique_violation "dbo.blockchain_transactions"), d)
        else (Ok tt, with_blockchain_transactions (blockchain_transactions d ++ [r]) d)
    end.

(** [INSERT INTO uploaded_files (...)]: [data_id] references
    [agricultural_data]. *)
Definition insert_uploaded_file (dataId : Z) (originalName storedFilename filePath : string)
  (fileSize : Z) (mimeType fileHash uploadDate : string) : Statement unit :=
  fun d =>
    if has_data dataId d then
      (Ok tt,
       with_uploaded_files
         (uploaded_files d ++
            [mkFileRow (next_file_id d) dataId originalName storedFilename filePath
               fileSize mimeType fileHash uploadDate true])
         (next_file_id d + 1) d)
    else (failure (foreign_key_violation "dbo.agricultural_data"), d).

Record VerificationParams : Type := mkVerificationParams {
  p_dataId : Z; p_vTransactionHash : SqlVal; p_verificationDate : string;
  p_isValid : bool; p_verificationMethod : SqlVal; p_storedHash : SqlVal;
  p_currentHash : SqlVal; p_clientIp : SqlVal; p_userAgent : SqlVal
}.

(** [INSERT INTO verification_logs (...)]. *)
Definition insert_verification_log (p : VerificationParams) : Statement unit :=
  fun d =>
    let row :=
      rbind (text_column "transaction_hash" "verification_logs" (p_vTransactionHash p)) (fun txHash =>
      rbind (text_column "verification_method" "verification_logs" (p_verificationMethod p)) (fun method =>
      rbind (text_column "stored_hash" "verification_logs" (p_storedHash p)) (fun stored =>
      rbind (text_column "current_hash" "verification_logs" (p_currentHash p)) (fun current =>
      rbind (as_text (p_clientIp p)) (fun ip =>
      rbind (as_text (p_userAgent p)) (fun agent =>
      Ok (mkVerificationRow (next_log_id d) (p_dataId p) txHash (p_verificationDate p)
            method (p_isValid p) stored current ip agent))))))) in
    match row with
    | Throw e => (Throw e, d)
    | Ok r =>
        if has_data (p_dataId p) d
        then (Ok tt, with_verification_logs (verification_logs d ++ [r]) (next_log_id d + 1) d)
        else (failure (foreign_key_violation "dbo.agricultural_data"), d)
    end.

(** [INSERT INTO system_logs (...)]. *)
Definition insert_system_log (level category message details timestamp : string)
  : Statement unit :=
  fun d =>
    (Ok tt,
     with_system_logs
       (system_logs d ++ [mkSystemLogRow level category message details timestamp]) d).

(** A row of [agricultural_data] with its LEFT JOINs. *)
Record JoinedRow : Type := mkJoinedRow {
  j_data : AgriDataRow;
  j_farmer : option FarmerRow;
  j_chain : option ChainTxRow
}.

Definition join_row (d : Database) (r : AgriDataRow) : JoinedRow :=
  mkJoinedRow r
    (find (fun f => String.eqb (f_farmer_id f) (ad_farmer_id r)) (farmers d))
    (find (fun t => String.eqb (bt_transaction_hash t) (ad_transaction_hash r))
       (blockchain_transactions d)).

(** [SELECT ... WHERE ad.data_id = @identifier]. *)
Definition select_by_id (identifier : SqlVal) : Statement (list JoinedRow) :=
  fun d =>
    match as_int identifier with
    | Ok (Some id) =>
        (Ok (map (join_row d)
               (filter (fun r => ad_data_id r =? id) (agricultural_data d))), d)
    | Ok None => (Ok [], d)
    | Throw e => (Throw e, d)
    end.

(** [SELECT ... WHERE ad.transaction_hash = @identifier OR ad.data_hash = @identifier]. *)
Definition select_by_hash (identifier : SqlVal) : Statement (list JoinedRow) :=
  fun d =>
    match as_text identifier with
    | Ok (Some h) =>
        (Ok (map (join_row d)
               (filter (fun r => String.eqb (ad_transaction_hash r) h
                                 || String.eqb (ad_data_hash r) h)
                  (agricultural_data d))), d)
    | Ok None => (Ok [], d)
    | Throw e => (Throw e, d)
    end.

Fixpoint insert_desc {A} (key : A -> string) (x : A) (l : list A) : list A :=
  match l with
  | [] => [x]
  | y :: r => if String.ltb (key x) (key y) then y :: insert_desc key x r else x :: l
  end.

(** [ORDER BY key DESC]. *)
Definition order_desc {A} (key : A -> string) (l : list A) : list A :=
  fold_right (insert_desc key) [] l.

(** [SELECT ... FROM uploaded_files WHERE data_id = @dataId AND is_active = 1
     ORDER BY upload_date DESC]. *)
Definition select_files (dataId : Z) : Statement (list FileRow) :=
  fun d =>
    (Ok (order_desc uf_upload_date
           (filter (fun f => (uf_data_id f =? dataId) && uf_is_active f)
              (uploaded_files d))), d).

(** [SELECT ... FROM verification_logs WHERE data_id = @dataId
     ORDER BY verification_date DESC]. *)
Definition select_verification_logs (dataId : Z) : Statement (list VerificationRow) :=
  fun d =>
    (Ok (order_desc vl_verification_date
           (filter (fun v => vl_data_id v =? dataId) (verification_logs d))), d).

(** A request sent to the server: the next fault, if one is due, makes it
    fail before the statement runs. *)
Definition request {A} (stmt : Statement A) : M A :=
  fun w =>
    let d := db w in
    match faults d with
    | Some message :: rest =>
        (Throw (RequestError message), set_db (with_faults rest d) w)
    | None :: rest =>
        let '(r, d') := stmt (with_faults rest d) in (r, set_db d' w)
    | [] =>
        let '(r, d') := stmt d in (r, set_db d' w)
    end.

Definition console_log := log_line "log".
Definition console_error := log_line "error".

(** [executeQuery] of config/database.js. *)
Definition executeQuery {A} (stmt : Statement A) : M A :=
  try_catch (request stmt)
    (fun error =>
       console_error ("Query execution error: " ++ error_message error) ;;;
       throw error).

(** [executeProcedure] of config/database.js. *)
Definition executeProcedure {A} (stmt : Statement A) : M A :=
  try_catch (request stmt)
    (fun error =>
       console_error ("Procedure execution error: " ++ error_message error) ;;;
       throw error).

End Sql.

(* ================================================================== *)
(** ** database.service.js *)
(* ================================================================== *)

(** [v.k], throwing the TypeError of a read on [null] or [undefined]. *)
Definition prop (v : JSval) (k : string) : M JSval :=
  match JS.get v k with
  | Some x => ret x
  | None =>
      throw (TypeError ("Cannot read properties of "
                        ++ match v with None => "undefined" | Some _ => "null" end
                        ++ " (reading '" ++ k ++ "')"))
  end.

(** A default parameter value: [v = {}]. *)
Definition default_object (v : JSval) : JSval :=
  match v with
  | None => Some (JObj [])
  | Some _ => v
  end.

(** An object literal whose property values are read from other objects; a
    property whose value is [undefined] does not show in any use the
    services make of these literals and is left out. *)
Definition object_of (props : list (string * JSval)) : list (string * JSON) :=
  fold_left (fun acc kv =>
               match snd kv with
               | Some v => JS.obj_set acc (fst kv) v
               | None => acc
               end) props [].

Module DatabaseService.

Import Sql.

Definition ensureFarmerExists (farmerId farmerInfo : JSval) : M unit :=
  let farmerInfo := default_object farmerInfo in
  try_catch
    (checkResult <- executeQuery (select_farmer (param farmerId)) ;;
     if Nat.eqb (List.length checkResult) 0 then
       fullName <- prop farmerInfo "fullName" ;;
       email <- prop farmerInfo "email" ;;
       phone <- prop farmerInfo "phone" ;;
       address <- prop farmerInfo "address" ;;
       province <- prop farmerInfo "province" ;;
       district <- prop farmerInfo "district" ;;
       ward <- prop farmerInfo "ward" ;;
       certificationLevel <- prop farmerInfo "certificationLevel" ;;
       walletAddress <- prop farmerInfo "walletAddress" ;;
       let null := Some JNull in
       executeQuery
         (insert_farmer
            (mkFarmerParams (param farmerId)
               (param (JS.or_else fullName
                         (Some (JStr ("Farmer " ++ JS.to_string farmerId)))))
               (param (JS.or_else email null))
               (param (JS.or_else phone null))
               (param (JS.or_else address null))
               (param (JS.or_else province null))
               (param (JS.or_else district null))
               (param (JS.or_else ward null))
               (param (JS.or_else certificationLevel (Some (JStr "Standard"))))
               (param (JS.or_else walletAddress null)))) ;;;
       console_log ("Farmer record created: " ++ JS.to_string farmerId)
     else ret tt)
    (fun error =>
       console_error ("Error ensuring farmer exists: " ++ error_message error) ;;;
       throw error).

Definition storeBlockchainTransaction (blockchainData : JSval) : M unit :=
  try_catch
    (transactionHash <- prop blockchainData "transactionHash" ;;
     blockNumber <- prop blockchainData "blockNumber" ;;
     blockHash <- prop blockchainData "blockHash" ;;
     from <- prop blockchainData "from" ;;
     fromAddress <- prop blockchainData "fromAddress" ;;
     to <- prop blockchainData "to" ;;
     toAddress <- prop blockchainData "toAddress" ;;
     gasUsed <- prop blockchainData "gasUsed" ;;
     gasPrice <- prop blockchainData "gasPrice" ;;
     transactionFee <- prop blockchainData "transactionFee" ;;
     networkName <- prop blockchainData "networkName" ;;
     networkId <- prop blockchainData "networkId" ;;
     status <- prop blockchainData "status" ;;
     transactionDate <- now ;;
     let null := Some JNull in
     executeQuery
       (insert_blockchain_transaction
          (mkChainTxParams (param transactionHash)
             (param (JS.or_else blockNumber null))
             (param (JS.or_else blockHash null))
             (param (JS.or_else from fromAddress))
             (param (JS.or_else to toAddress))
             (param (JS.or_else gasUsed null))
             (param (JS.or_else gasPrice null))
             (param (JS.or_else transactionFee null))
             (param (JS.or_else networkName (Some (JStr "amoy"))))
             (param (JS.or_else networkId (Some (JNum 80002))))
             (param (JS.or_else status (Some (JStr "Confirmed"))))
             (DateAt transactionDate))) ;;;
     console_log "Blockchain transaction metadata stored")
    (fun error =>
       (* Ignore duplicate key errors *)
       if negb (Text.includes (error_message error) "duplicate")
          && negb (Text.includes (error_message error) "UNIQUE")
       then
         console_error ("Error storing blockchain transaction: " ++ error_message error) ;;;
         throw error
       else ret tt).

(** The [for (const file of files)] loop of [storeFileMetadata]: one
    request per file, none inside a transaction. *)
Fixpoint storeFileRows (dataId : Z) (fs : list UploadedFile) : M unit :=
  match fs with
  | [] => ret tt
  | file :: rest =>
      uploadDate <- now ;;
      request
        (insert_uploaded_file dataId (originalname file) (filename file) (path file)
           (fsize file) (mimetype file)
           (JS.to_string (JS.or_else (fhash file) (Some (JStr ""))))
           uploadDate) ;;;
      storeFileRows dataId rest
  end.

Definition storeFileMetadata (dataId : Z) (fs : list UploadedFile) : M unit :=
  try_catch
    (console_log "Storing metadata for files..." ;;;
     storeFileRows dataId fs ;;;
     console_log "File metadata stored successfully")
    (fun error =>
       console_error ("Error storing file metadata: " ++ error_message error) ;;;
       throw error).

Definition logOperation (operation : string) (details : JSON) : M unit :=
  try_catch
    (let text := JS.stringify details in
     timestamp <- now ;;
     executeQuery (insert_system_log "INFO" "API" operation text timestamp))
    (fun error =>
       console_error ("Error logging operation: " ++ error_message error)).

Record Stored : Type := mkStored {
  dataId : Z;
  stored_row : AgriDataRow     (* ...result.recordset[0] *)
}.

Definition storeAgriData (agriData blockchainData : JSval) (fs : list UploadedFile)
  : M Stored :=
  try_catch
    (console_log "Storing agricultural data to database..." ;;;
     (* Ensure farmer exists first *)
     farmerId <- prop agriData "farmerId" ;;
     farmerInfo <- prop agriData "farmerInfo" ;;
     ensureFarmerExists farmerId (JS.or_else farmerInfo (Some (JObj []))) ;;;
     (* Store agricultural data using stored procedure *)
     productType <- prop agriData "productType" ;;
     location <- prop agriData "location" ;;
     harvestDate <- prop agriData "harvestDate" ;;
     quantity <- prop agriData "quantity" ;;
     quality <- prop agriData "quality" ;;
     notes <- prop agriData "notes" ;;
     dataHash <- prop agriData "hash" ;;
     transactionHash <- prop blockchainData "transactionHash" ;;
     blockNumber <- prop blockchainData "blockNumber" ;;
     let null := Some JNull in
     let count := Z.of_nat (List.length fs) in
     row <- executeProcedure
              (sp_StoreAgriData
                 (mkAgriParams (param farmerId) (param productType) (param location)
                    (DateOf harvestDate)
                    (param (JS.or_else quantity null))
                    (param (JS.or_else quality (Some (JStr "Standard"))))
                    (param (JS.or_else notes null))
                    (param dataHash) (param transactionHash)
                    (param (JS.or_else blockNumber null))
                    (0 <? count) count)) ;;
     let dataId := ad_data_id row in
     (* Store blockchain transaction details *)
     storeBlockchainTransaction blockchainData ;;;
     (* Store file metadata if files exist *)
     (if 0 <? count then storeFileMetadata dataId fs else ret tt) ;;;
     (* Log the operation *)
     logOperation "STORE_DATA"
       (JObj (object_of [("dataId", Some (JNum dataId)); ("farmerId", farmerId);
                         ("transactionHash", transactionHash);
                         ("fileCount", Some (JNum count))])) ;;;
     console_log ("Agricultural data stored successfully: " ++ JS.dec dataId) ;;;
     ret (mkStored dataId row))
    (fun error =>
       console_error ("Error storing agricultural data: " ++ error_message error) ;;;
       throw error).

Definition getFilesByDataId (dataId : Z) : M (list FileRow) :=
  try_catch (executeQuery (select_files dataId))
    (fun error =>
       console_error ("Error getting files by data ID: " ++ error_message error) ;;;
       ret []).

Definition getVerificationLogs (dataId : Z) : M (list VerificationRow) :=
  try_catch (executeQuery (select_verification_logs dataId))
    (fun error =>
       console_error ("Error getting verification logs: " ++ error_message error) ;;;
       ret []).

(** The first row of the record set, with the [files] and
    [verificationHistory] properties added to it. *)
Record Retrieved : Type := mkRetrieved {
  record : JoinedRow;
  files : option (list FileRow);          (* [undefined] unless [has_files] *)
  verificationHistory : list VerificationRow
}.

Definition data_id (r : Retrieved) : Z := ad_data_id (j_data (record r)).
Definition data_hash (r : Retrieved) : string := ad_data_hash (j_data (record r)).
Definition transaction_hash (r : Retrieved) : string :=
  ad_transaction_hash (j_data (record r)).
Definition block_number (r : Retrieved) : option Z :=
  ad_block_number (j_data (record r)).

Definition retrieveAgriData (identifier : JSval) (type : string) : M Retrieved :=
  try_catch
    (console_log ("Retrieving agricultural data by " ++ type ++ ": "
                  ++ JS.to_string identifier) ;;;
     recordset <- executeQuery
                    (if String.eqb type "id" then select_by_id (param identifier)
                     else select_by_hash (param identifier)) ;;
     match recordset with
     | [] => throw (Error ("No data found for " ++ type ++ ": " ++ JS.to_string identifier))
     | row :: _ =>
         (* Get associated files if any *)
         attached <- (if ad_has_files (j_data row)
                      then l <- getFilesByDataId (ad_data_id (j_data row)) ;; ret (Some l)
                      else ret None) ;;
         (* Get verification logs *)
         history <- getVerificationLogs (ad_data_id (j_data row)) ;;
         console_log "Agricultural data retrieved successfully" ;;;
         ret (mkRetrieved row attached history)
     end)
    (fun error =>
       console_error ("Error retrieving agricultural data: " ++ error_message error) ;;;
       throw error).

Definition zeroHash : string :=
  "0x0000000000000000000000000000000000000000000000000000000000000000".

Definition logVerification (dataId : Z) (isValid : bool) (method : string)
  (details : JSval) : M unit :=
  let details := default_object details in
  try_catch
    (transactionHash <- prop details "transactionHash" ;;
     verificationDate <- now ;;
     storedHash <- prop details "storedHash" ;;
     currentHash <- prop details "currentHash" ;;
     ip <- prop details "ip" ;;
     userAgent <- prop details "userAgent" ;;
     let null := Some JNull in
     executeQuery
       (insert_verification_log
          (mkVerificationParams dataId
             (param (JS.or_else transactionHash (Some (JStr zeroHash))))
             verificationDate isValid (SqlStr method)
             (param (JS.or_else storedHash (Some (JStr zeroHash))))
             (param (JS.or_else currentHash (Some (JStr zeroHash))))
             (param (JS.or_else ip null))
             (param (JS.or_else userAgent null)))) ;;;
     console_log "Verification logged successfully")
    (fun error =>
       console_error ("Error logging verification: " ++ error_message error)).

End DatabaseService.

(* ================================================================== *)
(** ** agrichain.service.js *)
(* ================================================================== *)

Module AgriChainService.

Record StoreOutcome : Type := mkStoreOutcome {
  so_dataId : Z;
  so_dataHash : string;
  so_originalData : list (string * JSON);
  so_transactionHash : string;
  so_blockNumber : Z;
  so_network : string;
  so_chainId : string;
  so_timestamp : JSval;
  so_filesStored : Z;
  so_gasUsed : string;
  so_dataSize : Z;
  so_fieldsProcessed : list string
}.

Definition storeAgriData (agriData : JSval) (fs : list UploadedFile)
  : M StoreOutcome :=
  try_catch
    (farmerId <- prop agriData "farmerId" ;;
     productType <- prop agriData "productType" ;;
     logger_info "Starting agricultural data storage process" ;;;
     (* Step 1: Create hash from agricultural data *)
     hashResult <- HashService.createAgriDataHash agriData ;;
     (* Step 2: Store hash on blockchain *)
     harvestDate <- prop agriData "harvestDate" ;;
     blockchainResult <-
       BlockchainService.storeHashOnBlockchain (HashService.hash hashResult)
         (Some (JObj (object_of
            [("farmerId", farmerId); ("productType", productType);
             ("harvestDate", harvestDate);
             ("dataSize", Some (JNum (HashService.size hashResult)));
             ("fieldsCount",
              Some (JNum (Z.of_nat (List.length (HashService.fields hashResult)))))]))) ;;
     (* Step 3: Store data and metadata in database *)
     let proof := BlockchainService.blockchainProof blockchainResult in
     databaseResult <-
       DatabaseService.storeAgriData
         (Some (JObj (JS.obj_set (JS.spread_into [] agriData) "hash"
                        (JStr (HashService.hash hashResult)))))
         (Some (JObj (JS.literal
            [("transactionHash", JStr (BlockchainService.transactionHash blockchainResult));
             ("blockNumber", JNum (BlockchainService.blockNumber blockchainResult));
             ("from", JStr (BlockchainService.sp_fromAddress proof));
             ("to", JStr (BlockchainService.sp_toAddress proof));
             ("gasUsed", JStr (BlockchainService.sp_gasUsed proof));
             ("gasPrice", JStr (BlockchainService.sp_gasPrice proof));
             ("transactionFee", JStr (BlockchainService.sp_transactionFee proof));
             ("networkName", JStr (BlockchainService.sp_network proof));
             ("networkId", JStr (BlockchainService.sp_chainId proof));
             ("status", JStr "Confirmed")])))
         fs ;;
     let result :=
       mkStoreOutcome (DatabaseService.dataId databaseResult)
         (HashService.hash hashResult) (HashService.data hashResult)
         (BlockchainService.transactionHash blockchainResult)
         (BlockchainService.blockNumber blockchainResult)
         (BlockchainService.sp_network proof) (BlockchainService.sp_chainId proof)
         (BlockchainService.sp_timestamp proof)
         (Z.of_nat (List.length fs))
         (BlockchainService.gasUsed blockchainResult)
         (HashService.size hashResult) (HashService.fields hashResult) in
     logger_info "Agricultural data stored successfully" ;;;
     ret result)
    (fun error =>
       logger_error "Failed to store agricultural data" ;;;
       throw error).

Record Verification : Type := mkVerification {
  v_dataId : Z;
  isValid : bool;
  v_storedHash : string;
  v_currentHash : string;
  v_verificationDate : string;
  v_current : list (string * JSON);
  v_fieldsChecked : list string;
  v_dataSize : Z;
  v_transactionHash : string;
  v_blockNumber : option Z;
  status : string;
  message : string
}.

Definition verifyAgriDataIntegrity (originalData identifier : JSval) (type : string)
  (verificationDetails : JSval) : M Verification :=
  let verificationDetails := default_object verificationDetails in
  try_catch
    (logger_info "Starting data integrity verification" ;;;
     (* Get stored data from database *)
     storedData <- DatabaseService.retrieveAgriData identifier type ;;
     (* Generate hash from current data *)
     currentHashResult <- HashService.createAgriDataHash originalData ;;
     (* Compare with stored hash *)
     isValid <- HashService.verifyHash
                  (Some (JObj (HashService.data currentHashResult)))
                  (Some (JStr (DatabaseService.data_hash storedData))) ;;
     (* Log verification attempt *)
     DatabaseService.logVerification (DatabaseService.data_id storedData) isValid
       "hash_comparison"
       (Some (JObj
          (JS.obj_set
             (JS.obj_set
                (JS.obj_set
                   (JS.obj_set (JS.spread_into [] verificationDetails)
                      "transactionHash"
                      (JStr (DatabaseService.transaction_hash storedData)))
                   "currentHash" (JStr (HashService.hash currentHashResult)))
                "storedHash" (JStr (DatabaseService.data_hash storedData)))
             "comparisonMethod" (JStr "SHA-256")))) ;;;
     verificationDate <- now ;;
     let result :=
       mkVerification (DatabaseService.data_id storedData) isValid
         (DatabaseService.data_hash storedData)
         (HashService.hash currentHashResult) verificationDate
         (HashService.data currentHashResult)
         (HashService.fields currentHashResult)
         (HashService.size currentHashResult)
         (DatabaseService.transaction_hash storedData)
         (DatabaseService.block_number storedData)
         (if isValid then "VERIFIED" else "TAMPERED")
         (if isValid then "Data integrity verified successfully"
          else "Data has been modified - integrity check failed") in
     logger_info "Data integrity verification completed" ;;;
     ret result)
    (fun error =>
       logger_error "Data integrity verification failed" ;;;
       throw error).

End AgriChainService.

(* ================================================================== *)
(** ** Vocabulary of the properties *)
(* ================================================================== *)

(** The value a computation returned, if it returned. *)
Definition returned {A} (r : Res A) : option A :=
  match r with
  | Ok a => Some a
  | Throw _ => None
  end.

(** A required field counts as missing when its value is falsy: the
    property is absent, or it is [null], [false], [0] or the empty string. *)
Definition missing (o : list (string * JSON)) (field : string) : bool :=
  negb (JS.truthy (JS.lookup field o)).

(** The text whose SHA-256 is the combined hash: the JSON text of the data
    followed by the hex digests of the files, in order. *)
Definition combinedContent (data : JSON) (contents : list string) : string :=
  JS.stringify data ++ Text.concat_all (map SHA256.hex contents).

(** The content of the file at a path. *)
Definition content_at (w : World) (p : string) : option string :=
  option_map snd (find (fun e => String.eqb (fst e) p) (disk w)).

(** The combined digest as the specification words it: the hash of the
    record digest followed by the per-file digests, in order. *)
Definition spec_combinedDigest (recordDigest : string) (fileDigests : list string)
  : string :=
  "0x" ++ SHA256.hex (recordDigest ++ Text.concat_all fileDigests).

(** A hash without its [0x] prefix. *)
Definition without_prefix (hash : string) : string :=
  if Text.startsWith hash "0x" then Text.slice 2 hash else hash.

(** Keys that occur once each. *)
Fixpoint distinct (l : list string) : bool :=
  match l with
  | [] => true
  | k :: r => negb (existsb (String.eqb k) r) && distinct r
  end.

(** [Number.isSafeInteger]. *)
Definition safe_integer (n : Z) : bool := Z.abs n <=? 9007199254740991.

(** Keys in own-key order: the array indices first, ascending from above
    [lo], then the other keys, each once. *)
Fixpoint own_key_order (lo : Z) (ks : list string) : bool :=
  match ks with
  | [] => true
  | k :: r =>
      match JS.array_index k with
      | Some i => (lo <? i) && own_key_order i r
      | None =>
          forallb (fun k' => match JS.array_index k' with
                             | Some _ => false
                             | None => true
                             end) r
          && distinct ks
      end
  end.

(** A value as JavaScript holds it: a number with decimal places in lowest
    terms, the properties of an object in own-key order. *)
Fixpoint genuine (v : JSON) : bool :=
  match v with
  | JFrac m e => negb (m mod 10 =? 0)
  | JArr l => forallb genuine l
  | JObj o => own_key_order (-1) (map fst o) && forallb (fun kv => genuine (snd kv)) o
  | _ => true
  end.

(** The value of the text of a value: a number in lowest terms, the members
    of an object assigned one after the other.  It is the value itself when
    the value is [genuine]. *)
Fixpoint reread (v : JSON) : JSON :=
  match v with
  | JFrac m e => Parse.normal (m <? 0) (Z.abs m) (Z.neg e)
  | JArr l => JArr (map reread l)
  | JObj o => JObj (JS.literal (map (fun kv => (fst kv, reread (snd kv))) o))
  | _ => v
  end.

(** The parts of a numeral: sign, integer part, fraction and exponent. *)
Definition numeral (neg : bool) (ip fp ex : string) : string :=
  (if neg then "-" else "")
  ++ ip ++ (if String.eqb fp "" then "" else "." ++ fp) ++ ex.

(** The text between the brackets of an array, and between the braces of an
    object, in [JSON.stringify]. *)
Fixpoint elems_text (l : list JSON) : string :=
  match l with
  | [] => ""
  | x :: r => JS.stringify x ++ match r with [] => "" | _ :: _ => "," ++ elems_text r end
  end.

Fixpoint members_text (o : list (string * JSON)) : string :=
  match o with
  | [] => ""
  | (k, x) :: r =>
      JS.quote k ++ ":" ++ JS.stringify x
      ++ match r with [] => "" | _ :: _ => "," ++ members_text r end
  end.

(** The number of values in a value, itself included, counting each element
    and each member once more for its place in the list. *)
Fixpoint nodes (v : JSON) : nat :=
  match v with
  | JArr l => S ((fix sum (l : list JSON) : nat :=
                    match l with
                    | [] => O
                    | x :: r => S (nodes x + sum r)
                    end) l)
  | JObj o => S ((fix sum (o : list (string * JSON)) : nat :=
                    match o with
                    | [] => O
                    | (_, x) :: r => S (nodes x + sum r)
                    end) o)
  | _ => 1%nat
  end.

(** Text that cannot continue a numeral. *)
Definition delimited (rest : string) : bool :=
  match rest with
  | EmptyString => true
  | String c _ =>
      negb (JS.is_digit c || (Text.byte_of c =? 46) || (Text.byte_of c =? 101)
            || (Text.byte_of c =? 69))
  end.

(** Text that does not go on with a digit, and text that does not go on with
    a point. *)
Definition no_digit (rest : string) : bool :=
  match rest with
  | EmptyString => true
  | String c _ => negb (JS.is_digit c)
  end.

Definition no_point (rest : string) : bool :=
  match rest with
  | EmptyString => true
  | String c _ => negb (Text.byte_of c =? 46)
  end.

(** How a character appears among the items of the string literal that
    [JSON.stringify] writes. *)
Definition item_of (c : ascii) : Parse.Item :=
  let z := Text.byte_of c in
  if (z <? 32) || (z =? 34) || (z =? 92) then Parse.Esc z else Parse.Raw c.

Fixpoint items_of (s : string) : list Parse.Item :=
  match s with
  | EmptyString => []
  | String c r => item_of c :: items_of r
  end.

(** The payload of a transaction is unreadable when it is absent or is not
    the hex form of UTF-8 JSON text. *)
Definition payload_absent (data : string) : bool :=
  String.eqb data "" || String.eqb data "0x".

Definition payload_json (data : string) : option JSON :=
  match Ethers.toUtf8String data with
  | Ok text => JSON_parse text
  | Throw _ => None
  end.

(** What [retrieveHashFromBlockchain] returns for a transaction whose
    payload it cannot read: the fields of the receipt and of the
    transaction, with [timestamp], [storedHash] and [metadata] all [null]. *)
Definition receipt_only (tx : Tx) (receipt : Receipt) (l : Ledger)
  : BlockchainService.RetrieveResult :=
  BlockchainService.mkRetrieveResult
    (rc_hash receipt) (rc_blockNumber receipt) (rc_blockHash receipt)
    (JS.dec (rc_gasUsed receipt))
    (if rc_status receipt =? 1 then "success" else "failed")
    (tx_from tx) (tx_to tx)
    (Some JNull) (Some JNull) JNull
    (BlockchainService.mkRetrieveProof (network l) (JS.dec (chainId l))
       (rc_status receipt =? 1)).

(** What an attachment row records of its file. *)
Definition row_view (r : FileRow) : Z * string * string * string * Z * string :=
  (uf_data_id r, uf_original_name r, uf_stored_filename r, uf_file_path r,
   uf_file_size r, uf_mime_type r).
Definition file_view (dataId : Z) (f : UploadedFile)
  : Z * string * string * string * Z * string :=
  (dataId, originalname f, filename f, path f, fsize f, mimetype f).

(** The key under which a producer is looked up. *)
Definition farmer_key (farmerId : JSval) : option string :=
  match Sql.as_text (Sql.param farmerId) with
  | Ok k => k
  | Throw _ => None
  end.

Definition farmer_rows (k : string) (d : Database) : list FarmerRow :=
  filter (fun f => String.eqb (f_farmer_id f) k) (farmers d).

(** The next request to the database is answered (no fault is due). *)
Definition answered (d : Database) : bool :=
  match faults d with
  | Some _ :: _ => false
  | _ => true
  end.



(** The world with the faults to come replaced: the database answers or
    fails its next requests as [f] lists. *)
Definition scheduled (f : list (option string)) (w : World) : World :=
  set_db (Sql.with_faults f (db w)) w.

(* ================================================================== *)
(** ** A concrete scenario *)
(* ================================================================== *)

Module Scenario.

(** A clock that advances by one millisecond per reading. *)
Definition clock0 (n : nat) : string :=
  "2025-10-06T08:00:00." ++ Text.slice 1 (JS.dec (1000 + Z.of_nat n)) ++ "Z".

(** A clock that stands still. *)
Definition frozen (n : nat) : string := "2025-10-06T08:00:00.000Z".

Definition wallet : string := "0x90f8bf6a479f320ead074411a4b0e7944ea8c9c1".

Definition ledger0 : Ledger :=
  mkLedger "amoy" 80002 wallet [] []
    [Mined 0xabcdef 100 0x1234 21000 (Some 30000000000)].

Definition db0 : Database := mkDatabase [] [] [] [] [] [] 1 1 1 [].

Definition disk0 : list (string * string) :=
  [("uploads/P1/a.txt", "first file"); ("uploads/P1/b.txt", "second file")].

Definition w0 : World := mkWorld clock0 0 disk0 ledger0 db0 [].
Definition w0_frozen : World := mkWorld frozen 0 disk0 ledger0 db0 [].

(** The record of the specification's scenario, with its harvest date. *)
Definition R0 : JSval :=
  Some (JObj [("farmerId", JStr "P1"); ("productType", JStr "Rice");
              ("harvestDate", JStr "2025-10-01"); ("location", JStr "Delta");
              ("quantity", JNum 1000)]).

Definition fileA : UploadedFile :=
  mkUploadedFile "a.txt" "a_1.txt" 10 "text/plain" "uploads/P1/a.txt" None.
Definition fileB : UploadedFile :=
  mkUploadedFile "b.txt" "b_1.txt" 11 "text/plain" "uploads/P1/b.txt" None.

(** Store a record, then verify the same record against the stored row. *)
Definition store_then_verify (R : JSval) : M AgriChainService.Verification :=
  stored <- AgriChainService.storeAgriData R [] ;;
  AgriChainService.verifyAgriDataIntegrity R
    (Some (JNum (AgriChainService.so_dataId stored))) "id" None.

(** Anchor a hash, then read the transaction back. *)
Definition anchor_then_recover (hash : string) (metadata : JSval)
  : M BlockchainService.RetrieveResult :=
  anchored <- BlockchainService.storeHashOnBlockchain hash metadata ;;
  BlockchainService.retrieveHashFromBlockchain
    (BlockchainService.transactionHash anchored).

Definition data0 : JSON :=
  JObj [("farmerId", JStr "P1"); ("productType", JStr "Rice")].

(** The world after the scenario's record has been stored under the clock
    that stands still, with the database due to fail its third request from
    then on (the insert into the verification log of the next
    verification). *)
Definition stored_world : World :=
  snd (AgriChainService.storeAgriData R0 [] w0_frozen).


Definition digest0 : string :=
  "0be04890c442b64c069d4064a5db04f1163e0f2cf7e405149cff9a3a69470457".

(** The metadata [AgriChainService.storeAgriData] anchors with the digest of
    the scenario's record, and metadata that carries a [hash] of its own. *)
Definition meta0 : JSval :=
  Some (JObj [("farmerId", JStr "P1"); ("productType", JStr "Rice");
              ("harvestDate", JStr "2025-10-01");
              ("dataSize", JNum 176); ("fieldsCount", JNum 8)]).

(** Metadata with an index key, an object under an index key, a number that
    is written in exponent form and a fraction. *)
Definition meta_mixed : JSval :=
  Some (JObj [("0", JStr "x"); ("farmerId", JObj [("7", JStr "x")]);
              ("q", JNum (10 ^ 21)); ("ph", JFrac 65 1)]).

Definition meta_with_hash : JSval :=
  Some (JObj [("farmerId", JStr "P1"); ("hash", JStr "0xfeed")]).

(** What [AgriChainService.storeAgriData] hands to the database service for
    the scenario's record: the record with its hash, and the description of
    the ledger transaction. *)
Definition record0 : JSval :=
  Some (JObj [("farmerId", JStr "P1"); ("productType", JStr "Rice");
              ("harvestDate", JStr "2025-10-01"); ("location", JStr "Delta");
              ("quantity", JNum 1000); ("hash", JStr ("0x" ++ digest0))]).

Definition anchor0 : JSval :=
  Some (JObj [("transactionHash", JStr (Ethers.hash32 0xabcdef));
              ("blockNumber", JNum 100);
              ("from", JStr wallet); ("to", JStr wallet);
              ("gasUsed", JStr "21000"); ("gasPrice", JStr "30000000000");
              ("transactionFee", JStr "0.00063");
              ("networkName", JStr "amoy"); ("networkId", JStr "80002");
              ("status", JStr "Confirmed")]).

(** A ledger that holds a confirmed transaction without payload, a confirmed
    transaction whose payload is not JSON text, and a transaction that has
    no receipt yet. *)
Definition bare_ledger : Ledger :=
  mkLedger "amoy" 80002 wallet
    [mkTx (Ethers.hash32 0xabcdef) wallet wallet 0 "0x";
     mkTx (Ethers.hash32 0xabcdf0) wallet wallet 0 "0x6e6f";
     mkTx (Ethers.hash32 0xabcdf1) wallet wallet 0 "0x"]
    [mkReceipt (Ethers.hash32 0xabcdef) 100 (Ethers.hash32 0x1234) 21000
       (Some 30000000000) 1 wallet wallet;
     mkReceipt (Ethers.hash32 0xabcdf0) 101 (Ethers.hash32 0x1235) 21032
       (Some 30000000000) 1 wallet wallet]
    [].
Definition w_bare : World := mkWorld clock0 0 disk0 bare_ledger db0 [].

Definition persist (fs : list UploadedFile) : M DatabaseService.Stored :=
  DatabaseService.storeAgriData record0 anchor0 fs.

End Scenario.

(* ================================================================== *)
(** ** Vocabulary of the proofs *)
(* ================================================================== *)

(** The record with the metadata [createAgriDataHash] adds. *)
Definition stamped (o : list (string * JSON)) (timestamp : string)
  : list (string * JSON) :=
  JS.obj_set
    (JS.obj_set (JS.obj_set (JS.spread_into [] (Some (JObj o))) "timestamp" (JStr timestamp))
       "version" (JStr "1.0"))
    "system" (JStr "AgriChain").

(** [post c w Q]: running [c] from [w] ends in a result and a world that
    satisfy [Q]. *)
Definition post {A} (c : M A) (w : World) (Q : Res A -> World -> Prop) : Prop :=
  Q (fst (c w)) (snd (c w)).
Arguments post : simpl never.

(** [evolves R c]: whatever [c] does, the database it leaves is related by
    [R] to the database it found. *)
Definition evolves (R : Database -> Database -> Prop) {A} (c : M A) : Prop :=
  forall w, R (db w) (db (snd (c w))).

(** A projection of the database that stays as it is. *)
Definition same {T} (proj : Database -> T) (d d' : Database) : Prop := proj d' = proj d.

Definition keeps {T A} (proj : Database -> T) (c : M A) : Prop :=
  evolves (same proj) c.

(** A projection that does not look at the faults to come. *)
Definition table_like {T} (proj : Database -> T) : Prop :=
  forall f d, proj (Sql.with_faults f d) = proj d.

(** No fault is due after, if none was due before. *)
Definition calm (d d' : Database) : Prop := faults d = [] -> faults d' = [].

(** An error that [storeBlockchainTransaction] takes for a duplicate key. *)
Definition suppressed (e : JSError) : bool :=
  Text.includes (error_message e) "duplicate"
  || Text.includes (error_message e) "UNIQUE".

(** An anchor row for a transaction hash is in the table. *)
Definition anchored (h : string) (d : Database) : bool :=
  existsb (fun t => String.eqb (bt_transaction_hash t) h) (blockchain_transactions d).

(** What the parser is to do with the text of a value. *)
Definition reads_back (x : JSON) : Prop :=
  forall fuel rest, (nodes x <= fuel)%nat -> delimited rest = true ->
    Parse.value fuel (JS.stringify x ++ rest) = Some (reread x, rest).

(** The exponent part [ex] of a numeral and its value. *)
Definition exponent_of (ex : string) (x : Z) : Prop :=
  (ex = "" /\ x = 0)
  \/ exists (minus : bool) p,
       ex = "e" ++ (if minus then "-" else "+") ++ JS.dec (Z.pos p)
       /\ x = (if minus then -1 else 1) * Z.pos p.

(** A text is a numeral of the JSON grammar, and [v] is the number it
    denotes. *)
Definition denotes (text : string) (v : JSON) : Prop :=
  exists neg c t fp ex x,
    text = numeral neg (String c t) fp ex
    /\ JS.is_digit c = true /\ Text.all_chars JS.is_digit t = true
    /\ Parse.int_ok (String c t) = true
    /\ Text.all_chars JS.is_digit fp = true
    /\ exponent_of ex x
    /\ Parse.normal neg (JS.digits_value (String c t ++ fp) 0)
         (x - Z.of_nat (String.length fp)) = v.




From Stdlib Require Import Permutation.


(* ================================================================== *)
(** ** Further vocabulary *)
(* ================================================================== *)

(** A result that is not one of the service's own errors. *)
Definition foreign {A} (r : Res A) : Prop :=
  forall e, r = Throw e -> is_BlockchainError e = false.

(** Nothing but lines of the log separates two worlds. *)
Definition log_only (w w' : World) : Prop :=
  exists lines, w' = set_log (log w ++ lines)%list w.

(** A computation that writes to the log and to nothing else. *)
Definition quiet {A} (c : M A) : Prop := forall w, log_only w (snd (c w)).

Module Samples.

(** A ledger that drops the next transaction after accepting it. *)
Definition dropping : World :=
  set_ledger (Ethers.set_chain [] [] [Dropped 0xabcdef "TIMEOUT" "timeout"]
                Scenario.ledger0) Scenario.w0.

(** A ledger with a confirmed transaction whose payload holds a number
    under [hash]. *)
Definition numeric_ledger : Ledger :=
  mkLedger "amoy" 80002 Scenario.wallet
    [mkTx (Ethers.hash32 0xabcdef) Scenario.wallet Scenario.wallet 0
       (Ethers.hexlify (JS.stringify (JObj [("hash", JNum 5)])))]
    [mkReceipt (Ethers.hash32 0xabcdef) 100 (Ethers.hash32 0x1234) 21000
       (Some 30000000000) 1 Scenario.wallet Scenario.wallet]
    [].
Definition w_numeric : World :=
  mkWorld Scenario.clock0 0 Scenario.disk0 numeric_ledger Scenario.db0 [].

End Samples.

(* ================================================================== *)
(** ** file.service.js: the hash of one file *)
(* ================================================================== *)

Module Files.

(** [fs.statSync(path).size]. *)
Definition statSync (p : string) : M Z :=
  fun w =>
    match find (fun e => String.eqb (fst e) p) (disk w) with
    | Some e => (Ok (Text.len (snd e)), w)
    | None =>
        (Throw (SystemError "ENOENT"
                  ("ENOENT: no such file or directory, stat '" ++ p ++ "'")), w)
    end.

Definition generateFileHash (filePath : string) : M string :=
  try_catch
    (fileBuffer <- FileService.readFileSync filePath ;;
     let hash := SHA256.hex fileBuffer in
     fileStats <- statSync filePath ;;
     logger_info "File hash generated" ;;;
     ret ("0x" ++ hash))
    (fun error =>
       logger_error "Failed to generate file hash" ;;;
       throw (Error ("File hash generation failed: " ++ error_message error))).

End Files.

(** A file whose path is on the disk, its content, and what
    [generateCombinedHash] records of it. *)
Definition present (w : World) (f : UploadedFile) : bool :=
  match content_at w (path f) with Some _ => true | None => false end.

Fixpoint first_missing (w : World) (fs : list UploadedFile) : option UploadedFile :=
  match fs with
  | [] => None
  | f :: r => if present w f then first_missing w r else Some f
  end.

Definition content_of (w : World) (f : UploadedFile) : string :=
  match content_at w (path f) with Some c => c | None => "" end.

Definition info_of (w : World) (f : UploadedFile) : FileService.FileInfo :=
  FileService.mkFileInfo (originalname f) (filename f) (fsize f) (mimetype f)
    ("0x" ++ SHA256.hex (content_of w f)) (path f).

(** The error [fs.readFileSync] throws for a path that is not there. *)
Definition enoent (p : string) : JSError :=
  SystemError "ENOENT" ("ENOENT: no such file or directory, open '" ++ p ++ "'").

(* ================================================================== *)
(** ** The database between a store and a retrieval *)
(* ================================================================== *)

(** Identity values: every row that names a record names one whose id has
    been given out. *)
Definition well_keyed (d : Database) : bool :=
  forallb (fun r => ad_data_id r <? next_data_id d) (agricultural_data d)
  && forallb (fun f => uf_data_id f <? next_data_id d) (uploaded_files d)
  && forallb (fun v => vl_data_id v <? next_data_id d) (verification_logs d).

(** Attachment rows are only added, and added active. *)
Definition attaches (d d' : Database) : Prop :=
  exists rows,
    uploaded_files d' = (uploaded_files d ++ rows)%list
    /\ forallb uf_is_active rows = true.

(** A computation that leaves a part of the world as it found it. *)
Definition preserves {T A} (part : World -> T) (c : M A) : Prop :=
  forall w, part (snd (c w)) = part w.

(** A transaction and its receipt have been added to the ledger. *)
Definition confirmed_since (l l' : Ledger) : Prop :=
  exists tx rc,
    txs l' = (txs l ++ [tx])%list
    /\ receipts l' = (receipts l ++ [rc])%list
    /\ rc_hash rc = tx_hash tx
    /\ rc_status rc = 1.



(** A computation that does not look at the ledger: on another ledger it
    gives the same result and does the same to the rest of the world. *)
Definition ledger_blind {A} (c : M A) : Prop :=
  forall l w, c (set_ledger l w) = (fst (c w), set_ledger l (snd (c w))).

(* ================================================================== *)
(** ** validation.middleware.js *)
(* ================================================================== *)

Module Middleware.

(** What a middleware hands to [next]: nothing, or a ValidationError with
    its message and its [fields]. *)
Inductive Next : Type :=
| Continue
| Invalid (message : string) (fields : list string).

(** [data[field] === undefined || data[field] === null || data[field] === ""]. *)
Definition blank (v : JSval) : bool :=
  match v with
  | None | Some JNull => true
  | Some (JStr s) => String.eqb s ""
  | Some _ => false
  end.

(** [data[field]], for [data] that is neither [null] nor [undefined] and a
    field name that is not a property of every object. *)
Definition field_of (data : JSval) (field : string) : JSval :=
  match JS.get data field with
  | Some v => v
  | None => None
  end.

(** [validateRequiredFields(requiredFields)] applied to a request whose body
    is [body]. *)
Definition validateRequiredFields (requiredFields : list string) (body : JSval) : Next :=
  let data := JS.or_else body (Some (JObj [])) in
  let missingFields := filter (fun field => blank (field_of data field)) requiredFields in
  if negb (Nat.eqb (List.length missingFields) 0) then
    Invalid ("Missing required fields: " ++ Text.join ", " missingFields) missingFields
  else Continue.

End Middleware.
(* ================================================================== *)
(** * Properties *)
(* ================================================================== *)

(** The FIPS 180-4 test vectors. *)
Example sha256_abc :
  SHA256.hex "abc" = "ba7816bf8f01cfea414140de5dae2223b00361a396177a9cb410ff61f20015ad".
Proof. vm_compute. reflexivity. Qed.

Example sha256_empty :
  SHA256.hex "" = "e3b0c44298fc1c149afbf4c8996fb92427ae41e4649b934ca495991b7852b855".
Proof. vm_compute. reflexivity. Qed.

Example sha256_two_blocks :
  SHA256.hex "abcdbcdecdefdefgefghfghighijhijkijkljklmklmnlmnomnopnopq"
  = "248d6a61d20638b8e5c026930c3e6039a33ce45964ff2167f6ecedd419db06c1".
Proof. vm_compute. reflexivity. Qed.

(* ------------------------------------------------------------------ *)
(** ** Shape of a digest *)
(* ------------------------------------------------------------------ *)

Lemma append_length (a b : string) :
  String.length (a ++ b) = (String.length a + String.length b)%nat.
Proof. induction a as [|c a IH]; simpl; [reflexivity|rewrite IH; reflexivity]. Qed.

Lemma append_assoc (a b c : string) : (a ++ b) ++ c = a ++ (b ++ c).
Proof. induction a as [|x a IH]; simpl; [reflexivity|rewrite IH; reflexivity]. Qed.

Lemma append_nil_r (a : string) : a ++ "" = a.
Proof. induction a as [|x a IH]; simpl; [reflexivity|rewrite IH; reflexivity]. Qed.

Lemma append_inv_head (a b c : string) : a ++ b = a ++ c -> b = c.
Proof.
  induction a as [|x a IH]; simpl; intros H; [exact H|].
  injection H as H. apply IH. exact H.
Qed.

(** Two texts that agree after prefixes of one length agree prefix by
    prefix. *)
Lemma append_inv_length (a a' b b' : string) :
  String.length a = String.length a' -> a ++ b = a' ++ b' -> a = a' /\ b = b'.
Proof.
  revert a'. induction a as [|x a IH]; intros [|y a'] Hl H; simpl in *;
    try discriminate Hl.
  - split; [reflexivity|exact H].
  - injection Hl as Hl. injection H as -> H.
    destruct (IH a' Hl H) as [-> ->]. split; reflexivity.
Qed.

Lemma hex_fixed_length n w acc :
  String.length (Text.hex_fixed n w acc) = (n + String.length acc)%nat.
Proof.
  revert w acc. induction n as [|n IH]; intros w acc; simpl; [reflexivity|].
  rewrite IH. simpl. lia.
Qed.

Lemma compress_length h block :
  List.length h = 8%nat -> List.length (SHA256.compress h block) = 8%nat.
Proof.
  intros Hh. unfold SHA256.compress.
  rewrite length_map, length_combine, Hh. reflexivity.
Qed.

Lemma blocks_length n : forall h ws,
  List.length h = 8%nat -> List.length (SHA256.blocks n h ws) = 8%nat.
Proof.
  induction n as [|n IH]; intros h ws Hh; simpl; [exact Hh|].
  destruct ws; [exact Hh|]. apply IH. apply compress_length. exact Hh.
Qed.

(** A digest in hex has 64 characters. *)
Lemma sha256_hex_length msg : String.length (SHA256.hex msg) = 64%nat.
Proof.
  unfold SHA256.hex, SHA256.digest.
  pose proof (blocks_length
                (List.length (SHA256.words (SHA256.pad (Text.bytes_of msg))))
                SHA256.H0
                (SHA256.words (SHA256.pad (Text.bytes_of msg))) eq_refl) as Hl.
  destruct (SHA256.blocks _ SHA256.H0 _) as [|a [|b [|c [|d [|e [|f [|g [|h [|]]]]]]]]];
    try discriminate Hl.
  cbn [fold_right]. rewrite !hex_fixed_length. reflexivity.
Qed.

(** The digests of a list of contents can be read off their concatenation. *)
Lemma concat_digests_injective : forall l1 l2 rest1 rest2,
  List.length l1 = List.length l2 ->
  Text.concat_all (map SHA256.hex l1) ++ rest1
  = Text.concat_all (map SHA256.hex l2) ++ rest2 ->
  map SHA256.hex l1 = map SHA256.hex l2.
Proof.
  induction l1 as [|c l1 IH]; intros [|c' l2] rest1 rest2 Hl H;
    try discriminate Hl; [reflexivity|].
  injection Hl as Hl. cbn [map Text.concat_all fold_right] in *.
  rewrite !append_assoc in H.
  apply append_inv_length in H; [|rewrite !sha256_hex_length; reflexivity].
  destruct H as [Hc H]. rewrite Hc. f_equal.
  apply (IH l2 rest1 rest2 Hl). exact H.
Qed.

Example stringify_sample :
  JS.stringify (JObj [("a", JNum 1); ("b", JArr [JStr "x"; JNull; JBool true]); ("c", JNum (-20))])
  = "{" ++ JS.quote "a" ++ ":1," ++ JS.quote "b" ++ ":[" ++ JS.quote "x" ++ ",null,true],"
        ++ JS.quote "c" ++ ":-20}".
Proof. vm_compute. reflexivity. Qed.

Example obj_set_order :
  JS.keys (JS.literal [("b", JNull); ("2", JNull); ("a", JNull); ("1", JNull); ("b", JNum 1)])
  = ["1"; "2"; "b"; "a"].
Proof. vm_compute. reflexivity. Qed.

Example parse_sample :
  JSON_parse ("{ " ++ JS.quote "a" ++ " : [1, -2 ,true, null, " ++ JS.quote "xA\n" ++ "], "
              ++ JS.quote "b" ++ ":{}, " ++ JS.quote "a" ++ ":0 }")
  = Some (JObj [("a", JNum 0); ("b", JObj [])]).
Proof. vm_compute. reflexivity. Qed.

Example parse_numbers :
  map JSON_parse ["1.5"; "1.50"; "15e-1"; "-1.25E2"; "1e3"; "-0"; "1e-7"; "1.5e+21"]
  = [Some (JFrac 15 1); Some (JFrac 15 1); Some (JFrac 15 1); Some (JNum (-125));
     Some (JNum 1000); Some (JNum 0); Some (JFrac 1 7); Some (JNum (15 * 10 ^ 20))].
Proof. vm_compute. reflexivity. Qed.

Example stringify_numbers :
  map JS.stringify [JFrac 15 1; JFrac (-125) 2; JFrac 1 6; JFrac 1 7; JFrac 15 8;
                    JNum (10 ^ 21 - 1); JNum (10 ^ 21); JNum (-15 * 10 ^ 20)]
  = ["1.5"; "-1.25"; "0.000001"; "1e-7"; "1.5e-7"; "999999999999999999999"; "1e+21";
     "-1.5e+21"].
Proof. vm_compute. reflexivity. Qed.

Example parse_rejects_numbers :
  map JSON_parse ["1."; ".5"; "1e"; "-"; "+1"; "0x10"; "01.5"; "NaN"]
  = [None; None; None; None; None; None; None; None].
Proof. vm_compute. reflexivity. Qed.

Example parse_rejects :
  map JSON_parse ["01"; "[1,]"; "{"; "nul"; "1 2"; "-"; ""] = [None; None; None; None; None; None; None].
Proof. vm_compute. reflexivity. Qed.

Example parse_stringify_sample :
  let v := JObj [("k", JArr [JStr "a\b"; JNum (-12); JObj [("z", JNull)]]); ("m", JBool false)] in
  JSON_parse (JS.stringify v) = Some v.
Proof. vm_compute. reflexivity. Qed.

(* ------------------------------------------------------------------ *)
(** ** Objects: assignment and lookup *)
(* ------------------------------------------------------------------ *)

Lemma has_key_head k x o k' :
  JS.has_key k' ((k, x) :: o) = String.eqb k k' || JS.has_key k' o.
Proof. unfold JS.has_key. cbn [JS.lookup]. destruct (String.eqb k k'); reflexivity. Qed.

Lemma has_key_existsb k o :
  JS.has_key k o = existsb (String.eqb k) (map fst o).
Proof.
  unfold JS.has_key. induction o as [|[k' x] o IH]; [reflexivity|].
  cbn [JS.lookup map fst existsb]. rewrite (String.eqb_sym k k').
  destruct (String.eqb k' k); [reflexivity|exact IH].
Qed.

Lemma obj_update_other k v o h :
  String.eqb k h = false -> JS.lookup h (JS.obj_update k v o) = JS.lookup h o.
Proof.
  intros Hk. induction o as [|[k' x] o IH]; [reflexivity|]. cbn [JS.obj_update].
  destruct (String.eqb k' k) eqn:E; cbn [JS.lookup].
  - apply String.eqb_eq in E. subst k'. rewrite Hk. reflexivity.
  - rewrite IH. reflexivity.
Qed.

Lemma lookup_app_found h a b v :
  JS.lookup h a = Some v -> JS.lookup h (a ++ b)%list = Some v.
Proof.
  induction a as [|[k x] a IH]; [discriminate|]. cbn [app JS.lookup].
  destruct (String.eqb k h); [trivial|exact IH].
Qed.

Lemma lookup_app_missing h a b :
  JS.lookup h a = None -> JS.lookup h (a ++ b)%list = JS.lookup h b.
Proof.
  induction a as [|[k x] a IH]; [reflexivity|]. cbn [app JS.lookup].
  destruct (String.eqb k h); [discriminate|exact IH].
Qed.

Lemma has_key_lookup k o : JS.has_key k o = false <-> JS.lookup k o = None.
Proof. unfold JS.has_key. destruct (JS.lookup k o); split; congruence. Qed.

Lemma lookup_update_same k v o :
  JS.has_key k o = true -> JS.lookup k (JS.obj_update k v o) = Some v.
Proof.
  unfold JS.has_key. induction o as [|[k' x] o IH]; [discriminate|].
  cbn [JS.lookup JS.obj_update]. destruct (String.eqb k' k) eqn:E; cbn [JS.lookup]; rewrite E.
  - reflexivity.
  - exact IH.
Qed.

Lemma lookup_insert_index i k v o h :
  JS.has_key k o = false ->
  JS.lookup h (JS.obj_insert_index i k v o)
  = if String.eqb k h then Some v else JS.lookup h o.
Proof.
  induction o as [|[k' x] o IH]; intros Hk; cbn [JS.obj_insert_index JS.lookup].
  - destruct (String.eqb k h); reflexivity.
  - rewrite has_key_head in Hk. apply orb_false_iff in Hk. destruct Hk as [Hk' Hk].
    assert (Hh : String.eqb k h = true -> String.eqb k' h = false).
    { intros E. apply String.eqb_eq in E. subst h. exact Hk'. }
    destruct (JS.array_index k') as [j|]; [destruct (j <? i)|]; cbn [JS.lookup].
    + rewrite (IH Hk). destruct (String.eqb k h) eqn:E.
      * rewrite (Hh eq_refl). reflexivity.
      * reflexivity.
    + destruct (String.eqb k h) eqn:E; reflexivity.
    + destruct (String.eqb k h) eqn:E; reflexivity.
Qed.

(** Reading a property after an assignment: the value assigned under its
    key, the object as it was under any other key. *)
Lemma lookup_obj_set o k v h :
  JS.lookup h (JS.obj_set o k v) = if String.eqb k h then Some v else JS.lookup h o.
Proof.
  unfold JS.obj_set. destruct (JS.has_key k o) eqn:Hk.
  - destruct (String.eqb k h) eqn:E.
    + apply String.eqb_eq in E. subst h. apply lookup_update_same, Hk.
    + apply obj_update_other, E.
  - destruct (JS.array_index k) as [i|].
    + apply lookup_insert_index, Hk.
    + apply has_key_lookup in Hk. destruct (String.eqb k h) eqn:E.
      * apply String.eqb_eq in E. subst h. rewrite (lookup_app_missing _ _ _ Hk).
        cbn [JS.lookup]. rewrite String.eqb_refl. reflexivity.
      * destruct (JS.lookup h o) as [x|] eqn:Hx.
        -- apply lookup_app_found, Hx.
        -- rewrite (lookup_app_missing _ _ _ Hx). cbn [JS.lookup]. rewrite E. reflexivity.
Qed.

Lemma lookup_fold_other entries : forall acc h,
  forallb (fun kv => negb (String.eqb (fst kv) h)) entries = true ->
  JS.lookup h (fold_left (fun acc kv => JS.obj_set acc (fst kv) (snd kv)) entries acc)
  = JS.lookup h acc.
Proof.
  induction entries as [|[k x] entries IH]; intros acc h Hk; [reflexivity|].
  cbn [forallb fst] in Hk. apply andb_true_iff in Hk. destruct Hk as [Hk Hr].
  cbn [fold_left fst snd]. rewrite (IH _ _ Hr), lookup_obj_set.
  apply negb_true_iff in Hk. rewrite Hk. reflexivity.
Qed.


(* ------------------------------------------------------------------ *)
(** ** The monad *)
(* ------------------------------------------------------------------ *)

#[global] Opaque SHA256.hex JS.stringify.

Ltac run_monad :=
  unfold try_catch, bind, ret, throw, lift, logger_info, logger_warn, logger_error,
    Sql.console_log, Sql.console_error, log_line, now in *.

Lemma bind_ok {A B} (c : M A) (k : A -> M B) w a w' :
  c w = (Ok a, w') -> bind c k w = k a w'.
Proof. intros H. unfold bind. rewrite H. reflexivity. Qed.

Lemma bind_throw {A B} (c : M A) (k : A -> M B) w e w' :
  c w = (Throw e, w') -> bind c k w = (Throw e, w').
Proof. intros H. unfold bind. rewrite H. reflexivity. Qed.

Lemma bind_ok_inv {A B} (c : M A) (k : A -> M B) w b w' :
  bind c k w = (Ok b, w') -> exists a w1, c w = (Ok a, w1) /\ k a w1 = (Ok b, w').
Proof.
  unfold bind. destruct (c w) as [[a|e] w1]; [|discriminate].
  intros H. exists a, w1. split; [reflexivity|exact H].
Qed.

Lemma try_catch_ok_inv {A} (c : M A) (h : JSError -> M A) w a w' :
  (forall e w0, exists e', fst (h e w0) = Throw e') ->
  try_catch c h w = (Ok a, w') -> c w = (Ok a, w').
Proof.
  intros Hh. unfold try_catch. destruct (c w) as [[a0|e] w1]; [trivial|].
  intros H. destruct (Hh e w1) as [e' He']. rewrite H in He'. discriminate He'.
Qed.

Ltac bind_inv H :=
  let a := fresh "a" in
  let w1 := fresh "w" in
  let H1 := fresh "S" in
  apply bind_ok_inv in H; destruct H as (a & w1 & H1 & H).


(* ------------------------------------------------------------------ *)
(** ** The hash service *)
(* ------------------------------------------------------------------ *)

(** [generateHash] is a function of its argument alone: it always returns
    the prefixed SHA-256 of the text of the data. *)
Lemma generateHash_value data w :
  HashService.generateHash data w
  = (Ok ("0x" ++ SHA256.hex (HashService.dataString data)),
     set_log (log w ++ [("info", "Hash generated successfully")]) w).
Proof. reflexivity. Qed.

Lemma generateHash_deterministic data w1 w2 :
  fst (HashService.generateHash data w1) = fst (HashService.generateHash data w2).
Proof. reflexivity. Qed.

(** C10 (verifyHash is total, and indifferent to the 0x prefix).
    For every data value and every expected-hash argument [verifyHash]
    returns a boolean and never throws; an expected hash that is not a
    string yields [false]; and for an expected hash written without the
    prefix, adding the prefix does not change the result. *)
Theorem C10_verifyHash_total :
  (forall data hash w, exists b, fst (HashService.verifyHash data hash w) = Ok b)
  /\ (forall data hash w,
        (forall h, hash <> Some (JStr h)) ->
        fst (HashService.verifyHash data hash w) = Ok false)
  /\ (forall data h w,
        Text.startsWith h "0x" = false ->
        fst (HashService.verifyHash data (Some (JStr ("0x" ++ h))) w)
        = fst (HashService.verifyHash data (Some (JStr h)) w)).
Proof.
  split; [|split].
  - intros data hash w. unfold HashService.verifyHash.
    run_monad. rewrite generateHash_value.
    destruct (HashService.cleanHash hash); simpl; eauto.
  - intros data hash w Hns. unfold HashService.verifyHash.
    run_monad. rewrite generateHash_value.
    destruct hash as [[ | | | | h | | ]|]; simpl; try reflexivity.
    exfalso. apply (Hns h). reflexivity.
  - intros data h w Hh. unfold HashService.verifyHash.
    run_monad. rewrite !generateHash_value.
    unfold HashService.cleanHash. rewrite Hh.
    replace (Text.startsWith ("0x" ++ h) "0x") with true by reflexivity.
    reflexivity.
Qed.

(** The three parts of C10 at concrete arguments. *)
Lemma C10_verifyHash_total_witness :
  fst (HashService.verifyHash Scenario.R0 (Some (JNum 5)) Scenario.w0) = Ok false
  /\ fst (HashService.verifyHash (Some (JStr "abc"))
            (Some (JStr ("0x" ++ "ba7816bf8f01cfea414140de5dae2223b00361a396177a9cb410ff61f20015ad")))
            Scenario.w0)
     = fst (HashService.verifyHash (Some (JStr "abc"))
            (Some (JStr "ba7816bf8f01cfea414140de5dae2223b00361a396177a9cb410ff61f20015ad"))
            Scenario.w0).
Proof.
  split.
  - apply (proj1 (proj2 C10_verifyHash_total)). intros h H. discriminate H.
  - apply (proj2 (proj2 C10_verifyHash_total)). reflexivity.
Defined.

(** What [createAgriDataHash] does on a record: it rejects when a required
    field is missing, and otherwise stamps the record with the clock and
    hashes the result. *)
Lemma createAgriDataHash_rejects o w :
  filter (missing o) HashService.requiredFields <> [] ->
  HashService.createAgriDataHash (Some (JObj o)) w
  = (Throw (Error ("Missing required fields: "
                   ++ Text.join ", " (filter (missing o) HashService.requiredFields))),
     set_log (log w ++ [("error", "Failed to create agricultural data hash")]) w).
Proof.
  intros Hm. unfold HashService.createAgriDataHash, HashService.missingFields.
  run_monad. fold (missing o).
  destruct (filter (missing o) HashService.requiredFields) as [|f l] eqn:E.
  - contradiction.
  - cbn [List.length]. rewrite Nat2Z.inj_succ.
    destruct (0 <? Z.succ (Z.of_nat (List.length l))) eqn:Hlt.
    + reflexivity.
    + apply Z.ltb_ge in Hlt. lia.
Qed.

Lemma createAgriDataHash_accepts o w :
  filter (missing o) HashService.requiredFields = [] ->
  HashService.createAgriDataHash (Some (JObj o)) w
  = (Ok (HashService.mkHashResult
           ("0x" ++ SHA256.hex (JS.stringify (JObj (stamped o (clock w (ticks w))))))
           (stamped o (clock w (ticks w)))
           (JS.keys (stamped o (clock w (ticks w))))
           (Text.units (JS.stringify (JObj (stamped o (clock w (ticks w))))))),
     set_log (log w ++ [("info", "Hash generated successfully");
                        ("info", "Agricultural data hash created")])
       (set_ticks (S (ticks w)) w)).
Proof.
  intros Hm. unfold HashService.createAgriDataHash, HashService.missingFields.
  run_monad. fold (missing o). rewrite Hm. cbn [List.length Z.of_nat Z.ltb Z.compare].
  rewrite generateHash_value. unfold stamped, set_log, set_ticks.
  cbn [log ticks clock disk ledger db fst snd HashService.dataString JS.typeof_object].
  rewrite <- app_assoc. reflexivity.
Qed.

(** The hash depends on the record and on the clock reading, and on nothing
    else. *)
Lemma createAgriDataHash_clock R w1 w2 :
  clock w1 (ticks w1) = clock w2 (ticks w2) ->
  fst (HashService.createAgriDataHash R w1) = fst (HashService.createAgriDataHash R w2).
Proof.
  intros Hc. destruct R as [[ | | | | | |o]|]; try reflexivity.
  destruct (filter (missing o) HashService.requiredFields) eqn:E.
  - rewrite !createAgriDataHash_accepts by assumption. cbn [fst]. rewrite Hc. reflexivity.
  - rewrite !createAgriDataHash_rejects by (rewrite E; discriminate). reflexivity.
Qed.

(** The returned data carry the timestamp that was hashed: hashing them
    again gives the returned hash. *)
Lemma createAgriDataHash_rehash R w r w' w'' :
  HashService.createAgriDataHash R w = (Ok r, w') ->
  fst (HashService.generateHash (Some (JObj (HashService.data r))) w'')
  = Ok (HashService.hash r).
Proof.
  intros H. destruct R as [[ | | | | | |o]|]; try discriminate H.
  destruct (filter (missing o) HashService.requiredFields) eqn:E.
  - rewrite createAgriDataHash_accepts in H by assumption.
    injection H as <- _. reflexivity.
  - rewrite createAgriDataHash_rejects in H by (rewrite E; discriminate). discriminate H.
Qed.

(** C9, as amended (validation in createAgriDataHash).
    For every record, [createAgriDataHash] rejects exactly when at least one
    of farmerId, productType, harvestDate, location is missing (absent or
    falsy).  The rejection is a plain [Error] whose message lists the missing
    fields, thrown before any hash is computed: the clock is not read and
    the only line logged is the error line.  Otherwise it returns, and the
    returned hash is the prefixed SHA-256 of the JSON text of the returned
    data. *)
Theorem C9_createAgriDataHash_validation :
  forall o w,
    let absent := filter (missing o) HashService.requiredFields in
    (absent <> [] ->
       HashService.createAgriDataHash (Some (JObj o)) w
       = (Throw (Error ("Missing required fields: " ++ Text.join ", " absent)),
          set_log (log w ++ [("error", "Failed to create agricultural data hash")]) w))
    /\ (absent = [] ->
        exists r w',
          HashService.createAgriDataHash (Some (JObj o)) w = (Ok r, w')
          /\ HashService.hash r
             = "0x" ++ SHA256.hex (JS.stringify (JObj (HashService.data r)))).
Proof.
  intros o w absent. split.
  - apply createAgriDataHash_rejects.
  - intros Hm. eexists. eexists. split.
    + apply createAgriDataHash_accepts. exact Hm.
    + reflexivity.
Qed.

(** C9 as stated fails on the kind of error: a record with no field is
    rejected with an error whose name is not ValidationError. *)
Lemma C9_counterexample :
  exists e,
    fst (HashService.createAgriDataHash (Some (JObj [])) Scenario.w0) = Throw e
    /\ error_name e <> "ValidationError"
    /\ error_message e
       = "Missing required fields: farmerId, productType, harvestDate, location".
Proof.
  eexists. split; [vm_compute; reflexivity|]. split; [discriminate|reflexivity].
Qed.

(** C1, evaluated (store, then verify the unchanged record).
    The scenario's record is stored and then verified unchanged against the
    stored row: the verdict is TAMPERED, because verification hashes the
    record with a new timestamp. *)
Theorem C1_store_then_verify_tampered :
  option_map (fun v => (AgriChainService.status v, AgriChainService.v_storedHash v,
                        AgriChainService.v_currentHash v))
    (returned (fst (Scenario.store_then_verify Scenario.R0 Scenario.w0)))
  = Some ("TAMPERED",
          "0x0be04890c442b64c069d4064a5db04f1163e0f2cf7e405149cff9a3a69470457",
          "0xc66137a06ecff0062e80ae65ba9df88354f18b6d07fa0c88c8d00b99513730d1").
Proof. vm_compute. reflexivity. Qed.

(** Under a clock that stands still the same run is VERIFIED: the verdict
    turns on the timestamp alone. *)
Lemma store_then_verify_frozen_clock :
  option_map AgriChainService.status
    (returned (fst (Scenario.store_then_verify Scenario.R0 Scenario.w0_frozen)))
  = Some "VERIFIED".
Proof. vm_compute. reflexivity. Qed.

(** C2, evaluated (two digests of one record).
    Two successive calls of [createAgriDataHash] on the scenario's record
    return different hashes: each call embeds its own reading of the clock. *)
Theorem C2_digest_changes_between_calls :
  let first := HashService.createAgriDataHash Scenario.R0 Scenario.w0 in
  let second := HashService.createAgriDataHash Scenario.R0 (snd first) in
  option_map HashService.hash (returned (fst first))
  = Some "0x0be04890c442b64c069d4064a5db04f1163e0f2cf7e405149cff9a3a69470457"
  /\ option_map HashService.hash (returned (fst second))
     = Some "0x11709e090fa9a418e189fb4a8c9d6ec9b7bdb132c2d3998e699bd775e7846279"
  /\ fst first <> fst second.
Proof. vm_compute. repeat split; try reflexivity. discriminate. Qed.

(* ------------------------------------------------------------------ *)
(** ** The combined hash of data and files *)
(* ------------------------------------------------------------------ *)

Lemma readFileSync_value p w :
  FileService.readFileSync p w
  = match content_at w p with
    | Some c => (Ok c, w)
    | None => (Throw (SystemError "ENOENT"
                        ("ENOENT: no such file or directory, open '" ++ p ++ "'")), w)
    end.
Proof.
  unfold FileService.readFileSync, content_at.
  destruct (find _ (disk w)); reflexivity.
Qed.

(** The loop reads every file, appends the digests in order, and leaves the
    disk alone. *)
Lemma processFiles_ok : forall fs acc info w r w',
  FileService.processFiles fs acc info w = (Ok r, w') ->
  exists contents,
    map (content_at w) (map path fs) = map Some contents
    /\ fst r = acc ++ Text.concat_all (map SHA256.hex contents)
    /\ map FileService.fi_hash (snd r)
       = app (map FileService.fi_hash info)
           (map (fun c => "0x" ++ SHA256.hex c) contents).
Proof.
  induction fs as [|f fs IH]; intros acc info w r w' H.
  - cbn in H. injection H as <- _. exists []. cbn.
    rewrite append_nil_r, app_nil_r. repeat split; reflexivity.
  - cbn [FileService.processFiles] in H. unfold bind in H.
    rewrite readFileSync_value in H.
    destruct (content_at w (path f)) as [c|] eqn:Hc; [|discriminate H].
    run_monad. cbn [fst snd] in H.
    apply IH in H. destruct H as (contents & Hr & Hacc & Hinfo).
    exists (c :: contents). cbn [map Text.concat_all fold_right].
    rewrite Hc. split; [|split].
    + f_equal. exact Hr.
    + rewrite Hacc, append_assoc. reflexivity.
    + rewrite Hinfo, map_app, <- app_assoc. reflexivity.
Qed.

(** C3, as amended (the combined hash).
    When [generateCombinedHash] returns, each file's digest is the SHA-256 of
    its bytes, the record digest is the SHA-256 of the JSON text of the
    data, and the combined hash is the SHA-256 of the JSON text of the data
    (not of its digest) followed by the hex digests of the files in
    submission order.  That text determines the sequence of file digests:
    exchanging two files whose digests differ changes the text that is
    hashed. *)
Theorem C3_combined_hash_structure :
  (forall data fs w r w',
      FileService.generateCombinedHash data fs w = (Ok r, w') ->
      exists contents,
        map (content_at w) (map path fs) = map Some contents
        /\ map FileService.fi_hash (FileService.files r)
           = map (fun c => "0x" ++ SHA256.hex c) contents
        /\ FileService.dataHash r = SHA256.hex (JS.stringify data)
        /\ FileService.combinedHash r
           = "0x" ++ SHA256.hex (combinedContent data contents))
  /\ (forall data before c1 between c2 after,
        SHA256.hex c1 <> SHA256.hex c2 ->
        combinedContent data ((before ++ c1 :: between ++ c2 :: after)%list)
        <> combinedContent data ((before ++ c2 :: between ++ c1 :: after)%list)).
Proof.
  split.
  - intros data fs w r w' H. unfold FileService.generateCombinedHash in H.
    unfold try_catch, bind in H.
    destruct (FileService.processFiles fs (JS.stringify data) [] w)
      as [[[content info]|e] w1] eqn:Hp.
    + apply processFiles_ok in Hp. destruct Hp as (contents & Hr & Hc & Hi).
      run_monad. injection H as <- _. exists contents.
      cbn [FileService.files FileService.dataHash FileService.combinedHash fst snd] in *.
      repeat split; try assumption.
      unfold combinedContent. rewrite Hc. reflexivity.
    + run_monad. discriminate H.
  - intros data before c1 between c2 after Hne H. unfold combinedContent in H.
    apply append_inv_head in H.
    rewrite <- (append_nil_r (Text.concat_all (map SHA256.hex (before ++ c1 :: _)%list))) in H.
    rewrite <- (append_nil_r (Text.concat_all (map SHA256.hex (before ++ c2 :: _)%list))) in H.
    apply concat_digests_injective in H.
    + rewrite !map_app in H. apply app_inv_head in H.
      cbn [map] in H. injection H as H _. exact (Hne H).
    + rewrite !length_app. cbn [List.length]. rewrite !length_app. reflexivity.
Qed.

(** C3 as stated fails: the combined hash of the scenario's data and two
    files is not the hash of the record digest followed by the file
    digests, whether the digests are taken with or without their prefix. *)
Lemma C3_counterexample :
  exists r,
    returned (fst (FileService.generateCombinedHash Scenario.data0
                     [Scenario.fileA; Scenario.fileB] Scenario.w0)) = Some r
    /\ let prefixed := map FileService.fi_hash (FileService.files r) in
       let bare := map (Text.slice 2) prefixed in
       FileService.combinedHash r <> spec_combinedDigest (FileService.dataHash r) bare
       /\ FileService.combinedHash r
          <> spec_combinedDigest (FileService.dataHash r) prefixed
       /\ FileService.combinedHash r
          <> spec_combinedDigest ("0x" ++ FileService.dataHash r) bare
       /\ FileService.combinedHash r
          <> spec_combinedDigest ("0x" ++ FileService.dataHash r) prefixed.
Proof.
  eexists. split; [vm_compute; reflexivity|].
  vm_compute. repeat split; discriminate.
Qed.

(** Exchanging the two files of the scenario changes the combined hash. *)
Example combined_hash_order_sample :
  option_map FileService.combinedHash
    (returned (fst (FileService.generateCombinedHash Scenario.data0
                      [Scenario.fileA; Scenario.fileB] Scenario.w0)))
  <> option_map FileService.combinedHash
       (returned (fst (FileService.generateCombinedHash Scenario.data0
                         [Scenario.fileB; Scenario.fileA] Scenario.w0))).
Proof. vm_compute. discriminate. Qed.

(* ------------------------------------------------------------------ *)
(** ** Reasoning about service code *)
(* ------------------------------------------------------------------ *)

Lemma post_bind {A B} (c : M A) (k : A -> M B) w Q :
  post c w (fun r w1 =>
              match r with
              | Ok a => post (k a) w1 Q
              | Throw e => Q (Throw e) w1
              end) ->
  post (bind c k) w Q.
Proof. unfold post, bind. destruct (c w) as [[a|e] w1]; cbn; auto. Qed.

Lemma post_try {A} (c : M A) (h : JSError -> M A) w Q :
  post c w (fun r w1 =>
              match r with
              | Ok a => Q (Ok a) w1
              | Throw e => post (h e) w1 Q
              end) ->
  post (try_catch c h) w Q.
Proof. unfold post, try_catch. destruct (c w) as [[a|e] w1]; cbn; auto. Qed.

Lemma post_weaken {A} (c : M A) w (Q Q' : Res A -> World -> Prop) :
  post c w Q -> (forall r w', Q r w' -> Q' r w') -> post c w Q'.
Proof. unfold post. auto. Qed.

Lemma post_and {A} (c : M A) w (Q Q' : Res A -> World -> Prop) :
  post c w Q -> post c w Q' -> post c w (fun r w' => Q r w' /\ Q' r w').
Proof. unfold post. auto. Qed.

Lemma post_prop v k w (Q : Res JSval -> World -> Prop) :
  (forall r, Q r w) -> post (prop v k) w Q.
Proof. intros H. unfold post, prop. destruct (JS.get v k); apply H. Qed.

Lemma post_lift {A} (r : Res A) w (Q : Res A -> World -> Prop) :
  Q r w -> post (lift r) w Q.
Proof. auto. Qed.

Lemma with_faults_eta d : Sql.with_faults (faults d) d = d.
Proof. destruct d; reflexivity. Qed.

(** A request fails on a fault that is due, and otherwise runs its
    statement on the tables as they are. *)
Lemma post_request {A} (stmt : Sql.Statement A) w (Q : Res A -> World -> Prop) :
  (forall m rest, faults (db w) = Some m :: rest ->
     Q (Throw (RequestError m)) (set_db (Sql.with_faults rest (db w)) w)) ->
  (forall f, answered (db w) = true ->
     Q (fst (stmt (Sql.with_faults f (db w))))
       (set_db (snd (stmt (Sql.with_faults f (db w)))) w)) ->
  post (Sql.request stmt) w Q.
Proof.
  intros Hfault Hrun. unfold post, Sql.request, answered in *.
  destruct (faults (db w)) as [|[m|] rest] eqn:Hf.
  - specialize (Hrun [] eq_refl). rewrite <- Hf, with_faults_eta in Hrun.
    destruct (stmt (db w)); exact Hrun.
  - cbn. apply Hfault. reflexivity.
  - specialize (Hrun rest eq_refl).
    destruct (stmt (Sql.with_faults rest (db w))); exact Hrun.
Qed.

Lemma post_request_answering {A} (stmt : Sql.Statement A) w (Q : Res A -> World -> Prop) :
  faults (db w) = [] ->
  Q (fst (stmt (db w))) (set_db (snd (stmt (db w))) w) ->
  post (Sql.request stmt) w Q.
Proof.
  intros Hf HQ. unfold post, Sql.request. rewrite Hf.
  destruct (stmt (db w)); exact HQ.
Qed.

Lemma post_ret {A} (a : A) w (Q : Res A -> World -> Prop) :
  Q (Ok a) w -> post (ret a) w Q.
Proof. auto. Qed.

Lemma post_throw {A} e w (Q : Res A -> World -> Prop) :
  Q (Throw e) w -> post (throw e) w Q.
Proof. auto. Qed.

Lemma post_log level message w (Q : Res unit -> World -> Prop) :
  Q (Ok tt) (set_log (log w ++ [(level, message)]) w) ->
  post (log_line level message) w Q.
Proof. auto. Qed.

Lemma post_now w (Q : Res string -> World -> Prop) :
  Q (Ok (clock w (ticks w))) (set_ticks (S (ticks w)) w) -> post now w Q.
Proof. auto. Qed.

Ltac post_step :=
  lazymatch goal with
  | |- post (bind _ _) _ _ => apply post_bind
  | |- post (try_catch _ _) _ _ => apply post_try
  | |- post (prop _ _) _ _ => apply post_prop; intros [?|?]
  | |- post (lift _) _ _ => apply post_lift
  | |- post (Sql.executeQuery _) _ _ => unfold Sql.executeQuery
  | |- post (Sql.executeProcedure _) _ _ => unfold Sql.executeProcedure
  | |- post (ret _) _ _ => apply post_ret
  | |- post (throw _) _ _ => apply post_throw
  | |- post (log_line _ _) _ _ => apply post_log
  | |- post (Sql.console_log _) _ _ => apply post_log
  | |- post (Sql.console_error _) _ _ => apply post_log
  | |- post (logger_info _) _ _ => apply post_log
  | |- post (logger_warn _) _ _ => apply post_log
  | |- post (logger_error _) _ _ => apply post_log
  | |- post now _ _ => apply post_now
  | |- post (if ?b then _ else _) _ _ => destruct b eqn:?
  | |- post (match ?x with _ => _ end) _ _ => destruct x eqn:?
  end.

(** The steps that need no case analysis. *)
Ltac post_run :=
  repeat first
    [ progress cbn beta iota
    | lazymatch goal with
      | |- post (bind _ _) _ _ => apply post_bind
      | |- post (try_catch _ _) _ _ => apply post_try
      | |- post (lift _) _ _ => apply post_lift
      | |- post (Sql.executeQuery _) _ _ => unfold Sql.executeQuery
      | |- post (Sql.executeProcedure _) _ _ => unfold Sql.executeProcedure
      | |- post (ret _) _ _ => apply post_ret
      | |- post (throw _) _ _ => apply post_throw
      | |- post (log_line _ _) _ _ => apply post_log
      | |- post (Sql.console_log _) _ _ => apply post_log
      | |- post (Sql.console_error _) _ _ => apply post_log
      | |- post (logger_info _) _ _ => apply post_log
      | |- post (logger_warn _) _ _ => apply post_log
      | |- post (logger_error _) _ _ => apply post_log
      | |- post now _ _ => apply post_now
      end ].

(** *** Relations between the database before and after *)

Section EvolvesRules.

(** A reflexive and transitive relation on databases, which a consumed
    fault respects. *)
Variable R : Database -> Database -> Prop.
Hypothesis R_refl : forall d, R d d.
Hypothesis R_trans : forall a b c, R a b -> R b c -> R a c.
Hypothesis R_fault : forall d o rest, faults d = o :: rest -> R d (Sql.with_faults rest d).

Lemma evolves_ret {A} (a : A) : evolves R (ret a).
Proof. intros w. apply R_refl. Qed.

Lemma evolves_throw {A} e : evolves R (@throw A e).
Proof. intros w. apply R_refl. Qed.

Lemma evolves_lift {A} (r : Res A) : evolves R (lift r).
Proof. intros w. apply R_refl. Qed.

Lemma evolves_log level message : evolves R (log_line level message).
Proof. intros w. apply R_refl. Qed.

Lemma evolves_now : evolves R now.
Proof. intros w. apply R_refl. Qed.

Lemma evolves_prop v k : evolves R (prop v k).
Proof. intros w. unfold prop. destruct (JS.get v k); apply R_refl. Qed.

Lemma evolves_bind {A B} (c : M A) (k : A -> M B) :
  evolves R c -> (forall a, evolves R (k a)) -> evolves R (bind c k).
Proof.
  intros Hc Hk w. unfold bind. specialize (Hc w).
  destruct (c w) as [[a|e] w1]; cbn [snd] in *; [|exact Hc].
  eapply R_trans; [exact Hc|apply Hk].
Qed.

Lemma evolves_try {A} (c : M A) (h : JSError -> M A) :
  evolves R c -> (forall e, evolves R (h e)) -> evolves R (try_catch c h).
Proof.
  intros Hc Hh w. unfold try_catch. specialize (Hc w).
  destruct (c w) as [[a|e] w1]; cbn [snd] in *; [exact Hc|].
  eapply R_trans; [exact Hc|apply Hh].
Qed.

Lemma evolves_request {A} (stmt : Sql.Statement A) :
  (forall d, R d (snd (stmt d))) -> evolves R (Sql.request stmt).
Proof.
  intros Hs w. unfold Sql.request.
  destruct (faults (db w)) as [|[m|] rest] eqn:Hf.
  - specialize (Hs (db w)). destruct (stmt (db w)); exact Hs.
  - cbn. apply (R_fault _ Hf).
  - specialize (Hs (Sql.with_faults rest (db w))).
    destruct (stmt (Sql.with_faults rest (db w))) as [r d'] eqn:E. cbn in *.
    eapply R_trans; [apply (R_fault _ Hf)|exact Hs].
Qed.

Lemma evolves_executeQuery {A} (stmt : Sql.Statement A) :
  (forall d, R d (snd (stmt d))) -> evolves R (Sql.executeQuery stmt).
Proof.
  intros Hs. apply evolves_try; [apply evolves_request; exact Hs|].
  intros e. apply evolves_bind; [apply evolves_log|intros _; apply evolves_throw].
Qed.

Lemma evolves_executeProcedure {A} (stmt : Sql.Statement A) :
  (forall d, R d (snd (stmt d))) -> evolves R (Sql.executeProcedure stmt).
Proof.
  intros Hs. apply evolves_try; [apply evolves_request; exact Hs|].
  intros e. apply evolves_bind; [apply evolves_log|intros _; apply evolves_throw].
Qed.

End EvolvesRules.

(* ------------------------------------------------------------------ *)
(** ** Tables that an operation leaves alone *)
(* ------------------------------------------------------------------ *)

Lemma same_trans {T} (proj : Database -> T) a b c :
  same proj a b -> same proj b c -> same proj a c.
Proof. unfold same. congruence. Qed.

Lemma keeps_ret {T A} (proj : Database -> T) (a : A) : keeps proj (ret a).
Proof. intros w. reflexivity. Qed.

Lemma keeps_throw {T A} (proj : Database -> T) e : keeps proj (@throw A e).
Proof. intros w. reflexivity. Qed.

Lemma keeps_lift {T A} (proj : Database -> T) (r : Res A) : keeps proj (lift r).
Proof. intros w. reflexivity. Qed.

Lemma keeps_log {T} (proj : Database -> T) level message :
  keeps proj (log_line level message).
Proof. intros w. reflexivity. Qed.

Lemma keeps_now {T} (proj : Database -> T) : keeps proj now.
Proof. intros w. reflexivity. Qed.

Lemma keeps_prop {T} (proj : Database -> T) v k : keeps proj (prop v k).
Proof. apply evolves_prop. intros d. reflexivity. Qed.

Lemma keeps_bind {T A B} (proj : Database -> T) (c : M A) (k : A -> M B) :
  keeps proj c -> (forall a, keeps proj (k a)) -> keeps proj (bind c k).
Proof. apply evolves_bind. apply same_trans. Qed.

Lemma keeps_try {T A} (proj : Database -> T) (c : M A) (h : JSError -> M A) :
  keeps proj c -> (forall e, keeps proj (h e)) -> keeps proj (try_catch c h).
Proof. apply evolves_try. apply same_trans. Qed.

Lemma keeps_request {T A} (proj : Database -> T) (stmt : Sql.Statement A) :
  table_like proj -> (forall d, proj (snd (stmt d)) = proj d) ->
  keeps proj (Sql.request stmt).
Proof.
  intros Hp Hs. apply evolves_request; [apply same_trans| |exact Hs].
  intros d o rest _. apply Hp.
Qed.

Lemma keeps_executeQuery {T A} (proj : Database -> T) (stmt : Sql.Statement A) :
  table_like proj -> (forall d, proj (snd (stmt d)) = proj d) ->
  keeps proj (Sql.executeQuery stmt).
Proof.
  intros Hp Hs. apply keeps_try; [apply keeps_request; assumption|].
  intros e. apply keeps_bind; [apply keeps_log|intros _; apply keeps_throw].
Qed.

Lemma keeps_executeProcedure {T A} (proj : Database -> T) (stmt : Sql.Statement A) :
  table_like proj -> (forall d, proj (snd (stmt d)) = proj d) ->
  keeps proj (Sql.executeProcedure stmt).
Proof.
  intros Hp Hs. apply keeps_try; [apply keeps_request; assumption|].
  intros e. apply keeps_bind; [apply keeps_log|intros _; apply keeps_throw].
Qed.

(** A statement leaves a table alone: by cases on the statement's own
    tests, without looking into the conversions of its parameters. *)
Ltac stmt_keeps :=
  intros ?;
  cbv beta zeta delta
    [Sql.select_farmer Sql.insert_farmer Sql.sp_StoreAgriData
     Sql.insert_blockchain_transaction Sql.insert_uploaded_file
     Sql.insert_verification_log Sql.insert_system_log Sql.select_by_id
     Sql.select_by_hash Sql.select_files Sql.select_verification_logs];
  repeat match goal with
         | |- context [match ?x with _ => _ end] => destruct x
         end;
  reflexivity.

Create HintDb keeps.

Ltac keeps_auto :=
  repeat first
    [ apply keeps_ret | apply keeps_throw | apply keeps_lift | apply keeps_log
    | apply keeps_now | apply keeps_prop
    | apply keeps_bind; [|intros ?]
    | apply keeps_try; [|intros ?]
    | apply keeps_executeQuery; [solve [intros ? ?; reflexivity]|solve [stmt_keeps]]
    | apply keeps_executeProcedure; [solve [intros ? ?; reflexivity]|solve [stmt_keeps]]
    | apply keeps_request; [solve [intros ? ?; reflexivity]|solve [stmt_keeps]]
    | solve [auto with keeps]
    | match goal with
      | |- keeps _ (if ?b then _ else _) => destruct b
      | |- keeps _ (match ?x with _ => _ end) => destruct x
      end ].

Lemma getFilesByDataId_keeps_logs id :
  keeps verification_logs (DatabaseService.getFilesByDataId id).
Proof. unfold DatabaseService.getFilesByDataId. keeps_auto. Qed.

Lemma getVerificationLogs_keeps_logs id :
  keeps verification_logs (DatabaseService.getVerificationLogs id).
Proof. unfold DatabaseService.getVerificationLogs. keeps_auto. Qed.

#[local] Hint Resolve getFilesByDataId_keeps_logs getVerificationLogs_keeps_logs : keeps.





(** *** Conversions of parameters *)

Lemma rbind_ok {A B} (r : Res A) (k : A -> Res B) b :
  Sql.rbind r k = Ok b -> exists a, r = Ok a /\ k a = Ok b.
Proof. destruct r as [a|e]; cbn; [eauto|discriminate]. Qed.

Lemma text_column_ok column table v s :
  Sql.text_column column table v = Ok s -> Sql.as_text v = Ok (Some s).
Proof.
  unfold Sql.text_column. intros H. apply rbind_ok in H. destruct H as ([a|] & -> & H).
  - injection H as ->. reflexivity.
  - discriminate H.
Qed.

Ltac rbind_inv H :=
  repeat (apply rbind_ok in H;
          let x := fresh "x" in let Hx := fresh "Hx" in
          destruct H as (x & Hx & H)).

Ltac world_simpl := cbn [db set_log set_ticks set_db set_ledger] in *.

Lemma keeps_post {T A} (proj : Database -> T) (c : M A) w (Q : Res A -> World -> Prop) :
  keeps proj c ->
  (forall r w', proj (db w') = proj (db w) -> Q r w') ->
  post c w Q.
Proof. intros Hk HQ. apply HQ. apply Hk. Qed.


(* ------------------------------------------------------------------ *)
(** ** Producer provisioning *)
(* ------------------------------------------------------------------ *)

Lemma has_farmer_faults f d k : Sql.has_farmer k (Sql.with_faults f d) = Sql.has_farmer k d.
Proof. reflexivity. Qed.

(** What [insert_farmer] does to the table. *)
Lemma insert_farmer_effect p d :
  farmers (snd (Sql.insert_farmer p d)) = farmers d
  \/ exists row,
       farmers (snd (Sql.insert_farmer p d)) = (farmers d ++ [row])%list
       /\ Sql.as_text (Sql.p_farmerId p) = Ok (Some (f_farmer_id row))
       /\ Sql.has_farmer (f_farmer_id row) d = false.
Proof.
  unfold Sql.insert_farmer.
  match goal with |- context [match ?x with _ => _ end] => destruct x as [row|e] eqn:E end;
    [|left; reflexivity].
  destruct (Sql.has_farmer (f_farmer_id row) d) eqn:Hh; [left; reflexivity|].
  destruct (existsb _ (farmers d)); [left; reflexivity|].
  right. exists row. cbn [snd farmers Sql.with_farmers].
  rbind_inv E. injection E as <-. cbn [f_farmer_id] in *.
  repeat split; try assumption. eapply text_column_ok. eassumption.
Qed.

Lemma ensure_effect farmerId farmerInfo w :
  post (DatabaseService.ensureFarmerExists farmerId farmerInfo) w (fun r w' =>
  farmers (db w') = farmers (db w)
  \/ exists row, farmers (db w') = (farmers (db w) ++ [row])%list
       /\ farmer_key farmerId = Some (f_farmer_id row)
       /\ Sql.has_farmer (f_farmer_id row) (db w) = false).
Proof.
  unfold DatabaseService.ensureFarmerExists.
  do 3 post_step. post_step. apply post_request.
  - intros m rest Hf. repeat post_step. left. reflexivity.
  - intros f Hf. unfold Sql.select_farmer.
    destruct (Sql.as_text (Sql.param farmerId)) as [[id|]|e] eqn:Hid; cbn [fst snd].
    3: { repeat post_step. left; reflexivity. }
    all: post_step; [|post_step; left; reflexivity].
    all: repeat (post_step; try (left; reflexivity)).
    all: apply post_request;
      [ intros; repeat post_step; left; reflexivity | ].
    all: intros f' _;
      match goal with
      | |- context [Sql.insert_farmer ?p ?d] =>
          destruct (insert_farmer_effect p d) as [He|(row & He & Hk & Hh)];
          destruct (Sql.insert_farmer p d) as [[[]|e'] d']; cbn [fst snd] in *
      end.
    all: repeat post_step; cbn [db set_db set_log] in *.
    all: try (left; rewrite He; reflexivity).
    all: right; exists row; rewrite He; cbn [Sql.p_farmerId] in Hk;
      unfold farmer_key; rewrite Hk; auto.
Qed.

Lemma existsb_filter {A} (f : A -> bool) l :
  existsb f l = true -> filter f l <> [].
Proof.
  induction l as [|x l IH]; cbn; [discriminate|].
  destruct (f x); [discriminate|]. cbn. exact IH.
Qed.

Lemma no_farmer_rows k d : Sql.has_farmer k d = false -> farmer_rows k d = [].
Proof.
  unfold Sql.has_farmer, farmer_rows. induction (farmers d) as [|x l IH]; cbn; [reflexivity|].
  destruct (f_farmer_id x =? k)%string; cbn; [discriminate|exact IH].
Qed.

(** On an existing producer the call changes nothing and, when the
    database answers, succeeds. *)
Lemma ensure_existing farmerId farmerInfo k w :
  farmer_key farmerId = Some k ->
  Sql.has_farmer k (db w) = true ->
  post (DatabaseService.ensureFarmerExists farmerId farmerInfo) w (fun r w' =>
    farmers (db w') = farmers (db w)
    /\ (answered (db w) = true -> r = Ok tt)).
Proof.
  intros Hk Hh. unfold DatabaseService.ensureFarmerExists.
  do 3 post_step. post_step. apply post_request.
  - intros m rest Hf. repeat post_step. split; [reflexivity|].
    unfold answered. rewrite Hf. discriminate.
  - intros f Hf. unfold Sql.select_farmer. unfold farmer_key in Hk.
    destruct (Sql.as_text (Sql.param farmerId)) as [[id|]|e] eqn:Hid;
      try discriminate Hk. injection Hk as ->. cbn [fst snd].
    post_step.
    + exfalso. apply Nat.eqb_eq in Heqb. rewrite length_map in Heqb.
      apply length_zero_iff_nil in Heqb. revert Heqb. apply existsb_filter. exact Hh.
    + post_step. split; reflexivity.
Qed.

Lemma ensure_rows farmerId farmerInfo w k :
  (List.length (farmer_rows k (db w)) <= 1)%nat ->
  (List.length (farmer_rows k (db (snd (DatabaseService.ensureFarmerExists farmerId
                                          farmerInfo w)))) <= 1)%nat.
Proof.
  intros Hl. destruct (ensure_effect farmerId farmerInfo w) as [He|(row & He & _ & Hh)];
    unfold farmer_rows in *; rewrite He; [exact Hl|].
  rewrite filter_app, length_app. cbn [filter].
  destruct (f_farmer_id row =? k)%string eqn:E; cbn [List.length]; [|lia].
  apply String.eqb_eq in E. subst k.
  apply no_farmer_rows in Hh. unfold farmer_rows in Hh. rewrite Hh. cbn. lia.
Qed.

(** C8 (producer provisioning is idempotent).
    Two calls of [ensureFarmerExists] with one producer id, whatever the
    information passed: a producer who has at most one row before has at most
    one row after; once the producer has a row, the second call leaves the
    table of producers exactly as it is; and on an existing producer the call
    changes nothing and, when the database answers the lookup, returns
    without failure. *)
Theorem C8_ensureFarmerExists_idempotent :
  forall farmerId info1 info2 w,
    let w1 := snd (DatabaseService.ensureFarmerExists farmerId info1 w) in
    let w2 := snd (DatabaseService.ensureFarmerExists farmerId info2 w1) in
    (forall k, (List.length (farmer_rows k (db w)) <= 1)%nat ->
               (List.length (farmer_rows k (db w2)) <= 1)%nat)
    /\ (forall k, farmer_key farmerId = Some k ->
                  Sql.has_farmer k (db w1) = true ->
                  farmers (db w2) = farmers (db w1))
    /\ (forall k, farmer_key farmerId = Some k ->
                  Sql.has_farmer k (db w) = true ->
                  farmers (db w1) = farmers (db w)
                  /\ (answered (db w) = true ->
                      fst (DatabaseService.ensureFarmerExists farmerId info1 w) = Ok tt)).
Proof.
  intros farmerId info1 info2 w w1 w2. split; [|split].
  - intros k Hl. apply ensure_rows, ensure_rows. exact Hl.
  - intros k Hk Hh. apply (@ensure_existing farmerId info2 k w1 Hk Hh).
  - intros k Hk Hh. apply (@ensure_existing farmerId info1 k w Hk Hh).
Qed.

(* ------------------------------------------------------------------ *)
(** ** The verification log *)
(* ------------------------------------------------------------------ *)




(* ------------------------------------------------------------------ *)
(** ** Persisting a record *)
(* ------------------------------------------------------------------ *)

Lemma calm_refl d : calm d d.
Proof. intros H. exact H. Qed.

Lemma calm_trans a b c : calm a b -> calm b c -> calm a c.
Proof. unfold calm. auto. Qed.

Lemma calm_fault d o rest : faults d = o :: rest -> calm d (Sql.with_faults rest d).
Proof. intros H H0. congruence. Qed.

Ltac stmt_calm :=
  intros ?;
  cbv beta zeta delta
    [Sql.select_farmer Sql.insert_farmer Sql.sp_StoreAgriData
     Sql.insert_blockchain_transaction Sql.insert_uploaded_file
     Sql.insert_verification_log Sql.insert_system_log Sql.select_by_id
     Sql.select_by_hash Sql.select_files Sql.select_verification_logs];
  repeat match goal with
         | |- context [match ?x with _ => _ end] => destruct x
         end;
  intros H; exact H.

Ltac calm_auto :=
  repeat first
    [ apply (@evolves_ret calm calm_refl) | apply (@evolves_throw calm calm_refl)
    | apply (@evolves_lift calm calm_refl) | apply (@evolves_log calm calm_refl)
    | apply (@evolves_now calm calm_refl) | apply (@evolves_prop calm calm_refl)
    | apply (@evolves_bind calm calm_trans); [|intros ?]
    | apply (@evolves_try calm calm_trans); [|intros ?]
    | apply (@evolves_executeQuery calm calm_refl calm_trans calm_fault); solve [stmt_calm]
    | apply (@evolves_executeProcedure calm calm_refl calm_trans calm_fault); solve [stmt_calm]
    | apply (@evolves_request calm calm_trans calm_fault); solve [stmt_calm]
    | match goal with
      | |- evolves _ (if ?b then _ else _) => destruct b
      | |- evolves _ (match ?x with _ => _ end) => destruct x
      end ].

Lemma ensure_calm farmerId farmerInfo :
  evolves calm (DatabaseService.ensureFarmerExists farmerId farmerInfo).
Proof. unfold DatabaseService.ensureFarmerExists. calm_auto. Qed.

Lemma ensure_keeps_data farmerId farmerInfo :
  keeps agricultural_data (DatabaseService.ensureFarmerExists farmerId farmerInfo).
Proof. unfold DatabaseService.ensureFarmerExists. keeps_auto. Qed.

Lemma ensure_keeps_files farmerId farmerInfo :
  keeps uploaded_files (DatabaseService.ensureFarmerExists farmerId farmerInfo).
Proof. unfold DatabaseService.ensureFarmerExists. keeps_auto. Qed.

Lemma storeBlockchainTransaction_keeps_data blockchainData :
  keeps agricultural_data (DatabaseService.storeBlockchainTransaction blockchainData).
Proof. unfold DatabaseService.storeBlockchainTransaction. keeps_auto. Qed.

Lemma storeBlockchainTransaction_keeps_files blockchainData :
  keeps uploaded_files (DatabaseService.storeBlockchainTransaction blockchainData).
Proof. unfold DatabaseService.storeBlockchainTransaction. keeps_auto. Qed.

Lemma logOperation_keeps_data operation details :
  keeps agricultural_data (DatabaseService.logOperation operation details).
Proof. unfold DatabaseService.logOperation. keeps_auto. Qed.

Lemma logOperation_keeps_files operation details :
  keeps uploaded_files (DatabaseService.logOperation operation details).
Proof. unfold DatabaseService.logOperation. keeps_auto. Qed.

Lemma logOperation_keeps_anchors operation details :
  keeps blockchain_transactions (DatabaseService.logOperation operation details).
Proof. unfold DatabaseService.logOperation. keeps_auto. Qed.

Lemma storeFileRows_keeps {T} (proj : Database -> T) dataId fs :
  table_like proj ->
  (forall l n d, proj (Sql.with_uploaded_files l n d) = proj d) ->
  keeps proj (DatabaseService.storeFileRows dataId fs).
Proof.
  intros Hp Hu. induction fs as [|file fs IH]; cbn [DatabaseService.storeFileRows].
  - apply keeps_ret.
  - apply keeps_bind; [apply keeps_now|intros t].
    apply keeps_bind; [|intros _; exact IH].
    apply keeps_request; [exact Hp|].
    intros d. unfold Sql.insert_uploaded_file.
    destruct (Sql.has_data dataId d); cbn [snd]; [apply Hu|reflexivity].
Qed.

Lemma storeFileMetadata_keeps {T} (proj : Database -> T) dataId fs :
  table_like proj ->
  (forall l n d, proj (Sql.with_uploaded_files l n d) = proj d) ->
  keeps proj (DatabaseService.storeFileMetadata dataId fs).
Proof.
  intros Hp Hu. unfold DatabaseService.storeFileMetadata.
  pose proof (@storeFileRows_keeps _ proj dataId fs Hp Hu).
  keeps_auto.
Qed.

(** The stored procedure appends the row it returns, or changes nothing. *)
Lemma sp_StoreAgriData_effect p d r d' :
  Sql.sp_StoreAgriData p d = (r, d') ->
  match r with
  | Ok row =>
      agricultural_data d' = (agricultural_data d ++ [row])%list
      /\ Sql.as_text (Sql.p_TransactionHash p) = Ok (Some (ad_transaction_hash row))
      /\ Sql.has_data (ad_data_id row) d' = true
  | Throw _ => agricultural_data d' = agricultural_data d
  end.
Proof.
  unfold Sql.sp_StoreAgriData.
  match goal with |- context [match ?x with _ => _ end] => destruct x as [row|e] eqn:E end.
  - destruct (Sql.has_farmer (ad_farmer_id row) d); intros H; injection H as <- <-;
      [|reflexivity].
    split; [reflexivity|]. split.
    + rbind_inv E. injection E as <-. cbn [ad_transaction_hash].
      eapply text_column_ok. eassumption.
    + unfold Sql.has_data. cbn [agricultural_data Sql.with_agricultural_data].
      rewrite existsb_app. cbn. rewrite Z.eqb_refl, orb_true_r. reflexivity.
  - intros H; injection H as <- <-. reflexivity.
Qed.

(** Conversion failures are not taken for duplicate keys. *)
Lemma as_text_failure v e : Sql.as_text v = Throw e -> suppressed e = false.
Proof. destruct v; cbn; intros H; try discriminate H; injection H as <-; reflexivity. Qed.

Lemma as_int_failure v e : Sql.as_int v = Throw e -> suppressed e = false.
Proof.
  destruct v; cbn; intros H; try discriminate H; try (injection H as <-; reflexivity).
  destruct (Parse.integer s) as [[n [|? ?]]|]; try discriminate H; injection H as <-; reflexivity.
Qed.

Lemma rbind_throw {A B} (r : Res A) (k : A -> Res B) e :
  Sql.rbind r k = Throw e -> r = Throw e \/ exists a, r = Ok a /\ k a = Throw e.
Proof.
  destruct r as [a|e']; cbn; intros H; [right; eauto|left].
  injection H as ->. reflexivity.
Qed.


(** What the insert of an anchor row does: it appends the row, or finds
    the transaction hash already there, or fails on a conversion. *)
Lemma insert_blockchain_transaction_effect p d r d' :
  Sql.insert_blockchain_transaction p d = (r, d') ->
  match r with
  | Ok _ =>
      exists row,
        blockchain_transactions d' = (blockchain_transactions d ++ [row])%list
        /\ Sql.as_text (Sql.p_transactionHash p) = Ok (Some (bt_transaction_hash row))
  | Throw e =>
      d' = d
      /\ (suppressed e = true ->
          exists h, Sql.as_text (Sql.p_transactionHash p) = Ok (Some h)
                    /\ anchored h d = true)
  end.
Proof.
  unfold Sql.insert_blockchain_transaction.
  match goal with |- context [match ?x with _ => _ end] => destruct x as [row|e] eqn:E end.
  - destruct (existsb _ (blockchain_transactions d)) eqn:Hx;
      intros H; injection H as <- <-.
    + split; [reflexivity|]. intros _. exists (bt_transaction_hash row).
      split; [|exact Hx].
      rbind_inv E. injection E as <-. cbn [bt_transaction_hash].
      eapply text_column_ok. eassumption.
    + exists row. split; [reflexivity|].
      rbind_inv E. injection E as <-. cbn [bt_transaction_hash].
      eapply text_column_ok. eassumption.
  - intros H; injection H as <- <-. split; [reflexivity|]. intros Hs. exfalso.
    enough (suppressed e = false) by congruence. clear Hs.
    repeat (apply rbind_throw in E;
            destruct E as [E|(? & ? & E)];
            [ first [ eapply as_text_failure; eassumption
                    | eapply as_int_failure; eassumption
                    | idtac ] | ]).
    all: try discriminate E.
    all: match type of E with
         | Sql.not_null _ _ ?x = _ => destruct x; [discriminate E|]
         end.
    all: injection E as <-; reflexivity.
Qed.

Lemma post_prop_get v k w (Q : Res JSval -> World -> Prop) :
  (forall x, JS.get v k = Some x -> Q (Ok x) w) ->
  (JS.get v k = None ->
   Q (Throw (TypeError ("Cannot read properties of "
                        ++ match v with None => "undefined" | Some _ => "null" end
                        ++ " (reading '" ++ k ++ "')"))) w) ->
  post (prop v k) w Q.
Proof.
  intros Hs Hn. unfold post, prop. destruct (JS.get v k) as [x|] eqn:E.
  - apply Hs. reflexivity.
  - apply Hn. reflexivity.
Qed.

(** A value that has one property read can have any property read. *)
Lemma get_total v k x k' : JS.get v k = Some x -> JS.get v k' <> None.
Proof. destruct v as [[ | | | | | | ]|]; cbn; intros H; try discriminate H; discriminate. Qed.

Lemma anchored_app h d l row :
  blockchain_transactions d = (l ++ [row])%list ->
  bt_transaction_hash row = h ->
  anchored h d = true.
Proof.
  intros Hd Hh. unfold anchored. rewrite Hd, existsb_app. cbn.
  rewrite Hh, String.eqb_refl, orb_true_r. reflexivity.
Qed.

Ltac to_prop :=
  lazymatch goal with
  | |- post (bind _ _) _ _ => apply post_bind
  | |- _ => idtac
  end.

(** A property read after another one of the same object has succeeded. *)
Ltac next_prop :=
  to_prop; apply post_prop_get;
  [ intros ? ?
  | let Hn := fresh in intros Hn; exfalso; revert Hn; eapply get_total; eassumption ];
  cbn beta iota.

(** [storeBlockchainTransaction] lets through no error that looks like a
    duplicate key; and when it returns on a database that answers, an
    anchor row for the transaction hash is in the table. *)
Lemma storeBlockchainTransaction_post blockchainData w :
  post (DatabaseService.storeBlockchainTransaction blockchainData) w (fun r w' =>
    (forall e, r = Throw e -> suppressed e = false)
    /\ (r = Ok tt -> faults (db w) = [] ->
        exists th h,
          JS.get blockchainData "transactionHash" = Some th
          /\ Sql.as_text (Sql.param th) = Ok (Some h)
          /\ anchored h (db w') = true)).
Proof.
  unfold DatabaseService.storeBlockchainTransaction.
  post_run.
  apply post_prop_get.
  2:{ intros Hn. cbn beta iota.
      destruct blockchainData as [[ | | | | | | ]|]; try discriminate Hn.
      all: rewrite <- negb_orb;
        match goal with
        | |- context [negb (Text.includes (error_message ?e) _ || _)] =>
            change (negb (Text.includes (error_message e) "duplicate"
                          || Text.includes (error_message e) "UNIQUE"))
              with (negb (suppressed e));
            replace (suppressed e) with false by reflexivity
        end; cbn [negb].
      all: post_run; split; [intros e He0; injection He0 as <-; reflexivity|discriminate]. }
  intros th Hth. cbn beta iota.
  do 12 next_prop. post_run.
  apply post_request.
  - intros m rest Hf. post_run.
    rewrite <- negb_orb. fold (suppressed (RequestError m)).
    destruct (suppressed (RequestError m)) eqn:Hs; cbn [negb]; post_run.
    + split; [discriminate|]. intros _ Hnil. world_simpl. congruence.
    + split; [|discriminate]. intros e He0; injection He0 as <-. exact Hs.
  - intros f _.
    match goal with
    | |- context [Sql.insert_blockchain_transaction ?p ?d] =>
        pose proof (@insert_blockchain_transaction_effect p d) as He;
        destruct (Sql.insert_blockchain_transaction p d) as [[[]|e'] d'];
        specialize (He _ _ eq_refl); cbn [fst snd Sql.p_transactionHash] in *
    end.
    + destruct He as (row & Hrow & Hh). post_run.
      split; [discriminate|]. intros _ _. exists th, (bt_transaction_hash row).
      repeat split; try assumption. world_simpl.
      eapply anchored_app; [eassumption|reflexivity].
    + destruct He as [-> He]. post_run.
      rewrite <- negb_orb. fold (suppressed e').
      destruct (suppressed e') eqn:Hs; cbn [negb]; post_run.
      * split; [discriminate|]. intros _ _.
        destruct (He eq_refl) as (h & Hh & Ha). exists th, h. world_simpl. auto.
      * split; [|discriminate]. intros e He0; injection He0 as <-. exact Hs.
Qed.

Lemma post_intro {A} (c : M A) w (Q : Res A -> World -> Prop) :
  (forall r w', c w = (r, w') -> Q r w') -> post c w Q.
Proof. intros H. unfold post. apply H. destruct (c w); reflexivity. Qed.

(** The loop writes the attachment rows of the files it gets through, in
    order: of all the files when it returns, of the files before the failing
    insert when it throws. *)
Lemma storeFileRows_effect dataId : forall fs w,
  post (DatabaseService.storeFileRows dataId fs) w (fun r w' =>
    exists k rows,
      uploaded_files (db w') = (uploaded_files (db w) ++ rows)%list
      /\ map row_view rows = map (file_view dataId) (firstn k fs)
      /\ (forall u, r = Ok u -> k = List.length fs)).
Proof.
  induction fs as [|file fs IH]; intros w; cbn [DatabaseService.storeFileRows].
  - post_run. exists 0%nat, []. rewrite app_nil_r. repeat split.
  - post_run. apply post_request.
    + intros m rest Hf. exists 0%nat, []. world_simpl. cbn [uploaded_files Sql.with_faults].
      rewrite app_nil_r. repeat split. discriminate.
    + intros f _. unfold Sql.insert_uploaded_file.
      destruct (Sql.has_data dataId _); cbn [fst snd].
      * eapply post_weaken; [apply IH|].
        intros r w' (k & rows & Hu & Hv & Hk). world_simpl.
        cbn [uploaded_files Sql.with_uploaded_files Sql.with_faults] in Hu.
        eexists (S k), (_ :: rows). split; [|split].
        -- rewrite Hu, <- app_assoc. reflexivity.
        -- cbn [map firstn]. rewrite Hv. reflexivity.
        -- intros u Hr. cbn [List.length]. f_equal. eapply Hk. eassumption.
      * exists 0%nat, []. world_simpl. cbn [uploaded_files Sql.with_faults].
        rewrite app_nil_r. repeat split. discriminate.
Qed.

Lemma storeFileMetadata_effect dataId fs w :
  post (DatabaseService.storeFileMetadata dataId fs) w (fun r w' =>
    exists k rows,
      uploaded_files (db w') = (uploaded_files (db w) ++ rows)%list
      /\ map row_view rows = map (file_view dataId) (firstn k fs)
      /\ (forall u, r = Ok u -> k = List.length fs)).
Proof.
  unfold DatabaseService.storeFileMetadata. post_run.
  eapply post_weaken; [apply storeFileRows_effect|].
  intros [[]|e] w' (k & rows & Hu & Hv & Hk); post_run; world_simpl.
  - exists k, rows. repeat split; assumption.
  - exists k, rows. repeat split; assumption.
Qed.

Lemma storeFileMetadata_keeps_data dataId fs :
  keeps agricultural_data (DatabaseService.storeFileMetadata dataId fs).
Proof. apply storeFileMetadata_keeps; [intros ? ?|intros ? ? ?]; reflexivity. Qed.

Lemma storeFileMetadata_keeps_anchors dataId fs :
  keeps blockchain_transactions (DatabaseService.storeFileMetadata dataId fs).
Proof. apply storeFileMetadata_keeps; [intros ? ?|intros ? ? ?]; reflexivity. Qed.

Lemma evolves_post R {A} (c : M A) w (Q : Res A -> World -> Prop) :
  evolves R c -> (forall r w', R (db w) (db w') -> Q r w') -> post c w Q.
Proof. intros He HQ. apply HQ. apply He. Qed.

Lemma executeProcedure_calm {A} (stmt : Sql.Statement A) :
  (forall d, faults (snd (stmt d)) = faults d) ->
  evolves calm (Sql.executeProcedure stmt).
Proof.
  intros Hs. apply (@evolves_executeProcedure calm calm_refl calm_trans calm_fault).
  intros d H. rewrite Hs. exact H.
Qed.

Lemma storeProcedure_post p w :
  post (Sql.executeProcedure (Sql.sp_StoreAgriData p)) w (fun r w' =>
    uploaded_files (db w') = uploaded_files (db w)
    /\ calm (db w) (db w')
    /\ match r with
       | Ok row =>
           agricultural_data (db w') = (agricultural_data (db w) ++ [row])%list
           /\ Sql.as_text (Sql.p_TransactionHash p) = Ok (Some (ad_transaction_hash row))
           /\ Sql.has_data (ad_data_id row) (db w') = true
       | Throw _ => True
       end).
Proof.
  apply post_and; [|apply post_and].
  - eapply keeps_post; [|intros r w' H; exact H].
    apply keeps_executeProcedure; [intros ? ?; reflexivity|stmt_keeps].
  - eapply evolves_post; [|intros r w' H; exact H].
    apply executeProcedure_calm. stmt_keeps.
  - post_run. apply post_request.
    + intros m rest Hf. post_run. exact I.
    + intros f _.
      pose proof (@sp_StoreAgriData_effect p (Sql.with_faults f (db w))) as He.
      destruct (Sql.sp_StoreAgriData p (Sql.with_faults f (db w))) as [[row|e] d'];
        specialize (He _ _ eq_refl); post_run; [|exact I].
      world_simpl. exact He.
Qed.

Lemma files_bound (fs : list UploadedFile) :
  (0 <? Z.of_nat (List.length fs)) = false -> fs = [].
Proof.
  destruct fs as [|f fs]; [reflexivity|]. cbn [List.length].
  intros H. apply Z.ltb_ge in H. lia.
Qed.

Ltac vacuous := post_run; try (intros ? ?; discriminate).

(** The first property read of an object, in a proof about the calls that
    return. *)
Ltac first_prop :=
  to_prop; apply post_prop_get; [intros ? ?|intros ?; solve [vacuous]];
  cbn beta iota.

Lemma evolves_run {R A} (c : M A) w r w' :
  evolves R c -> c w = (r, w') -> R (db w) (db w').
Proof. intros He E. specialize (He w). rewrite E in He. exact He. Qed.
Arguments evolves_run {R A c w r w'} _ _.

Lemma post_run_eq {A} (c : M A) w r w' (Q : Res A -> World -> Prop) :
  post c w Q -> c w = (r, w') -> Q r w'.
Proof. unfold post. intros H E. rewrite E in H. exact H. Qed.
Arguments post_run_eq {A c w r w' Q} _ _.

(** What a successful [storeAgriData] leaves in the tables. *)
Lemma storeAgriData_success agriData blockchainData fs w :
  post (DatabaseService.storeAgriData agriData blockchainData fs) w (fun r w' =>
    forall s, r = Ok s ->
      agricultural_data (db w') = (agricultural_data (db w) ++ [DatabaseService.stored_row s])%list
      /\ ad_data_id (DatabaseService.stored_row s) = DatabaseService.dataId s
      /\ (exists rows,
            uploaded_files (db w') = (uploaded_files (db w) ++ rows)%list
            /\ map row_view rows = map (file_view (DatabaseService.dataId s)) fs)
      /\ (faults (db w) = [] ->
          anchored (ad_transaction_hash (DatabaseService.stored_row s)) (db w') = true)).
Proof.
  unfold DatabaseService.storeAgriData. post_run.
  first_prop. first_prop.
  (* ensureFarmerExists *)
  to_prop. apply post_intro. intros [[]|e0] w0 E0; [|vacuous]. cbn beta iota.
  pose proof (evolves_run (ensure_keeps_data _ _) E0) as Hd0.
  pose proof (evolves_run (ensure_keeps_files _ _) E0) as Hf0.
  pose proof (evolves_run (ensure_calm _ _) E0) as Hc0.
  unfold same in Hd0, Hf0. world_simpl.
  do 7 next_prop. first_prop. next_prop.
  (* the stored procedure *)
  to_prop. apply post_intro. intros [row|e1] w1 E1; [|vacuous]. cbn beta iota.
  pose proof (post_run_eq (storeProcedure_post _ _) E1) as P1. cbn beta iota in P1.
  destruct P1 as (Hf1 & Hc1 & Hd1 & Hh1 & Hx1).
  cbn [Sql.p_TransactionHash] in Hh1.
  (* the anchor row *)
  to_prop. apply post_intro. intros [[]|e2] w2 E2; [|vacuous]. cbn beta iota.
  pose proof (evolves_run (storeBlockchainTransaction_keeps_data _) E2) as Hd2.
  pose proof (evolves_run (storeBlockchainTransaction_keeps_files _) E2) as Hf2.
  pose proof (post_run_eq (storeBlockchainTransaction_post _ _) E2) as P2. cbn beta in P2.
  destruct P2 as (_ & Ha2).
  unfold same in Hd2, Hf2.
  (* the attachment rows *)
  to_prop. apply post_intro. intros [[]|e3] w3 E3; [|vacuous]. cbn beta iota.
  assert (Hd3 : agricultural_data (db w3) = agricultural_data (db w2)).
  { destruct (0 <? Z.of_nat (List.length fs)); [|cbv [ret] in E3; injection E3 as <-; reflexivity].
    apply (evolves_run (storeFileMetadata_keeps_data _ _) E3). }
  assert (Ha3 : blockchain_transactions (db w3) = blockchain_transactions (db w2)).
  { destruct (0 <? Z.of_nat (List.length fs)); [|cbv [ret] in E3; injection E3 as <-; reflexivity].
    apply (evolves_run (storeFileMetadata_keeps_anchors _ _) E3). }
  assert (Hf3 : exists rows,
             uploaded_files (db w3) = (uploaded_files (db w2) ++ rows)%list
             /\ map row_view rows = map (file_view (ad_data_id row)) fs).
  { destruct (0 <? Z.of_nat (List.length fs)) eqn:Hn.
    - pose proof (post_run_eq (storeFileMetadata_effect _ _ _) E3) as P3. cbn beta in P3.
      destruct P3 as (k & rows & Hu & Hv & Hk).
      exists rows. split; [exact Hu|]. rewrite Hv, (Hk tt eq_refl), firstn_all. reflexivity.
    - cbv [ret] in E3; injection E3 as <-. apply files_bound in Hn. subst fs. exists [].
      rewrite app_nil_r. split; reflexivity. }
  (* the system log *)
  to_prop. apply post_intro. intros [[]|e4] w4 E4; [|vacuous]. cbn beta iota.
  pose proof (evolves_run (logOperation_keeps_data _ _) E4) as Hd4.
  pose proof (evolves_run (logOperation_keeps_files _ _) E4) as Hf4.
  pose proof (evolves_run (logOperation_keeps_anchors _ _) E4) as Ha4.
  unfold same in Hd4, Hf4, Ha4.
  post_run. intros s Hs. injection Hs as <-.
  cbn [DatabaseService.stored_row DatabaseService.dataId]. world_simpl.
  split; [congruence|]. split; [reflexivity|]. split.
  - destruct Hf3 as (rows & Hu & Hv). exists rows. split; [congruence|exact Hv].
  - intros Hnil. destruct Ha2 as (th & h & Hth & Hh & Ha); [reflexivity|auto|].
    replace (ad_transaction_hash row) with h by congruence.
    unfold anchored in *. rewrite Ha4, Ha3. exact Ha.
Qed.

(* ------------------------------------------------------------------ *)
(** ** A failure in the middle of persisting *)
(* ------------------------------------------------------------------ *)

Unset Implicit Arguments.

Lemma scheduled_id w : faults (db w) = [] -> scheduled [] w = w.
Proof. destruct w as [c t k l d g]. destruct d. cbn. intros ->. reflexivity. Qed.



























Set Implicit Arguments.



(** The same record persisted twice against the same ledger transaction: the
    second anchor insert meets the unique key, the conflict is suppressed and
    the second record is stored with its attachments. *)
Example persist_again_same_anchor :
  let both := Scenario.persist [Scenario.fileA; Scenario.fileB] ;;;
              Scenario.persist [Scenario.fileA; Scenario.fileB] in
  let run := both Scenario.w0 in
  option_map DatabaseService.dataId
    (match fst run with Ok s => Some s | Throw _ => None end) = Some 2
  /\ map ad_data_id (agricultural_data (db (snd run))) = [1; 2]
  /\ map uf_data_id (uploaded_files (db (snd run))) = [1; 1; 2; 2]
  /\ map bt_transaction_hash (blockchain_transactions (db (snd run)))
     = [Ethers.hash32 0xabcdef].
Proof. vm_compute. repeat split. Qed.
(* ------------------------------------------------------------------ *)
(** ** One entry per verification *)
(* ------------------------------------------------------------------ *)

Unset Implicit Arguments.








Set Implicit Arguments.



(** A verification with an address that is an array: the insert fails on
    the conversion, the verdict is returned and the log has no new entry. *)
Example verification_unsendable_address :
  let run := AgriChainService.verifyAgriDataIntegrity Scenario.R0 (Some (JNum 1)) "id"
               (Some (JObj [("ip", JArr [JStr "10.0.0.1"])])) Scenario.stored_world in
  option_map AgriChainService.status (returned (fst run)) = Some "VERIFIED"
  /\ verification_logs (db (snd run)) = verification_logs (db Scenario.stored_world).
Proof. vm_compute. split; reflexivity. Qed.

(** The same verification with the address as text: one entry. *)
Example verification_logged_once :
  let run := AgriChainService.verifyAgriDataIntegrity Scenario.R0 (Some (JNum 1)) "id"
               (Some (JObj [("ip", JStr "10.0.0.1")])) Scenario.stored_world in
  option_map AgriChainService.status (returned (fst run)) = Some "VERIFIED"
  /\ map vl_client_ip (verification_logs (db (snd run))) = [Some "10.0.0.1"].
Proof. vm_compute. split; reflexivity. Qed.
(* ------------------------------------------------------------------ *)
(** ** Reading a transaction back *)
(* ------------------------------------------------------------------ *)

Lemma isHexString_nonempty t n : Ethers.isHexString t n = true -> String.eqb t "" = false.
Proof. destruct t; [discriminate|reflexivity]. Qed.

(** The decoding block leaves both variables [null] when the payload is
    absent or is not the hex form of UTF-8 JSON text. *)
Lemma decodePayload_unreadable data w :
  payload_absent data = true \/ payload_json data = None ->
  fst (BlockchainService.decodePayload data w) = Ok (JNull, Some JNull).
Proof.
  unfold BlockchainService.decodePayload, payload_absent, payload_json.
  intros [Ha|Hj].
  - rewrite <- negb_orb, Ha. reflexivity.
  - destruct (negb (String.eqb data "") && negb (String.eqb data "0x"))%bool; [|reflexivity].
    run_monad. destruct (Ethers.toUtf8String data) as [text|e]; [|reflexivity].
    rewrite Hj. reflexivity.
Qed.

(** The decoding block leaves the ledger as it is. *)
Lemma decodePayload_ledger data w :
  ledger (snd (BlockchainService.decodePayload data w)) = ledger w.
Proof.
  unfold BlockchainService.decodePayload.
  destruct (negb (String.eqb data "") && negb (String.eqb data "0x"))%bool; [|reflexivity].
  run_monad. destruct (Ethers.toUtf8String data) as [text|e]; [|reflexivity].
  destruct (JSON_parse text) as [v|]; [|reflexivity].
  destruct (JS.get (Some v) "hash"); reflexivity.
Qed.

(** C5 (amended). [retrieveHashFromBlockchain] throws INVALID_TX_HASH (400)
    for an identifier that is not 32 bytes of 0x-prefixed hex, whatever the
    ledger holds.  For a well-formed identifier it throws TX_NOT_FOUND (404)
    when the ledger has no such transaction and TX_NOT_CONFIRMED (404) when
    it has the transaction but no receipt; when it has both and the payload
    is absent or is not the hex form of UTF-8 JSON text, it returns the
    fields of the receipt and of the transaction with [timestamp],
    [storedHash] and [metadata] all [null]. *)
Theorem C5_recover_failure_modes t w :
  (Ethers.isHexString t (Some 32%nat) = false ->
   fst (BlockchainService.retrieveHashFromBlockchain t w)
   = Throw (BlockchainError "Invalid transaction hash format" "INVALID_TX_HASH" 400))
  /\ (Ethers.isHexString t (Some 32%nat) = true ->
      Ethers.tx_of (ledger w) t = None ->
      fst (BlockchainService.retrieveHashFromBlockchain t w)
      = Throw (BlockchainError "Transaction not found" "TX_NOT_FOUND" 404))
  /\ (forall tx,
      Ethers.isHexString t (Some 32%nat) = true ->
      Ethers.tx_of (ledger w) t = Some tx ->
      Ethers.receipt_of (ledger w) t = None ->
      fst (BlockchainService.retrieveHashFromBlockchain t w)
      = Throw (BlockchainError "Transaction not confirmed" "TX_NOT_CONFIRMED" 404))
  /\ (forall tx receipt,
      Ethers.isHexString t (Some 32%nat) = true ->
      Ethers.tx_of (ledger w) t = Some tx ->
      Ethers.receipt_of (ledger w) t = Some receipt ->
      payload_absent (tx_data tx) = true \/ payload_json (tx_data tx) = None ->
      fst (BlockchainService.retrieveHashFromBlockchain t w)
      = Ok (receipt_only tx receipt (ledger w))).
Proof.
  unfold BlockchainService.retrieveHashFromBlockchain.
  split; [|split; [|split]].
  - intros Ht. run_monad. rewrite Ht, orb_true_r. reflexivity.
  - intros Ht Htx. pose proof (isHexString_nonempty _ _ Ht) as Hne.
    run_monad. unfold Ethers.getTransaction.
    rewrite Hne, Ht. cbn [orb negb ledger set_log]. rewrite Htx. reflexivity.
  - intros tx Ht Htx Hrc. pose proof (isHexString_nonempty _ _ Ht) as Hne. run_monad.
    unfold Ethers.getTransaction, Ethers.getTransactionReceipt.
    rewrite Hne, Ht. cbn [orb negb ledger set_log]. rewrite Htx.
    cbn [ledger set_log]. rewrite Hrc. reflexivity.
  - intros tx receipt Ht Htx Hrc Hp. pose proof (isHexString_nonempty _ _ Ht) as Hne.
    pose proof (decodePayload_unreadable (tx_data tx)
                  (set_log (log w ++ [("info", "Retrieving hash from blockchain")]) w) Hp) as Hd.
    pose proof (decodePayload_ledger (tx_data tx)
                  (set_log (log w ++ [("info", "Retrieving hash from blockchain")]) w)) as Hl.
    unfold try_catch, bind at 1 2 3 4 5.
    unfold Ethers.getTransaction, Ethers.getTransactionReceipt.
    run_monad.
    rewrite Hne, Ht. cbn [orb negb ledger set_log]. rewrite Htx.
    cbn [ledger set_log]. rewrite Hrc.
    destruct (BlockchainService.decodePayload (tx_data tx) _) as [r wd].
    cbn [fst snd ledger set_log] in Hd, Hl. subst r.
    cbv [Ethers.configNetwork Ethers.getNetworkChainId BlockchainService.substring_of].
    cbn [ledger set_log fst]. rewrite Hl. reflexivity.
Qed.

(** C5, the claim as written fails: for an identifier that is not 32 bytes
    of hex the ledger holds no transaction, yet the error is INVALID_TX_HASH
    with status 400, not a not-found error. *)
Lemma C5_counterexample :
  Ethers.tx_of (ledger Scenario.w_bare) "0x1234" = None
  /\ fst (BlockchainService.retrieveHashFromBlockchain "0x1234" Scenario.w_bare)
     = Throw (BlockchainError "Invalid transaction hash format" "INVALID_TX_HASH" 400).
Proof. vm_compute. split; reflexivity. Qed.

(** The four cases on a ledger that holds a confirmed transaction without
    payload, one with a payload that is not JSON, and one without receipt. *)
Example recover_cases :
  let recover id := fst (BlockchainService.retrieveHashFromBlockchain
                           (Ethers.hash32 id) Scenario.w_bare) in
  recover 0xabcdf2 = Throw (BlockchainError "Transaction not found" "TX_NOT_FOUND" 404)
  /\ recover 0xabcdf1
     = Throw (BlockchainError "Transaction not confirmed" "TX_NOT_CONFIRMED" 404)
  /\ option_map BlockchainService.r_blockNumber (returned (recover 0xabcdef)) = Some 100
  /\ option_map BlockchainService.r_storedHash (returned (recover 0xabcdef)) = Some (Some JNull)
  /\ option_map BlockchainService.r_blockNumber (returned (recover 0xabcdf0)) = Some 101
  /\ option_map BlockchainService.r_metadata (returned (recover 0xabcdf0)) = Some JNull.
Proof. vm_compute. repeat split; reflexivity. Qed.

(** A payload that is JSON text with a fraction in it is read. *)
Example payload_with_fraction :
  payload_json
    (Ethers.hexlify (JS.stringify (JObj [("hash", JStr "0xab"); ("v", JFrac 15 1)])))
  = Some (JObj [("hash", JStr "0xab"); ("v", JFrac 15 1)]).
Proof. vm_compute. reflexivity. Qed.
(* ------------------------------------------------------------------ *)
(** ** [JSON.parse] reads back what [JSON.stringify] writes *)
(* ------------------------------------------------------------------ *)

Unset Implicit Arguments.

Ltac each_char c := destruct c as [[] [] [] [] [] [] [] []].

(** *** String literals *)

Lemma items_escape_char c tail :
  Parse.items (JS.escape_char c ++ tail)
  = Parse.cons_item (item_of c) (Parse.items tail).
Proof. each_char c; reflexivity. Qed.

Lemma items_closing tail : Parse.items (String JS.dquote tail) = Some ([], tail).
Proof. reflexivity. Qed.

Lemma items_escape s tail :
  Parse.items (JS.escape s ++ String JS.dquote tail) = Some (items_of s, tail).
Proof.
  induction s as [|c s IH]; [reflexivity|].
  cbn [JS.escape items_of]. rewrite append_assoc, items_escape_char, IH. reflexivity.
Qed.

Lemma decode_item_of c l :
  Parse.decode (item_of c :: items_of l) = String c (Parse.decode (items_of l)).
Proof.
  destruct l as [|c' l]; cbn [items_of].
  - each_char c; reflexivity.
  - generalize (items_of l). intros r.
    each_char c; try reflexivity; destruct (item_of c'); reflexivity.
Qed.

Lemma decode_items_of s : Parse.decode (items_of s) = s.
Proof.
  induction s as [|c s IH]; [reflexivity|].
  cbn [items_of]. rewrite decode_item_of, IH. reflexivity.
Qed.

Lemma quote_app s tail :
  JS.quote s ++ tail = String JS.dquote (JS.escape s ++ String JS.dquote tail).
Proof. unfold JS.quote. cbn [append]. rewrite append_assoc. reflexivity. Qed.

Lemma string_literal_escape s tail :
  Parse.string_literal (JS.escape s ++ String JS.dquote tail) = Some (s, tail).
Proof. unfold Parse.string_literal. rewrite items_escape, decode_items_of. reflexivity. Qed.


(** *** Numbers *)

Lemma uint_digits d : Text.all_chars JS.is_digit (NilEmpty.string_of_uint d) = true.
Proof. induction d; cbn [NilEmpty.string_of_uint Text.all_chars]; try rewrite IHd; reflexivity. Qed.

Lemma digit_range c : JS.is_digit c = true -> 48 <= Text.byte_of c <= 57.
Proof. unfold JS.is_digit. cbv zeta. intros H. apply andb_true_iff in H. lia. Qed.

Lemma span_digits_app d rest :
  Text.all_chars JS.is_digit d = true ->
  match rest with EmptyString => true | String c _ => negb (JS.is_digit c) end = true ->
  Parse.span_digits (d ++ rest) = (d, rest).
Proof.
  intros Hd Hr. induction d as [|c d IH].
  - destruct rest as [|c r]; [reflexivity|]. cbn [append Parse.span_digits].
    apply negb_true_iff in Hr. rewrite Hr. reflexivity.
  - cbn [Text.all_chars] in Hd. apply andb_true_iff in Hd. destruct Hd as [Hc Hd].
    cbn [append Parse.span_digits]. rewrite Hc, (IH Hd). reflexivity.
Qed.

(** The value of the digits of a positive number. *)
Lemma digits_value_acc d : forall acc,
  JS.digits_value (NilEmpty.string_of_uint d) (Z.pos acc) = Z.pos (Pos.of_uint_acc d acc).
Proof.
  induction d; intros acc; cbn [NilEmpty.string_of_uint JS.digits_value Pos.of_uint_acc];
    try reflexivity.
  all: rewrite <- IHd; f_equal.
  all: match goal with |- context [Text.byte_of ?c] =>
         let b := fresh in set (b := Text.byte_of c); vm_compute in b; subst b end.
  all: lia.
Qed.

Lemma digits_value_uint d :
  JS.digits_value (NilEmpty.string_of_uint d) 0 = Z.of_N (Pos.of_uint d).
Proof.
  induction d; cbn [NilEmpty.string_of_uint JS.digits_value Pos.of_uint]; try reflexivity.
  1: exact IHd.
  all: match goal with |- context [Text.byte_of ?c] =>
         let b := fresh in set (b := Text.byte_of c); vm_compute in b; subst b end.
  all: cbn [Z.mul Z.add Z.of_N]; apply digits_value_acc.
Qed.

Lemma nzhead_head d d' : Decimal.nzhead d <> Decimal.D0 d'.
Proof. induction d; cbn [Decimal.nzhead]; try discriminate. exact IHd. Qed.

(** The decimal text of a positive number: digits, the first of them not a
    zero, and their value. *)
Lemma dec_pos p :
  exists c t,
    JS.dec (Z.pos p) = String c t
    /\ JS.is_digit c = true /\ (Text.byte_of c =? 48) = false
    /\ Text.all_chars JS.is_digit t = true
    /\ JS.digits_value (String c t) 0 = Z.pos p.
Proof.
  unfold JS.dec. cbn [Z.to_int NilZero.string_of_int].
  pose proof (Unsigned.to_uint_nonnil p) as Hn.
  assert (Hz : forall d', Pos.to_uint p <> Decimal.D0 d').
  { intros d' E. pose proof (Unsigned.to_of (Pos.to_uint p)) as H.
    rewrite Unsigned.of_to in H. cbn [N.to_uint] in H.
    unfold Decimal.unorm in H. destruct (Decimal.nzhead (Pos.to_uint p)) eqn:En;
      [exact (Unsigned.to_uint_nonzero p H)
      |exact (nzhead_head _ _ En)
      |rewrite E in H; discriminate H..]. }
  pose proof (digits_value_uint (Pos.to_uint p)) as Hv.
  rewrite Unsigned.of_to in Hv. cbn [Z.of_N] in Hv.
  pose proof (uint_digits (Pos.to_uint p)) as Hd.
  unfold NilZero.string_of_uint.
  destruct (Pos.to_uint p) as [|d|d|d|d|d|d|d|d|d|d].
  1: contradiction.
  1: exfalso; apply (Hz d); reflexivity.
  all: cbn [NilEmpty.string_of_uint Text.all_chars] in *.
  all: eexists _, _; split; [reflexivity|].
  all: split; [reflexivity|]; split; [reflexivity|]; split; [|exact Hv].
  all: apply andb_true_iff in Hd; apply Hd.
Qed.

Lemma dec_neg p : JS.dec (Z.neg p) = String "-" (JS.dec (Z.pos p)).
Proof. reflexivity. Qed.

(** *** Texts of digits *)

Lemma all_chars_app p a b :
  Text.all_chars p (a ++ b) = Text.all_chars p a && Text.all_chars p b.
Proof.
  induction a as [|c a IH]; [reflexivity|]. cbn [append Text.all_chars].
  rewrite IH. apply andb_assoc.
Qed.

Lemma take_slice n s : JS.take n s ++ Text.slice n s = s.
Proof.
  revert s. induction n as [|n IH]; intros [|c s]; try reflexivity.
  cbn [JS.take Text.slice append]. rewrite IH. reflexivity.
Qed.

Lemma zeros_digits k : Text.all_chars JS.is_digit (JS.zeros k) = true.
Proof. induction k as [|k IH]; [reflexivity|]. cbn [JS.zeros Text.all_chars]. rewrite IH. reflexivity. Qed.

Lemma zeros_length k : String.length (JS.zeros k) = k.
Proof. induction k as [|k IH]; [reflexivity|]. cbn [JS.zeros String.length]. rewrite IH. reflexivity. Qed.

Lemma digits_value_app a b acc :
  JS.digits_value (a ++ b) acc = JS.digits_value b (JS.digits_value a acc).
Proof. revert acc. induction a as [|c a IH]; intros acc; [reflexivity|]. cbn [append JS.digits_value]. apply IH. Qed.

Lemma digits_value_zeros k acc :
  JS.digits_value (JS.zeros k) acc = acc * 10 ^ Z.of_nat k.
Proof.
  revert acc. induction k as [|k IH]; intros acc.
  - cbn [JS.zeros JS.digits_value Z.of_nat]. rewrite Z.pow_0_r. lia.
  - cbn [JS.zeros JS.digits_value]. rewrite IH, Nat2Z.inj_succ, Z.pow_succ_r by lia.
    change (Text.byte_of "0" - 48) with 0. lia.
Qed.

Lemma significant_zeros s : exists k, s = JS.significant s ++ JS.zeros k.
Proof.
  induction s as [|c s [k IH]]; [exists 0%nat; reflexivity|].
  cbn [JS.significant]. cbv zeta.
  destruct (String.eqb (JS.significant s) "" && (Text.byte_of c =? 48)) eqn:E.
  - apply andb_true_iff in E. destruct E as [Es Ec]. apply String.eqb_eq in Es.
    exists (S k). rewrite Es in IH. cbn [append] in *. rewrite IH at 1. cbn [JS.zeros].
    f_equal. clear -Ec. each_char c; try discriminate Ec; reflexivity.
  - exists k. cbn [append]. rewrite <- IH. reflexivity.
Qed.

Lemma significant_digits s :
  Text.all_chars JS.is_digit s = true -> Text.all_chars JS.is_digit (JS.significant s) = true.
Proof.
  intros H. destruct (significant_zeros s) as [k E]. rewrite E, all_chars_app in H.
  apply andb_true_iff in H. apply H.
Qed.

(** *** Numerals *)

Lemma delimited_no_digit rest : delimited rest = true -> no_digit rest = true.
Proof.
  destruct rest as [|c r]; [reflexivity|]. cbn [delimited no_digit]. intros H.
  apply negb_true_iff in H. apply orb_false_iff in H. destruct H as [H _].
  apply orb_false_iff in H. destruct H as [H _]. apply orb_false_iff in H.
  destruct H as [H _]. rewrite H. reflexivity.
Qed.

Lemma delimited_no_point rest : delimited rest = true -> no_point rest = true.
Proof.
  destruct rest as [|c r]; [reflexivity|]. cbn [delimited no_point]. intros H.
  apply negb_true_iff in H. apply orb_false_iff in H. destruct H as [H _].
  apply orb_false_iff in H. destruct H as [H _]. apply orb_false_iff in H.
  destruct H as [_ H]. rewrite H. reflexivity.
Qed.

Lemma exponent_none rest : delimited rest = true -> Parse.exponent rest = Some (0, rest).
Proof.
  destruct rest as [|c r]; [reflexivity|]. cbn [delimited]. intros H.
  apply negb_true_iff in H. apply orb_false_iff in H. destruct H as [H H69].
  apply orb_false_iff in H. destruct H as [_ H101].
  unfold Parse.exponent. rewrite H101, H69. reflexivity.
Qed.

Lemma span_digits_rest d rest :
  Text.all_chars JS.is_digit d = true -> no_digit rest = true ->
  Parse.span_digits (d ++ rest) = (d, rest).
Proof. intros Hd Hr. apply span_digits_app; assumption. Qed.

Lemma exponent_signed (minus : bool) p rest :
  no_digit rest = true ->
  Parse.exponent (("e" ++ (if minus then "-" else "+") ++ JS.dec (Z.pos p)) ++ rest)
  = Some ((if minus then -1 else 1) * Z.pos p, rest).
Proof.
  intros Hr. destruct (dec_pos p) as (c & t & E & Hc & _ & Ht & Hv).
  assert (Hs : Parse.span_digits (JS.dec (Z.pos p) ++ rest) = (JS.dec (Z.pos p), rest)).
  { apply span_digits_rest; [|exact Hr]. rewrite E. cbn [Text.all_chars]. rewrite Hc. exact Ht. }
  assert (He : String.eqb (JS.dec (Z.pos p)) "" = false) by (rewrite E; reflexivity).
  destruct minus; cbn [append]; unfold Parse.exponent;
    change (Text.byte_of "e" =? 101) with true; cbn [orb]; cbv beta match.
  - change (Text.byte_of "-" =? 45) with true. cbv beta match.
    rewrite Hs, He. rewrite E at 1. rewrite Hv. reflexivity.
  - change (Text.byte_of "+" =? 45) with false. change (Text.byte_of "+" =? 43) with true.
    cbv beta match. rewrite Hs, He. rewrite E at 1. rewrite Hv. reflexivity.
Qed.

Lemma exponent_of_reads ex x rest :
  exponent_of ex x -> delimited rest = true ->
  Parse.exponent (ex ++ rest) = Some (x, rest)
  /\ no_digit (ex ++ rest) = true
  /\ (ex = "" \/ no_point (ex ++ rest) = true).
Proof.
  intros [[-> ->]|(minus & p & -> & ->)] Hr.
  - cbn [append]. split; [apply exponent_none, Hr|]. split; [apply delimited_no_digit, Hr|].
    left. reflexivity.
  - split; [apply exponent_signed, delimited_no_digit, Hr|]. split; [reflexivity|].
    right. reflexivity.
Qed.

Lemma magnitude_numeral neg c t fp ex x rest :
  JS.is_digit c = true -> Text.all_chars JS.is_digit t = true ->
  Parse.int_ok (String c t) = true ->
  Text.all_chars JS.is_digit fp = true ->
  no_digit ex = true -> (fp = "" -> no_point ex = true) ->
  Parse.exponent ex = Some (x, rest) ->
  Parse.magnitude neg (String c t ++ (if String.eqb fp "" then "" else "." ++ fp) ++ ex)
  = Some (Parse.normal neg (JS.digits_value (String c t ++ fp) 0)
            (x - Z.of_nat (String.length fp)), rest).
Proof.
  intros Hc Ht Hi Hf Hd Hp He. unfold Parse.magnitude.
  rewrite span_digits_rest; [|cbn [Text.all_chars]; rewrite Hc; exact Ht|].
  2:{ destruct fp; [exact Hd|reflexivity]. }
  rewrite Hi. destruct fp as [|d fp].
  - cbn [String.eqb append]. specialize (Hp eq_refl).
    replace (Parse.fraction ex) with (Some ("", ex)).
    2:{ destruct ex as [|e ex]; [reflexivity|]. cbn [no_point] in Hp.
        apply negb_true_iff in Hp. unfold Parse.fraction. rewrite Hp. reflexivity. }
    rewrite He. reflexivity.
  - cbn [String.eqb]. change (("." ++ String d fp) ++ ex) with (String "." (String d fp ++ ex)).
    unfold Parse.fraction. change (Text.byte_of "." =? 46) with true. cbv beta match.
    rewrite (span_digits_rest _ _ Hf Hd). cbn [String.eqb]. rewrite He. reflexivity.
Qed.

Lemma number_numeral neg c t fp ex x rest :
  JS.is_digit c = true -> Text.all_chars JS.is_digit t = true ->
  Parse.int_ok (String c t) = true ->
  Text.all_chars JS.is_digit fp = true ->
  no_digit ex = true -> (fp = "" -> no_point ex = true) ->
  Parse.exponent ex = Some (x, rest) ->
  Parse.number (numeral neg (String c t) fp ex)
  = Some (Parse.normal neg (JS.digits_value (String c t ++ fp) 0)
            (x - Z.of_nat (String.length fp)), rest).
Proof.
  intros Hc Ht Hi Hf Hd Hp He. unfold numeral.
  pose proof (magnitude_numeral neg c t fp ex x rest Hc Ht Hi Hf Hd Hp He) as Hm.
  destruct neg.
  - exact Hm.
  - cbn [append] in *. unfold Parse.number.
    replace (Text.byte_of c =? 45) with false; [exact Hm|].
    symmetry. apply digit_range in Hc. lia.
Qed.

Lemma numeral_app neg ip fp ex rest :
  numeral neg ip fp ex ++ rest = numeral neg ip fp (ex ++ rest).
Proof.
  unfold numeral. destruct neg, (String.eqb fp "");
    cbn [append]; rewrite ?append_assoc; cbn [append]; rewrite ?append_assoc; reflexivity.
Qed.

Lemma value_numeral f c t :
  Parse.numeral_char c = true ->
  Parse.value (S f) (String c t) = Parse.number (String c t).
Proof. intros Hc. each_char c; try discriminate Hc; reflexivity. Qed.

Lemma denotes_head text v :
  denotes text v -> exists c t, text = String c t /\ Parse.numeral_char c = true.
Proof.
  intros (neg & c & t & fp & ex & x & -> & Hc & _). unfold numeral. destruct neg.
  - eexists _, _. split; reflexivity.
  - exists c. eexists. split; [reflexivity|]. unfold Parse.numeral_char. rewrite Hc. reflexivity.
Qed.

(** The parser reads a numeral as the number it denotes. *)
Lemma denotes_value f text v rest :
  denotes text v -> delimited rest = true ->
  Parse.value (S f) (text ++ rest) = Some (v, rest).
Proof.
  intros Hd Hr. destruct (denotes_head _ _ Hd) as (c0 & t0 & E0 & Hc0).
  destruct Hd as (neg & c & t & fp & ex & x & E & Hc & Ht & Hi & Hf & Hx & <-).
  destruct (exponent_of_reads ex x rest Hx Hr) as (He & Hn & Hp).
  rewrite E0. cbn [append]. rewrite (value_numeral f c0 _ Hc0).
  change (String c0 (t0 ++ rest)) with (String c0 t0 ++ rest). rewrite <- E0, E, numeral_app.
  apply number_numeral; try assumption.
  intros ->. destruct Hp as [->|Hp]; [|exact Hp]. apply delimited_no_point, Hr.
Qed.

(** The digits of a number that is not negative. *)
Lemma dec_abs n :
  exists c t,
    JS.dec (Z.abs n) = String c t
    /\ JS.is_digit c = true /\ Text.all_chars JS.is_digit t = true
    /\ Parse.int_ok (String c t) = true
    /\ (n <> 0 -> (Text.byte_of c =? 48) = false)
    /\ JS.digits_value (String c t) 0 = Z.abs n.
Proof.
  destruct n as [|p|p]; cbn [Z.abs].
  - exists "0"%char, "". repeat split; try reflexivity. intros H. congruence.
  - destruct (dec_pos p) as (c & t & E & Hc & H0 & Ht & Hv). exists c, t.
    repeat split; try assumption; [cbn [Parse.int_ok]; rewrite H0; reflexivity|intros _; exact H0].
  - destruct (dec_pos p) as (c & t & E & Hc & H0 & Ht & Hv). exists c, t.
    repeat split; try assumption; [cbn [Parse.int_ok]; rewrite H0; reflexivity|intros _; exact H0].
Qed.

Lemma sign_abs n : (if n <? 0 then -1 else 1) * Z.abs n = n.
Proof. destruct (Z.ltb_spec n 0); lia. Qed.

Lemma normal_power neg m k :
  0 <= k -> Parse.normal neg m k = JNum ((if neg then -1 else 1) * m * 10 ^ k).
Proof.
  intros Hk. unfold Parse.normal. cbv zeta. destruct (Z.eqb_spec m 0) as [->|_].
  - f_equal. lia.
  - destruct (Z.leb_spec 0 k); [reflexivity|lia].
Qed.

(** [String(n)] is a numeral that denotes [n]. *)
Lemma dec_denotes n : denotes (JS.dec n) (JNum n).
Proof.
  destruct (dec_abs n) as (c & t & E & Hc & Ht & Hi & _ & Hv).
  exists (n <? 0), c, t, "", "", 0. repeat split; try assumption.
  - unfold numeral. cbn [String.eqb]. rewrite !append_nil_r, <- E.
    destruct n as [|p|p]; reflexivity.
  - left. split; reflexivity.
  - rewrite append_nil_r, Hv. cbn [String.length Z.of_nat Z.sub Z.opp Z.add].
    rewrite normal_power by lia. f_equal. rewrite Z.pow_0_r.
    pose proof (sign_abs n). lia.
Qed.

Lemma significant_head c t :
  (Text.byte_of c =? 48) = false -> JS.significant (String c t) = String c (JS.significant t).
Proof. intros H. cbn [JS.significant]. cbv zeta. rewrite H, andb_false_r. reflexivity. Qed.

Lemma integral_denotes n : denotes (JS.integral n) (JNum n).
Proof.
  unfold JS.integral. destruct (Z.ltb_spec (Z.abs n) (10 ^ 21)) as [_|Hbig]; [apply dec_denotes|].
  cbv zeta. assert (Hn : n <> 0) by (intros ->; cbn in Hbig; lia).
  destruct (dec_abs n) as (c & t & E & Hc & Ht & Hi & H0 & Hv). specialize (H0 Hn).
  rewrite E, (significant_head _ _ H0). cbn [JS.take Text.slice String.length].
  destruct (significant_zeros t) as [k Ek].
  assert (Hlen : String.length t = (String.length (JS.significant t) + k)%nat).
  { rewrite Ek at 1. rewrite append_length, zeros_length. reflexivity. }
  assert (Hpos : (0 < String.length t)%nat).
  { destruct t as [|d t]; [|cbn [String.length]; lia]. exfalso.
    cbn [JS.digits_value] in Hv. apply digit_range in Hc.
    assert (10 ^ 21 = 1000000000000000000000) by reflexivity. lia. }
  exists (n <? 0), c, "", (JS.significant t), ("e+" ++ JS.dec (Z.of_nat (S (String.length t)) - 1)),
    (Z.of_nat (String.length t)).
  split; [reflexivity|]. split; [exact Hc|]. split; [reflexivity|].
  split; [cbn [Parse.int_ok]; rewrite H0; reflexivity|].
  split; [apply significant_digits, Ht|]. split.
  - right. exists false, (Pos.of_nat (String.length t)).
    replace (Z.of_nat (S (String.length t)) - 1) with (Z.pos (Pos.of_nat (String.length t))) by lia.
    split; [reflexivity|]. lia.
  - cbn [append]. rewrite normal_power by lia. f_equal.
    replace (Z.of_nat (String.length t) - Z.of_nat (String.length (JS.significant t)))
      with (Z.of_nat k) by lia.
    rewrite <- (sign_abs n) at 2. rewrite <- Hv. rewrite Ek at 2.
    change (String c (JS.significant t ++ JS.zeros k))
      with (String c (JS.significant t) ++ JS.zeros k).
    rewrite digits_value_app, digits_value_zeros. lia.
Qed.

Lemma slice_length n s : String.length (Text.slice n s) = (String.length s - n)%nat.
Proof.
  revert s. induction n as [|n IH]; intros [|c s]; cbn [Text.slice String.length]; try lia.
  rewrite IH. lia.
Qed.

Lemma take_digits p n s :
  Text.all_chars p s = true -> Text.all_chars p (JS.take n s) = true.
Proof.
  intros H. rewrite <- (take_slice n s), all_chars_app in H. apply andb_true_iff in H. apply H.
Qed.

Lemma slice_digits p n s :
  Text.all_chars p s = true -> Text.all_chars p (Text.slice n s) = true.
Proof.
  intros H. rewrite <- (take_slice n s), all_chars_app in H. apply andb_true_iff in H. apply H.
Qed.

Lemma nonempty_length s : (0 < String.length s)%nat -> String.eqb s "" = false.
Proof. destruct s; cbn [String.length]; [lia|reflexivity]. Qed.

(** [String(x)] for [m / 10^e] is a numeral that denotes the number in
    lowest terms. *)
Lemma decimal_denotes m e : denotes (JS.decimal m (Z.pos e)) (reread (JFrac m e)).
Proof.
  unfold JS.decimal. cbv zeta. cbn [reread].
  destruct (dec_abs m) as (c & t & E & Hc & Ht & Hi & _ & Hv). rewrite E.
  cbn [String.length]. set (L := String.length t).
  destruct (Z.ltb_spec 0 (Z.of_nat (S L) - Z.pos e)) as [Hn|Hn];
    [|destruct (Z.ltb_spec (-6) (Z.of_nat (S L) - Z.pos e)) as [Hs|Hs]].
  - (* the point inside the digits *)
    destruct (Z.to_nat (Z.of_nat (S L) - Z.pos e)) as [|k] eqn:Ek; [lia|].
    cbn [JS.take Text.slice].
    assert (Hl : String.length (Text.slice k t) = Pos.to_nat e).
    { rewrite slice_length. fold L. lia. }
    exists (m <? 0), c, (JS.take k t), (Text.slice k t), "", 0.
    split.
    { unfold numeral. rewrite nonempty_length by lia. rewrite append_nil_r. reflexivity. }
    split; [exact Hc|]. split; [apply take_digits, Ht|]. split.
    { cbn [Parse.int_ok] in *. apply orb_true_iff in Hi. destruct Hi as [Hi|Hi].
      - rewrite Hi. reflexivity.
      - apply String.eqb_eq in Hi. subst t. destruct k; rewrite orb_true_r; reflexivity. }
    split; [apply slice_digits, Ht|]. split; [left; split; reflexivity|].
    cbn [append]. rewrite take_slice, Hv, Hl. f_equal. lia.
  - (* zeros between the point and the digits *)
    set (k := Z.to_nat (- (Z.of_nat (S L) - Z.pos e))).
    exists (m <? 0), "0"%char, "", (JS.zeros k ++ String c t), "", 0.
    split.
    { unfold numeral. rewrite nonempty_length by (rewrite append_length; cbn [String.length]; lia).
      rewrite append_nil_r. reflexivity. }
    split; [reflexivity|]. split; [reflexivity|]. split; [reflexivity|]. split.
    { rewrite all_chars_app, zeros_digits. cbn [Text.all_chars andb]. rewrite Hc. exact Ht. }
    split; [left; split; reflexivity|].
    change (String "0" "" ++ JS.zeros k ++ String c t) with (JS.zeros (S k) ++ String c t).
    rewrite digits_value_app, digits_value_zeros. cbn [Z.mul].
    rewrite Hv, append_length, zeros_length. cbn [String.length]. fold L. f_equal. lia.
  - (* the exponent form *)
    cbn [JS.take Text.slice].
    exists (m <? 0), c, "", t,
      ("e-" ++ JS.dec (1 - (Z.of_nat (S L) - Z.pos e))), (- (1 - (Z.of_nat (S L) - Z.pos e))).
    split; [reflexivity|]. split; [exact Hc|]. split; [reflexivity|]. split.
    { cbn [Parse.int_ok]. rewrite orb_true_r. reflexivity. }
    split; [exact Ht|]. split.
    { right. exists true, (Z.to_pos (1 - (Z.of_nat (S L) - Z.pos e))).
      rewrite Z2Pos.id by lia. split; [reflexivity|]. lia. }
    cbn [append]. rewrite Hv. fold L. f_equal. lia.
Qed.

(** *** Values *)

(** Induction on a value, with the property at hand for the elements of an
    array and for the members of an object. *)
Lemma JSON_induction (P : JSON -> Prop) :
  P JNull -> (forall b, P (JBool b)) -> (forall n, P (JNum n)) ->
  (forall m e, P (JFrac m e)) ->
  (forall s, P (JStr s)) ->
  (forall l, Forall P l -> P (JArr l)) ->
  (forall o, Forall (fun kv => P (snd kv)) o -> P (JObj o)) ->
  forall v, P v.
Proof.
  intros Hnull Hbool Hnum Hfrac Hstr Harr Hobj.
  fix IH 1. intros [ |b|n|m e|s|l|o].
  - exact Hnull.
  - apply Hbool.
  - apply Hnum.
  - apply Hfrac.
  - apply Hstr.
  - apply Harr. induction l as [|x l IHl]; constructor; [apply IH|exact IHl].
  - apply Hobj. induction o as [|[k x] o IHo]; constructor; [apply IH|exact IHo].
Qed.

#[local] Transparent JS.stringify.

Lemma stringify_arr l : JS.stringify (JArr l) = "[" ++ elems_text l ++ "]".
Proof. reflexivity. Qed.

Lemma stringify_obj o : JS.stringify (JObj o) = "{" ++ members_text o ++ "}".
Proof. reflexivity. Qed.

Lemma nodes_cons x l :
  nodes (JArr (x :: l)) = S (nodes x + nodes (JArr l)).
Proof. cbn [nodes]. lia. Qed.

Lemma nodes_member k x o :
  nodes (JObj ((k, x) :: o)) = S (nodes x + nodes (JObj o)).
Proof. cbn [nodes]. lia. Qed.

Lemma skip_ws_head c t : Parse.is_ws c = false -> Parse.skip_ws (String c t) = String c t.
Proof. intros H. cbn [Parse.skip_ws]. rewrite H. reflexivity. Qed.

(** The first character of the text of a value is neither white space nor a
    closing bracket. *)
Lemma value_string f r :
  Parse.value (S f) (String JS.dquote r)
  = match Parse.string_literal r with
    | Some (t, rest) => Some (JStr t, rest)
    | None => None
    end.
Proof. reflexivity. Qed.

Lemma value_array f c t :
  Parse.is_ws c = false -> (Text.byte_of c =? 93) = false ->
  Parse.value (S f) (String "[" (String c t))
  = match Parse.elements f (String c t) with
    | Some (l, rest) => Some (JArr l, rest)
    | None => None
    end.
Proof.
  intros Hw Hc.
  change (Parse.value (S f) (String "[" (String c t)))
    with (match Parse.skip_ws (String c t) with
          | String c1 r1 =>
              if Text.byte_of c1 =? 93 then Some (JArr [], r1)
              else match Parse.elements f (String c t) with
                   | Some (l, rest) => Some (JArr l, rest)
                   | None => None
                   end
          | EmptyString => None
          end).
  rewrite (skip_ws_head _ _ Hw), Hc. reflexivity.
Qed.

Lemma value_object f r :
  Parse.value (S f) (String "{" (String JS.dquote r))
  = match Parse.members f [] (String JS.dquote r) with
    | Some (o, rest) => Some (JObj o, rest)
    | None => None
    end.
Proof. reflexivity. Qed.

Lemma elements_step f s :
  Parse.elements (S f) s
  = match Parse.value f s with
    | Some (v, rest) =>
        match Parse.skip_ws rest with
        | String c r =>
            if Text.byte_of c =? 44 then
              match Parse.elements f r with
              | Some (l, rest') => Some (v :: l, rest')
              | None => None
              end
            else if Text.byte_of c =? 93 then Some ([v], r)
            else None
        | EmptyString => None
        end
    | None => None
    end.
Proof. reflexivity. Qed.

Lemma members_step f acc k r1 :
  Parse.members (S f) acc
    (String JS.dquote (JS.escape k ++ String JS.dquote (String ":" r1)))
  = match Parse.value f r1 with
    | Some (v, rest1) =>
        match Parse.skip_ws rest1 with
        | String c2 r2 =>
            if Text.byte_of c2 =? 44 then Parse.members f (JS.obj_set acc k v) r2
            else if Text.byte_of c2 =? 125 then Some (JS.obj_set acc k v, r2)
            else None
        | EmptyString => None
        end
    | None => None
    end.
Proof.
  change (Parse.members (S f) acc
            (String JS.dquote (JS.escape k ++ String JS.dquote (String ":" r1))))
    with (match Parse.string_literal (JS.escape k ++ String JS.dquote (String ":" r1)) with
          | Some (k, rest) =>
              match Parse.skip_ws rest with
              | String c r1 =>
                  if Text.byte_of c =? 58 then
                    match Parse.value f r1 with
                    | Some (v, rest1) =>
                        let acc' := JS.obj_set acc k v in
                        match Parse.skip_ws rest1 with
                        | String c2 r2 =>
                            if Text.byte_of c2 =? 44 then Parse.members f acc' r2
                            else if Text.byte_of c2 =? 125 then Some (acc', r2)
                            else None
                        | EmptyString => None
                        end
                    | None => None
                    end
                  else None
              | EmptyString => None
              end
          | None => None
          end).
  rewrite string_literal_escape. reflexivity.
Qed.


Lemma numeral_char_head c :
  Parse.numeral_char c = true -> Parse.is_ws c = false /\ (Text.byte_of c =? 93) = false.
Proof. intros Hc. each_char c; try discriminate Hc; split; reflexivity. Qed.

(** The first character of the text of a value is neither white space nor a
    closing bracket. *)
Lemma stringify_head v :
  exists c t, JS.stringify v = String c t
              /\ Parse.is_ws c = false /\ (Text.byte_of c =? 93) = false.
Proof.
  destruct v as [ |[]|n|m e|s|l|o].
  - exists "n"%char, "ull". repeat split.
  - exists "t"%char, "rue". repeat split.
  - exists "f"%char, "alse". repeat split.
  - destruct (denotes_head _ _ (integral_denotes n)) as (c & t & E & Hc). exists c, t.
    split; [exact E|]. apply numeral_char_head, Hc.
  - destruct (denotes_head _ _ (decimal_denotes m e)) as (c & t & E & Hc). exists c, t.
    split; [exact E|]. apply numeral_char_head, Hc.
  - exists JS.dquote, (JS.escape s ++ String JS.dquote ""). repeat split.
  - rewrite stringify_arr. eexists _, _. repeat split.
  - rewrite stringify_obj. eexists _, _. repeat split.
Qed.

Lemma nodes_positive v : (1 <= nodes v)%nat.
Proof. destruct v; cbn [nodes]; lia. Qed.

Lemma reread_arr l : reread (JArr l) = JArr (map reread l).
Proof. reflexivity. Qed.

Lemma reread_obj o :
  reread (JObj o) = JObj (JS.literal (map (fun kv => (fst kv, reread (snd kv))) o)).
Proof. reflexivity. Qed.

Lemma elements_read l :
  Forall reads_back l -> l <> [] ->
  forall fuel rest, (nodes (JArr l) <= S fuel)%nat ->
    Parse.elements fuel (elems_text l ++ "]" ++ rest) = Some (map reread l, rest).
Proof.
  induction 1 as [|x l Hx Hl IH]; [congruence|]. intros _ fuel rest Hf.
  rewrite nodes_cons in Hf. pose proof (nodes_positive (JArr l)) as Hn.
  destruct fuel as [|f]; [lia|]. rewrite elements_step.
  cbn [elems_text]. rewrite append_assoc.
  rewrite Hx; [|lia|destruct l; reflexivity].
  destruct l as [|y l]; [reflexivity|].
  change (("," ++ elems_text (y :: l)) ++ "]" ++ rest)
    with (String "," (elems_text (y :: l) ++ "]" ++ rest)).
  rewrite skip_ws_head by reflexivity. cbv beta iota.
  change (Text.byte_of "," =? 44) with true. cbv beta iota.
  rewrite IH; [reflexivity|discriminate|lia].
Qed.

Lemma members_read o :
  Forall (fun kv => reads_back (snd kv)) o -> o <> [] ->
  forall fuel acc rest,
    (nodes (JObj o) <= S fuel)%nat ->
    Parse.members fuel acc (members_text o ++ "}" ++ rest)
    = Some (fold_left (fun acc kv => JS.obj_set acc (fst kv) (snd kv))
              (map (fun kv => (fst kv, reread (snd kv))) o) acc, rest).
Proof.
  induction 1 as [|[k x] o Hx Ho IH]; [congruence|]. intros _ fuel acc rest Hf.
  rewrite nodes_member in Hf. pose proof (nodes_positive (JObj o)) as Hn.
  destruct fuel as [|f]; [lia|].
  cbn [members_text snd] in *. rewrite !append_assoc, quote_app.
  cbn [append]. rewrite members_step.
  rewrite Hx; [|lia|destruct o; reflexivity].
  destruct o as [|[k1 x1] o]; [reflexivity|].
  cbn [append]. rewrite skip_ws_head by reflexivity. cbv beta iota.
  change (Text.byte_of "," =? 44) with true. cbv beta iota.
  change (String "}" rest) with ("}" ++ rest).
  rewrite IH; [reflexivity|discriminate|lia].
Qed.

(** [JSON.parse] reads the text of a value back, whatever follows it that
    cannot continue a numeral, given fuel for the values in it. *)
Lemma value_stringify v : reads_back v.
Proof.
  induction v as [ |b|n|m e|s|l Hl|o Ho] using JSON_induction;
    intros fuel rest Hf Hr;
    (destruct fuel as [|f]; [pose proof (nodes_positive JNull); cbn [nodes] in Hf; lia|]).
  - reflexivity.
  - destruct b; reflexivity.
  - apply (denotes_value f _ _ _ (integral_denotes n) Hr).
  - apply (denotes_value f _ _ _ (decimal_denotes m e) Hr).
  - change (JS.stringify (JStr s)) with (JS.quote s).
    rewrite quote_app, value_string, string_literal_escape. reflexivity.
  - rewrite stringify_arr, reread_arr. destruct l as [|x l]; [reflexivity|].
    destruct (stringify_head x) as (c & t & E & Hw & Hc).
    rewrite !append_assoc. cbn [append elems_text].
    pose proof (elements_read (x :: l) Hl ltac:(discriminate) f rest Hf) as He.
    cbn [elems_text] in He. rewrite E in *. rewrite !append_assoc in *. cbn [append] in *.
    rewrite (value_array f _ _ Hw Hc), He. reflexivity.
  - rewrite stringify_obj, reread_obj. destruct o as [|[k x] o]; [reflexivity|].
    pose proof (members_read ((k, x) :: o) Ho ltac:(discriminate) f [] rest Hf) as Hm.
    cbn [members_text] in *. rewrite !append_assoc in *. rewrite quote_app in *.
    cbn [append] in *. rewrite value_object, Hm. reflexivity.
Qed.

(** The fuel [JSON_parse] takes is enough: a text has at least one
    character per value counted in [nodes]. *)
Lemma nodes_bound v : (nodes v <= String.length (JS.stringify v))%nat.
Proof.
  induction v as [ |b|n|m e|s|l Hl|o Ho] using JSON_induction.
  - cbn. lia.
  - destruct b; cbn; lia.
  - destruct (denotes_head _ _ (integral_denotes n)) as (c & t & E & _).
    change (JS.stringify (JNum n)) with (JS.integral n).
    rewrite E. cbn [nodes String.length]. lia.
  - destruct (denotes_head _ _ (decimal_denotes m e)) as (c & t & E & _).
    change (JS.stringify (JFrac m e)) with (JS.decimal m (Z.pos e)).
    rewrite E. cbn [nodes String.length]. lia.
  - cbn [nodes]. change (JS.stringify (JStr s)) with (JS.quote s).
    unfold JS.quote. cbn [String.length]. lia.
  - rewrite stringify_arr. cbn [append String.length]. rewrite append_length.
    cbn [String.length].
    enough (nodes (JArr l) <= String.length (elems_text l) + 2)%nat by lia.
    induction Hl as [|x l Hx Hl IH]; [cbn; lia|].
    rewrite nodes_cons. cbn [elems_text]. rewrite append_length.
    destruct l as [|y l]; [cbn [nodes String.length]; lia|].
    cbn [append String.length] in *. lia.
  - rewrite stringify_obj. cbn [append String.length]. rewrite append_length.
    cbn [String.length].
    enough (nodes (JObj o) <= String.length (members_text o) + 2)%nat by lia.
    induction Ho as [|[k x] o Hx Ho IH]; [cbn; lia|].
    rewrite nodes_member. cbn [members_text snd] in *. rewrite !append_length.
    destruct o as [|[k1 x1] o]; [cbn [nodes String.length]; lia|].
    cbn [append String.length] in *. lia.
Qed.

(** [JSON.parse(JSON.stringify(v))] is [v] read again. *)
Lemma parse_stringify v : JSON_parse (JS.stringify v) = Some (reread v).
Proof.
  unfold JSON_parse.
  pose proof (value_stringify v (2 * String.length (JS.stringify v) + 2)%nat ""
                ltac:(pose proof (nodes_bound v); lia) eq_refl) as H.
  rewrite append_nil_r in H. rewrite H. reflexivity.
Qed.

#[local] Opaque JS.stringify.

(** *** Values that read back as they are *)

Lemma strip_tens_lowest f m e :
  m mod 10 <> 0 -> Parse.strip_tens f m e = (m, e).
Proof.
  intros Hm. destruct f as [|f]; [reflexivity|]. cbn [Parse.strip_tens].
  apply Z.eqb_neq in Hm. rewrite Hm, andb_false_r. reflexivity.
Qed.

Lemma reread_lowest m e : (m mod 10 =? 0) = false -> reread (JFrac m e) = JFrac m e.
Proof.
  intros Hm. apply Z.eqb_neq in Hm. cbn [reread]. unfold Parse.normal. cbv zeta.
  assert (Ha : Z.abs m mod 10 <> 0).
  { intros H. apply Hm. apply Z.mod_divide in H; [|lia]. apply Z.mod_divide; [lia|].
    apply Z.divide_abs_r. exact H. }
  assert (H0 : Z.abs m <> 0) by (intros H; rewrite H in Ha; apply Ha; reflexivity).
  apply Z.eqb_neq in H0. rewrite H0. cbn [Z.leb Z.compare Z.opp].
  rewrite (strip_tens_lowest _ _ _ Ha). f_equal. destruct (Z.ltb_spec m 0); lia.
Qed.

Lemma own_key_order_later lo ks k i :
  own_key_order lo ks = true -> In k ks -> JS.array_index k = Some i -> lo < i.
Proof.
  revert lo. induction ks as [|k0 ks IH]; intros lo Ho Hin Hi; [destruct Hin|].
  cbn [own_key_order] in Ho. destruct (JS.array_index k0) as [j|] eqn:Ej.
  - apply andb_true_iff in Ho. destruct Ho as [Hlo Ho]. apply Z.ltb_lt in Hlo.
    destruct Hin as [->|Hin]; [congruence|].
    specialize (IH j Ho Hin Hi). lia.
  - apply andb_true_iff in Ho. destruct Ho as [Hall _].
    destruct Hin as [->|Hin]; [congruence|].
    rewrite forallb_forall in Hall. specialize (Hall k Hin). rewrite Hi in Hall.
    discriminate Hall.
Qed.

Lemma distinct_head k ks : distinct (k :: ks) = true -> In k ks -> False.
Proof.
  cbn [distinct]. intros H Hin. apply andb_true_iff in H. destruct H as [H _].
  apply negb_true_iff in H.
  assert (existsb (String.eqb k) ks = true).
  { apply existsb_exists. exists k. split; [exact Hin|apply String.eqb_refl]. }
  congruence.
Qed.

(** An assignment under a new key that comes after the first key of the
    object leaves that first property in place. *)
Lemma obj_set_cons k0 x0 acc k x :
  String.eqb k0 k = false ->
  match JS.array_index k with
  | Some i => exists j, JS.array_index k0 = Some j /\ (j <? i) = true
  | None => True
  end ->
  JS.obj_set ((k0, x0) :: acc) k x = (k0, x0) :: JS.obj_set acc k x.
Proof.
  intros Hk Hi. unfold JS.obj_set. rewrite has_key_head, Hk. cbn [orb].
  destruct (JS.has_key k acc).
  - cbn [JS.obj_update]. rewrite Hk. reflexivity.
  - destruct (JS.array_index k) as [i|].
    + destruct Hi as (j & Hj & Hlt). cbn [JS.obj_insert_index]. rewrite Hj, Hlt. reflexivity.
    + reflexivity.
Qed.

Lemma in_map_middle (acc rest : list (string * JSON)) k x :
  In k (map fst (acc ++ (k, x) :: rest)).
Proof. rewrite map_app. apply in_or_app. right. left. reflexivity. Qed.

(** Assigning the next property of an object in own-key order puts it
    after those before it. *)
Lemma obj_set_at_end k x rest : forall acc lo,
  own_key_order lo (map fst (acc ++ (k, x) :: rest)) = true ->
  JS.obj_set acc k x = (acc ++ [(k, x)])%list.
Proof.
  induction acc as [|[k0 x0] acc IH]; intros lo Ho.
  - unfold JS.obj_set. cbn [JS.has_key JS.lookup]. destruct (JS.array_index k); reflexivity.
  - cbn [app map fst own_key_order] in Ho. pose proof (in_map_middle acc rest k x) as Hin.
    destruct (JS.array_index k0) as [j|] eqn:Ej.
    + apply andb_true_iff in Ho. destruct Ho as [_ Ho].
      assert (Hlater : forall i, JS.array_index k = Some i -> j < i).
      { intros i Hi. apply (own_key_order_later _ _ _ _ Ho Hin Hi). }
      rewrite obj_set_cons, (IH j Ho); [reflexivity| |].
      * destruct (String.eqb k0 k) eqn:E; [|reflexivity]. apply String.eqb_eq in E. subst k0.
        specialize (Hlater j Ej). lia.
      * destruct (JS.array_index k) as [i|] eqn:Ei; [|exact I].
        exists j. split; [exact Ej|]. apply Z.ltb_lt, Hlater. reflexivity.
    + apply andb_true_iff in Ho. destruct Ho as [Hall Hd].
      assert (Hnone : JS.array_index k = None).
      { rewrite forallb_forall in Hall. specialize (Hall k Hin).
        destruct (JS.array_index k); [discriminate Hall|reflexivity]. }
      assert (Ho' : own_key_order lo (map fst (acc ++ (k, x) :: rest)) = true).
      { cbn [distinct] in Hd. apply andb_true_iff in Hd. destruct Hd as [_ Hd].
        destruct (map fst (acc ++ (k, x) :: rest)) as [|k1 ks] eqn:Em; [reflexivity|].
        cbn [own_key_order]. cbn [forallb] in Hall.
        apply andb_true_iff in Hall. destruct Hall as [H1 Hall].
        destruct (JS.array_index k1); [discriminate H1|]. rewrite Hall, Hd. reflexivity. }
      rewrite obj_set_cons, (IH lo Ho'); [reflexivity| |rewrite Hnone; exact I].
      destruct (String.eqb k0 k) eqn:E; [|reflexivity]. apply String.eqb_eq in E. subst k0.
      exfalso. apply (distinct_head _ _ Hd Hin).
Qed.

(** The properties of an object in own-key order, assigned one after the
    other, make the object. *)
Lemma fold_set_ordered o : forall acc lo,
  own_key_order lo (map fst (acc ++ o)) = true ->
  fold_left (fun acc kv => JS.obj_set acc (fst kv) (snd kv)) o acc = (acc ++ o)%list.
Proof.
  induction o as [|[k x] o IH]; intros acc lo Ho; [rewrite app_nil_r; reflexivity|].
  cbn [fold_left fst snd]. rewrite (obj_set_at_end k x o acc lo Ho).
  rewrite (IH _ lo); rewrite <- app_assoc; [reflexivity|exact Ho].
Qed.

Lemma literal_ordered o : own_key_order (-1) (map fst o) = true -> JS.literal o = o.
Proof. intros Ho. unfold JS.literal. apply (fold_set_ordered o [] (-1) Ho). Qed.

(** A genuine value is the value of its text. *)
Lemma reread_genuine v : genuine v = true -> reread v = v.
Proof.
  induction v as [ |b|n|m e|s|l Hl|o Ho] using JSON_induction; intros Hg; try reflexivity.
  - cbn [genuine] in Hg. apply negb_true_iff in Hg. apply reread_lowest, Hg.
  - cbn [genuine] in Hg. rewrite reread_arr. f_equal.
    induction Hl as [|x l Hx Hl IH]; [reflexivity|]. cbn [forallb] in Hg.
    apply andb_true_iff in Hg. destruct Hg as [Hgx Hgl].
    cbn [map]. rewrite (Hx Hgx), (IH Hgl). reflexivity.
  - cbn [genuine] in Hg. apply andb_true_iff in Hg. destruct Hg as [Hk Hg].
    rewrite reread_obj. f_equal.
    replace (map (fun kv => (fst kv, reread (snd kv))) o) with o; [apply literal_ordered, Hk|].
    clear Hk. induction Ho as [|[k x] o Hx Ho IH]; [reflexivity|]. cbn [forallb snd] in Hg.
    apply andb_true_iff in Hg. destruct Hg as [Hgx Hgl]. cbn [snd] in Hx.
    cbn [map fst snd]. rewrite (Hx Hgx), <- (IH Hgl). reflexivity.
Qed.

(** [JSON.parse(JSON.stringify(v))] is [v] for a genuine value. *)
Lemma parse_stringify_genuine v :
  genuine v = true -> JSON_parse (JS.stringify v) = Some v.
Proof. intros Hg. rewrite parse_stringify, (reread_genuine v Hg). reflexivity. Qed.
(* ------------------------------------------------------------------ *)
(** ** Hex text *)
(* ------------------------------------------------------------------ *)

Lemma string_of_hex_of_string s : Text.string_of_hex (Text.hex_of_string s) = Some s.
Proof.
  induction s as [|c s IH]; [reflexivity|].
  cbn [Text.hex_of_string Text.string_of_hex]. rewrite IH.
  each_char c; reflexivity.
Qed.

Lemma hex_of_string_chars s : Text.all_chars Text.is_hex (Text.hex_of_string s) = true.
Proof.
  induction s as [|c s IH]; [reflexivity|].
  cbn [Text.hex_of_string Text.all_chars]. rewrite IH.
  each_char c; reflexivity.
Qed.

Lemma hex_digit_cases (p : ascii -> bool) :
  p "0"%char = true -> p "1"%char = true -> p "2"%char = true -> p "3"%char = true ->
  p "4"%char = true -> p "5"%char = true -> p "6"%char = true -> p "7"%char = true ->
  p "8"%char = true -> p "9"%char = true -> p "a"%char = true -> p "b"%char = true ->
  p "c"%char = true -> p "d"%char = true -> p "e"%char = true -> p "f"%char = true ->
  forall n, p (Text.hex_digit (n mod 16)) = true.
Proof.
  intros. pose proof (Z.mod_pos_bound n 16 ltac:(lia)) as Hb.
  assert (E : n mod 16 = 0 \/ n mod 16 = 1 \/ n mod 16 = 2 \/ n mod 16 = 3
              \/ n mod 16 = 4 \/ n mod 16 = 5 \/ n mod 16 = 6 \/ n mod 16 = 7
              \/ n mod 16 = 8 \/ n mod 16 = 9 \/ n mod 16 = 10 \/ n mod 16 = 11
              \/ n mod 16 = 12 \/ n mod 16 = 13 \/ n mod 16 = 14 \/ n mod 16 = 15) by lia.
  repeat (destruct E as [E|E]; [rewrite E; assumption|]). rewrite E. assumption.
Qed.

Lemma hex_fixed_chars (p : ascii -> bool) :
  (forall n, p (Text.hex_digit (n mod 16)) = true) ->
  forall w n acc, Text.all_chars p acc = true ->
    Text.all_chars p (Text.hex_fixed w n acc) = true.
Proof.
  intros Hp. induction w as [|w IH]; intros n acc Ha; [exact Ha|].
  cbn [Text.hex_fixed]. apply IH. cbn [Text.all_chars]. rewrite Hp, Ha. reflexivity.
Qed.

Lemma lower_fixed s :
  Text.all_chars (fun c => Ascii.eqb (Ethers.lower_char c) c) s = true ->
  Ethers.lower s = s.
Proof.
  induction s as [|c s IH]; [reflexivity|]. cbn [Text.all_chars Ethers.lower].
  intros H. apply andb_true_iff in H. destruct H as [Hc Hs].
  apply Ascii.eqb_eq in Hc. rewrite Hc, (IH Hs). reflexivity.
Qed.

(** A transaction identifier is 32 bytes of lowercase hex. *)
Lemma hash32_lower id : Ethers.lower (Ethers.hash32 id) = Ethers.hash32 id.
Proof.
  apply lower_fixed. unfold Ethers.hash32. cbn [append Text.all_chars].
  change (Ascii.eqb (Ethers.lower_char "0") "0") with true.
  change (Ascii.eqb (Ethers.lower_char "x") "x") with true.
  cbn [andb]. apply hex_fixed_chars; [|reflexivity].
  apply (hex_digit_cases (fun c => Ascii.eqb (Ethers.lower_char c) c)); reflexivity.
Qed.

Lemma hash32_isHexString id : Ethers.isHexString (Ethers.hash32 id) (Some 32%nat) = true.
Proof.
  unfold Ethers.isHexString, Ethers.hash32.
  change (Text.startsWith ("0x" ++ Text.hex_fixed 64 id "") "0x") with true.
  change (Text.slice 2 ("0x" ++ Text.hex_fixed 64 id "")) with (Text.hex_fixed 64 id "").
  rewrite hex_fixed_chars; [|apply hex_digit_cases; reflexivity|reflexivity].
  cbn [append String.length]. rewrite hex_fixed_length. reflexivity.
Qed.

Lemma toUtf8String_hexlify text :
  Utf8.valid text = true -> Ethers.toUtf8String (Ethers.hexlify text) = Ok text.
Proof.
  intros Hv. unfold Ethers.toUtf8String, Ethers.hexlify, Ethers.isHexString.
  change (Text.startsWith ("0x" ++ Text.hex_of_string text) "0x") with true.
  change (Text.slice 2 ("0x" ++ Text.hex_of_string text)) with (Text.hex_of_string text).
  rewrite hex_of_string_chars, string_of_hex_of_string, Hv. reflexivity.
Qed.

(* ------------------------------------------------------------------ *)
(** ** Objects: the properties after assignments *)
(* ------------------------------------------------------------------ *)

(** Where every property under a key has one value, and there is one to
    find, assigning the properties in order leaves that value under it. *)
Lemma lookup_fold_const l : forall acc h v,
  (forall kv, In kv l -> fst kv = h -> snd kv = v) ->
  JS.lookup h l <> None \/ JS.lookup h acc = Some v ->
  JS.lookup h (fold_left (fun acc kv => JS.obj_set acc (fst kv) (snd kv)) l acc) = Some v.
Proof.
  induction l as [|[k x] l IH]; intros acc h v Hall Hsome.
  - destruct Hsome as [Hs|Hs]; [contradiction Hs; reflexivity|exact Hs].
  - cbn [fold_left fst snd]. apply IH.
    + intros kv Hin. apply Hall. right. exact Hin.
    + rewrite lookup_obj_set. cbn [JS.lookup] in Hsome.
      destruct (String.eqb k h) eqn:E.
      * right. f_equal. apply String.eqb_eq in E.
        apply (Hall (k, x)); [left; reflexivity|exact E].
      * exact Hsome.
Qed.

Lemma in_obj_update kv k v o :
  In kv (JS.obj_update k v o) -> snd kv = v /\ fst kv = k \/ In kv o.
Proof.
  induction o as [|[k' x] o IH]; [intros []|]. cbn [JS.obj_update].
  destruct (String.eqb k' k) eqn:E; cbn [In].
  - apply String.eqb_eq in E. subst k'. intros [<-|H]; [left; split; reflexivity|right; right; exact H].
  - intros [<-|H]; [right; left; reflexivity|].
    destruct (IH H) as [Hv|Hi]; [left; exact Hv|right; right; exact Hi].
Qed.

Lemma in_obj_insert_index kv i k v o :
  In kv (JS.obj_insert_index i k v o) -> kv = (k, v) \/ In kv o.
Proof.
  induction o as [|[k' x] o IH]; cbn [JS.obj_insert_index In].
  - intros [<-|[]]. left. reflexivity.
  - destruct (JS.array_index k') as [j|]; [destruct (j <? i)|]; cbn [In].
    + intros [<-|H]; [right; left; reflexivity|].
      destruct (IH H) as [Hv|Hi]; [left; exact Hv|right; right; exact Hi].
    + intros [<-|H]; [left; reflexivity|right; exact H].
    + intros [<-|H]; [left; reflexivity|right; exact H].
Qed.

(** The properties of an object after an assignment: the one assigned, and
    those it had. *)
Lemma in_obj_set kv o k v :
  In kv (JS.obj_set o k v) -> snd kv = v /\ fst kv = k \/ In kv o.
Proof.
  unfold JS.obj_set. destruct (JS.has_key k o); [apply in_obj_update|].
  destruct (JS.array_index k) as [i|].
  - intros H. destruct (in_obj_insert_index _ _ _ _ _ H) as [->|Hi];
      [left; split; reflexivity|right; exact Hi].
  - intros H. apply in_app_or in H. destruct H as [H|[<-|[]]];
      [right; exact H|left; split; reflexivity].
Qed.

Lemma in_fold_set entries : forall acc kv,
  In kv (fold_left (fun acc kv => JS.obj_set acc (fst kv) (snd kv)) entries acc) ->
  In kv acc \/ exists kv', In kv' entries /\ fst kv = fst kv' /\ snd kv = snd kv'.
Proof.
  induction entries as [|e entries IH]; intros acc kv H; [left; exact H|].
  cbn [fold_left] in H. destruct (IH _ _ H) as [Hi|(kv' & Hin & Hk & Hv)].
  - destruct (in_obj_set _ _ _ _ Hi) as [[Hv Hk]|Ho]; [|left; exact Ho].
    right. exists e. split; [left; reflexivity|split; assumption].
  - right. exists kv'. split; [right; exact Hin|split; assumption].
Qed.

Lemma lookup_none_in h o kv : JS.lookup h o = None -> In kv o -> fst kv <> h.
Proof.
  induction o as [|[k x] o IH]; [intros _ []|]. cbn [JS.lookup In].
  destruct (String.eqb k h) eqn:E; [discriminate|]. intros Hl [<-|Hi].
  - cbn [fst]. apply String.eqb_neq, E.
  - apply IH; assumption.
Qed.

Lemma lookup_none_forallb h o :
  JS.lookup h o = None ->
  forallb (fun kv => negb (String.eqb (fst kv) h)) o = true.
Proof.
  induction o as [|[k x] o IH]; [reflexivity|]. cbn [JS.lookup forallb fst].
  destruct (String.eqb k h); [discriminate|]. exact IH.
Qed.

Lemma lookup_map_reread h o :
  JS.lookup h (map (fun kv => (fst kv, reread (snd kv))) o)
  = option_map reread (JS.lookup h o).
Proof.
  induction o as [|[k x] o IH]; [reflexivity|]. cbn [map JS.lookup fst snd].
  destruct (String.eqb k h); [reflexivity|exact IH].
Qed.

(* ------------------------------------------------------------------ *)
(** ** The payload of an anchor *)
(* ------------------------------------------------------------------ *)

(** When the metadata has no [hash] of its own, the payload holds the hash
    in its prefixed form, under that key only. *)
Lemma txData_hash ts clean metadata :
  JS.lookup "hash" (JS.own_entries metadata) = None ->
  JS.lookup "hash" (BlockchainService.txData ts clean metadata)
  = Some (JStr ("0x" ++ clean))
  /\ forall kv, In kv (BlockchainService.txData ts clean metadata) ->
       fst kv = "hash" -> snd kv = JStr ("0x" ++ clean).
Proof.
  intros Hm. unfold BlockchainService.txData, JS.spread_into.
  change (JS.literal [("timestamp", JStr ts); ("hash", JStr ("0x" ++ clean))])
    with [("timestamp", JStr ts); ("hash", JStr ("0x" ++ clean))].
  split.
  - rewrite lookup_fold_other; [reflexivity|apply lookup_none_forallb, Hm].
  - intros kv Hin Hk. destruct (in_fold_set _ _ _ Hin) as [Hi|(kv' & Hi & Hk' & _)].
    + destruct Hi as [<-|[<-|[]]]; [discriminate Hk|reflexivity].
    + exfalso. apply (lookup_none_in _ _ _ Hm Hi). congruence.
Qed.

(** Read again, that payload holds the same hash. *)
Lemma txData_reread_hash ts clean metadata :
  JS.lookup "hash" (JS.own_entries metadata) = None ->
  JS.lookup "hash"
    (JS.literal (map (fun kv => (fst kv, reread (snd kv)))
                   (BlockchainService.txData ts clean metadata)))
  = Some (JStr ("0x" ++ clean)).
Proof.
  intros Hm. destruct (txData_hash ts clean metadata Hm) as [Hl Hall].
  unfold JS.literal. apply lookup_fold_const.
  - intros kv Hin Hk. apply in_map_iff in Hin. destruct Hin as ([k x] & <- & Hin).
    cbn [fst snd] in *. pose proof (Hall _ Hin Hk) as Hx. cbn [snd] in Hx.
    rewrite Hx. reflexivity.
  - left. rewrite lookup_map_reread, Hl. discriminate.
Qed.

(* ------------------------------------------------------------------ *)
(** ** Anchoring, then reading back *)
(* ------------------------------------------------------------------ *)

Lemma rethrow_throws {A} prefix code e w :
  exists e', fst (@BlockchainService.rethrow A prefix code e w) = Throw e'.
Proof.
  unfold BlockchainService.rethrow. destruct (is_BlockchainError e);
    eexists; reflexivity.
Qed.

Lemma find_snoc_new {T} (p : T -> bool) l x :
  existsb p l = false -> p x = true -> find p (l ++ [x])%list = Some x.
Proof.
  intros Hl Hx. induction l as [|a l IH]; cbn [app find existsb] in *.
  - rewrite Hx. reflexivity.
  - apply orb_false_iff in Hl. destruct Hl as [Ha Hl]. rewrite Ha. apply IH, Hl.
Qed.

Lemma find_snoc_some {T} (p : T -> bool) l x :
  p x = true -> exists y, find p (l ++ [x])%list = Some y.
Proof.
  intros Hx. induction l as [|a l IH]; cbn [app find].
  - rewrite Hx. eexists; reflexivity.
  - destruct (p a); [eexists; reflexivity|exact IH].
Qed.

Lemma sendTransaction_ok to value data w r w1 :
  Ethers.sendTransaction to value data w = (Ok r, w1) ->
  exists id,
    tx_hash (Ethers.tr_tx r) = Ethers.hash32 id
    /\ tx_data (Ethers.tr_tx r) = data
    /\ Ethers.known (Ethers.hash32 id) (ledger w) = false
    /\ txs (ledger w1) = (txs (ledger w) ++ [Ethers.tr_tx r])%list
    /\ receipts (ledger w1) = receipts (ledger w).
Proof.
  unfold Ethers.sendTransaction. destruct (outcomes (ledger w)) as [|o rest]; [discriminate|].
  destruct o as [c m|id bn bh gu gp|id c m|id bn bh gu gp]; try discriminate;
    (destruct (Ethers.known (Ethers.hash32 id) (ledger w)) eqn:Hk; [discriminate|]);
    intros H; injection H as <- <-; exists id; repeat split; exact Hk.
Qed.

Lemma wait_ok r w rc w1 :
  Ethers.wait r w = (Ok rc, w1) ->
  rc_hash rc = tx_hash (Ethers.tr_tx r)
  /\ txs (ledger w1) = txs (ledger w)
  /\ receipts (ledger w1) = (receipts (ledger w) ++ [rc])%list.
Proof.
  unfold Ethers.wait. destruct (Ethers.tr_outcome r); try discriminate.
  intros H. injection H as <- <-. repeat split.
Qed.

(** What a successful [storeHashOnBlockchain] leaves on the ledger. *)
Lemma storeHash_inv hash metadata w sr w' :
  BlockchainService.storeHashOnBlockchain hash metadata w = (Ok sr, w') ->
  exists ts tx rc,
    let text := JS.stringify (JObj (BlockchainService.txData ts (without_prefix hash) metadata)) in
    Utf8.valid text = true
    /\ Ethers.tx_of (ledger w') (BlockchainService.transactionHash sr) = Some tx
    /\ tx_data tx = Ethers.hexlify text
    /\ Ethers.receipt_of (ledger w') (BlockchainService.transactionHash sr) = Some rc
    /\ Ethers.isHexString (BlockchainService.transactionHash sr) (Some 32%nat) = true
    /\ BlockchainService.metadata sr
       = BlockchainService.txData ts (without_prefix hash) metadata.
Proof.
  unfold BlockchainService.storeHashOnBlockchain. intros H.
  apply try_catch_ok_inv in H.
  2:{ intros e w0. unfold bind, logger_error, log_line. apply rethrow_throws. }
  bind_inv H. bind_inv H. bind_inv H. bind_inv H. bind_inv H. bind_inv H. bind_inv H.
  bind_inv H. bind_inv H. bind_inv H. bind_inv H. bind_inv H.
  fold (without_prefix hash) in *.
  unfold lift, Ethers.toUtf8Bytes in S2.
  destruct (Utf8.valid _) eqn:Hvalid in S2; [|discriminate S2].
  injection S2 as <- <-.
  injection S3 as _ <-. injection S4 as <- <-.
  apply sendTransaction_ok in S5. destruct S5 as (id & Hid & Hdata & Hnew & Htx & Hrc).
  injection S6 as _ <-.
  apply wait_ok in S7. destruct S7 as (Hh & Htx' & Hrc').
  injection S8 as _ <-. injection S9 as _ <-. injection S10 as _ <-.
  injection H as <- <-.
  cbn [BlockchainService.transactionHash BlockchainService.metadata ledger set_log] in *.
  destruct (find_snoc_some (fun r => String.eqb (rc_hash r) (Ethers.hash32 id))
              (receipts (ledger w6)) a7) as [rc Hfound].
  { rewrite Hh, Hid. apply String.eqb_refl. }
  exists a1, (Ethers.tr_tx a5), rc. cbv zeta.
  rewrite Hh, Hid. split; [exact Hvalid|]. split; [|split; [exact Hdata|split; [|split]]].
  - unfold Ethers.tx_of. rewrite hash32_lower, Htx', Htx.
    apply find_snoc_new; [exact Hnew|]. rewrite Hid. apply String.eqb_refl.
  - unfold Ethers.receipt_of. rewrite hash32_lower, Hrc'. exact Hfound.
  - apply hash32_isHexString.
  - reflexivity.
Qed.

Lemma stringify_object_head o : exists t, JS.stringify (JObj o) = String "{" t.
Proof. rewrite stringify_obj. eexists. reflexivity. Qed.

(** The decoding block on the payload an anchor wrote: the payload read
    again, and its [hash]. *)
Lemma decodePayload_anchor o w :
  Utf8.valid (JS.stringify (JObj o)) = true ->
  BlockchainService.decodePayload (Ethers.hexlify (JS.stringify (JObj o))) w
  = (Ok (reread (JObj o),
         JS.lookup "hash" (JS.literal (map (fun kv => (fst kv, reread (snd kv))) o))), w).
Proof.
  intros Hv. unfold BlockchainService.decodePayload.
  destruct (stringify_object_head o) as [t Et].
  replace (negb (String.eqb (Ethers.hexlify (JS.stringify (JObj o))) "")
           && negb (String.eqb (Ethers.hexlify (JS.stringify (JObj o))) "0x")) with true
    by (rewrite Et; reflexivity).
  unfold try_catch, bind, lift. rewrite (toUtf8String_hexlify _ Hv), parse_stringify.
  unfold ret. rewrite reread_obj. reflexivity.
Qed.

Lemma with_prefix hash :
  Text.startsWith hash "0x" = true -> "0x" ++ without_prefix hash = hash.
Proof.
  unfold without_prefix. intros H. rewrite H.
  destruct hash as [|a [|b r]]; cbn [Text.startsWith] in H;
    [discriminate H|rewrite andb_false_r in H; discriminate H|].
  apply andb_true_iff in H. destruct H as [Ha H].
  apply andb_true_iff in H. destruct H as [Hb _].
  apply Ascii.eqb_eq in Ha, Hb. subst a b. reflexivity.
Qed.

(** C4 (amended). When [storeHashOnBlockchain] succeeds for a hash and
    metadata that has no [hash] property of its own, whatever else it holds,
    [retrieveHashFromBlockchain] of the transaction it reports, on the
    ledger it leaves, returns the payload that was written, as [JSON.parse]
    reads its text, which is the payload itself when it is genuine; the
    stored hash read from it is the hash in its prefixed form, which is the
    hash itself when it was passed with the prefix. *)
Theorem C4_anchor_recover_roundtrip hash metadata w sr w'
  (Hm : JS.lookup "hash" (JS.own_entries metadata) = None)
  (Hs : BlockchainService.storeHashOnBlockchain hash metadata w = (Ok sr, w')) :
  exists res,
    fst (BlockchainService.retrieveHashFromBlockchain
           (BlockchainService.transactionHash sr) w') = Ok res
    /\ BlockchainService.r_metadata res = reread (JObj (BlockchainService.metadata sr))
    /\ (genuine (JObj (BlockchainService.metadata sr)) = true ->
        BlockchainService.r_metadata res = JObj (BlockchainService.metadata sr))
    /\ BlockchainService.r_storedHash res = Some (JStr ("0x" ++ without_prefix hash))
    /\ (Text.startsWith hash "0x" = true ->
        BlockchainService.r_storedHash res = Some (JStr hash)).
Proof.
  destruct (storeHash_inv _ _ _ _ _ Hs) as (ts & tx & rc & Hv & Htx & Hd & Hrc & Hhex & Hmeta).
  cbv zeta in *.
  pose proof (txData_reread_hash ts (without_prefix hash) metadata Hm) as Hl.
  pose proof (isHexString_nonempty _ _ Hhex) as Hne.
  unfold BlockchainService.retrieveHashFromBlockchain.
  unfold try_catch, bind at 1 2 3 4 5.
  unfold Ethers.getTransaction, Ethers.getTransactionReceipt.
  unfold bind, ret, throw, lift, logger_info, logger_error, log_line.
  rewrite Hne, Hhex. cbn [orb negb ledger set_log]. rewrite Htx.
  cbn [ledger set_log]. rewrite Hrc, Hd.
  rewrite (decodePayload_anchor _ _ Hv), Hl.
  cbv [Ethers.configNetwork Ethers.getNetworkChainId BlockchainService.substring_of].
  eexists. split; [reflexivity|].
  cbn [BlockchainService.r_metadata BlockchainService.r_storedHash].
  rewrite Hmeta. split; [reflexivity|]. split; [intros Hg; apply reread_genuine, Hg|].
  split; [reflexivity|].
  intros Hx. rewrite (with_prefix _ Hx). reflexivity.
Qed.

(** C4 at the scenario's digest, with metadata that holds an index key, an
    object under an index key, a number in exponent form and a fraction. *)
Lemma C4_anchor_recover_roundtrip_witness :
  match BlockchainService.storeHashOnBlockchain ("0x" ++ Scenario.digest0)
          Scenario.meta_mixed Scenario.w0 with
  | (Ok sr, w') =>
      exists res,
        fst (BlockchainService.retrieveHashFromBlockchain
               (BlockchainService.transactionHash sr) w') = Ok res
        /\ BlockchainService.r_storedHash res = Some (JStr ("0x" ++ Scenario.digest0))
  | (Throw _, _) => False
  end.
Proof.
  destruct (BlockchainService.storeHashOnBlockchain ("0x" ++ Scenario.digest0)
              Scenario.meta_mixed Scenario.w0) as [[sr|e] w'] eqn:E.
  - destruct (C4_anchor_recover_roundtrip ("0x" ++ Scenario.digest0) Scenario.meta_mixed
                Scenario.w0 sr w' eq_refl E) as (res & Hr & _ & _ & _ & Hh).
    exists res. split; [exact Hr|]. apply Hh. reflexivity.
  - vm_compute in E. discriminate E.
Defined.

(** C4, the claim as written fails: metadata with a [hash] of its own
    replaces the digest in the payload, so what is read back is not the
    digest that was anchored. *)
Lemma C4_counterexample :
  BlockchainService.is_hex64 Scenario.digest0 = true
  /\ option_map BlockchainService.r_storedHash
       (returned (fst (Scenario.anchor_then_recover ("0x" ++ Scenario.digest0)
                         Scenario.meta_with_hash Scenario.w0)))
     = Some (Some (JStr "0xfeed")).
Proof. vm_compute. split; reflexivity. Qed.

(** A digest passed without its prefix is anchored, and read back, with it. *)
Example anchor_recover_bare_digest :
  option_map BlockchainService.r_storedHash
    (returned (fst (Scenario.anchor_then_recover Scenario.digest0
                      Scenario.meta0 Scenario.w0)))
  = Some (Some (JStr ("0x" ++ Scenario.digest0))).
Proof. vm_compute. reflexivity. Qed.

(** The payload written for the metadata with index keys, an exponent and a
    fraction is genuine, and is read back as written. *)
Example anchor_recover_mixed_payload :
  match Scenario.anchor_then_recover ("0x" ++ Scenario.digest0) Scenario.meta_mixed
          Scenario.w0 with
  | (Ok res, _) =>
      genuine (BlockchainService.r_metadata res) = true
      /\ JS.keys (match BlockchainService.r_metadata res with JObj o => o | _ => [] end)
         = ["0"; "timestamp"; "hash"; "farmerId"; "q"; "ph"]
      /\ JS.stringify (BlockchainService.r_metadata res)
         = JS.stringify (JObj (BlockchainService.txData "2025-10-06T08:00:00.000Z"
                                 Scenario.digest0 Scenario.meta_mixed))
  | (Throw _, _) => False
  end.
Proof. vm_compute. repeat split; reflexivity. Qed.
(* ------------------------------------------------------------------ *)
(** ** More on the hash service *)
(* ------------------------------------------------------------------ *)

#[local] Transparent SHA256.hex.

Lemma sha256_hex_chars (p : ascii -> bool) msg :
  (forall n, p (Text.hex_digit (n mod 16)) = true) ->
  Text.all_chars p (SHA256.hex msg) = true.
Proof.
  intros Hp. unfold SHA256.hex.
  induction (SHA256.digest (Text.bytes_of msg)) as [|w l IH]; [reflexivity|].
  cbn [fold_right]. apply hex_fixed_chars; assumption.
Qed.

#[local] Opaque SHA256.hex.

Lemma sha256_hex_is_hex msg : Text.all_chars Text.is_hex (SHA256.hex msg) = true.
Proof. apply sha256_hex_chars. apply hex_digit_cases; reflexivity. Qed.

Lemma sha256_hex_lower msg : Ethers.lower (SHA256.hex msg) = SHA256.hex msg.
Proof.
  apply lower_fixed. apply sha256_hex_chars.
  apply (hex_digit_cases (fun c => Ascii.eqb (Ethers.lower_char c) c)); reflexivity.
Qed.

(** A digest in hex does not start with the prefix. *)
Lemma sha256_hex_bare msg : Text.startsWith (SHA256.hex msg) "0x" = false.
Proof.
  pose proof (sha256_hex_is_hex msg) as Hc. pose proof (sha256_hex_length msg) as Hl.
  destruct (SHA256.hex msg) as [|a [|b r]]; try discriminate Hl.
  cbn [Text.all_chars] in Hc. apply andb_true_iff in Hc. destruct Hc as [_ Hc].
  apply andb_true_iff in Hc. destruct Hc as [Hb _].
  cbn [Text.startsWith]. destruct (Ascii.eqb "x" b) eqn:E.
  - apply Ascii.eqb_eq in E. subst b. discriminate Hb.
  - rewrite andb_false_r. reflexivity.
Qed.

Lemma verifyHash_value data h w :
  fst (HashService.verifyHash data (Some (JStr h)) w)
  = Ok (String.eqb ("0x" ++ SHA256.hex (HashService.dataString data))
          (if Text.startsWith h "0x" then h else "0x" ++ h)).
Proof. reflexivity. Qed.

(** X1. [verifyHash] accepts the hash [generateHash] returns for the same
    data, with its prefix or without, and accepts no other string. *)
Theorem verifyHash_accepts_generated data :
  let h := "0x" ++ SHA256.hex (HashService.dataString data) in
  (forall w, fst (HashService.generateHash data w) = Ok h)
  /\ (forall w, fst (HashService.verifyHash data (Some (JStr h)) w) = Ok true)
  /\ (forall w, fst (HashService.verifyHash data
                       (Some (JStr (SHA256.hex (HashService.dataString data)))) w)
                = Ok true)
  /\ (forall x w, fst (HashService.verifyHash data (Some (JStr x)) w) = Ok true ->
                  x = h \/ "0x" ++ x = h).
Proof.
  intros h. split; [reflexivity|]. split; [|split].
  - intros w. rewrite verifyHash_value.
    change (Text.startsWith h "0x") with true. cbv iota. rewrite String.eqb_refl. reflexivity.
  - intros w. rewrite verifyHash_value, sha256_hex_bare, String.eqb_refl. reflexivity.
  - intros x w. rewrite verifyHash_value. fold h.
    destruct (String.eqb h (if Text.startsWith x "0x" then x else "0x" ++ x)) eqn:E;
      [intros _|discriminate].
    apply String.eqb_eq in E.
    destruct (Text.startsWith x "0x"); [left|right]; symmetry; exact E.
Qed.

(* ------------------------------------------------------------------ *)
(** ** How anchoring fails *)
(* ------------------------------------------------------------------ *)

Lemma rethrow_value {A} prefix code e w :
  @BlockchainService.rethrow A prefix code e w
  = (Throw (if is_BlockchainError e then e
            else BlockchainError (prefix ++ error_message e) code 500), w).
Proof. unfold BlockchainService.rethrow. destruct (is_BlockchainError e); reflexivity. Qed.

Lemma sendTransaction_foreign to value data w :
  foreign (fst (Ethers.sendTransaction to value data w)).
Proof.
  unfold Ethers.sendTransaction. intros e.
  destruct (outcomes (ledger w)) as [|o rest]; [intros H; injection H as <-; reflexivity|].
  destruct o as [c m|id bn bh gu gp|id c m|id bn bh gu gp];
    try (destruct (Ethers.known (Ethers.hash32 id) (ledger w)));
    cbn [fst]; intros H; try discriminate H; injection H as <-; reflexivity.
Qed.

Lemma wait_foreign r w : foreign (fst (Ethers.wait r w)).
Proof.
  unfold Ethers.wait. intros e.
  destruct (Ethers.tr_outcome r); cbn [fst]; intros H; try discriminate H;
    injection H as <-; reflexivity.
Qed.

Lemma post_foreign_handler {A} prefix code e w (Q : Res A -> World -> Prop) m :
  is_BlockchainError e = false ->
  Q (Throw (BlockchainError (prefix ++ error_message e) code 500))
    (set_log (log w ++ [("error", m)]) w) ->
  post (logger_error m ;;; BlockchainService.rethrow prefix code e) w Q.
Proof.
  intros He HQ. unfold post, bind, logger_error, log_line.
  rewrite rethrow_value, He. exact HQ.
Qed.

Lemma storeHash_empty metadata w :
  BlockchainService.storeHashOnBlockchain "" metadata w
  = (Throw (BlockchainError "Invalid hash format" "INVALID_HASH" 400),
     set_log (log w ++ [("error", "Failed to store hash on blockchain")]) w).
Proof. reflexivity. Qed.

Lemma storeHash_malformed hash metadata w :
  hash <> "" -> BlockchainService.is_hex64 (without_prefix hash) = false ->
  BlockchainService.storeHashOnBlockchain hash metadata w
  = (Throw (BlockchainError "Hash must be 64 hex characters" "INVALID_HASH_LENGTH" 400),
     set_log (log w ++ [("error", "Failed to store hash on blockchain")]) w).
Proof.
  intros Hne Hhex. apply String.eqb_neq in Hne.
  unfold BlockchainService.storeHashOnBlockchain, try_catch, bind.
  rewrite Hne. fold (without_prefix hash). rewrite Hhex. reflexivity.
Qed.

Lemma storeHash_wellformed hash metadata w :
  hash <> "" -> BlockchainService.is_hex64 (without_prefix hash) = true ->
  post (BlockchainService.storeHashOnBlockchain hash metadata) w (fun r _ =>
    forall e, r = Throw e ->
      exists m, e = BlockchainError ("Hash storage failed: " ++ m) "HASH_STORAGE_ERROR" 500).
Proof.
  intros Hne Hhex. apply String.eqb_neq in Hne.
  unfold BlockchainService.storeHashOnBlockchain.
  rewrite Hne. fold (without_prefix hash). rewrite Hhex. cbn [negb].
  post_run.
  unfold Ethers.toUtf8Bytes. destruct (Utf8.valid _).
  2:{ apply post_foreign_handler; [reflexivity|]. intros e He. injection He as <-. eexists; reflexivity. }
  post_run. unfold Ethers.walletAddress at 1. unfold post at 1. cbn [fst snd].
  apply post_bind. apply post_intro. intros [tx|e] w1 E1.
  2:{ apply post_foreign_handler.
      - eapply sendTransaction_foreign. rewrite E1. reflexivity.
      - intros e' He. injection He as <-. eexists; reflexivity. }
  post_run. apply post_intro. intros [rc|e] w2 E2.
  2:{ apply post_foreign_handler.
      - eapply wait_foreign. rewrite E2. reflexivity.
      - intros e' He. injection He as <-. eexists; reflexivity. }
  post_run. unfold Ethers.configNetwork at 1. unfold post at 1. cbn [fst snd].
  post_run. unfold Ethers.getNetworkChainId at 1. unfold post at 1. cbn [fst snd].
  post_run. intros e He. discriminate He.
Qed.

(** X2. How [storeHashOnBlockchain] fails.  An empty hash is rejected with
    INVALID_HASH and a hash that is not 64 hex digits after an optional
    prefix with INVALID_HASH_LENGTH, both with status 400 and before
    anything else is done: the clock is not read and nothing is sent to the
    ledger.  A hash that passes these checks fails only with
    HASH_STORAGE_ERROR (500), whatever the provider threw. *)
Theorem storeHash_failure_modes hash metadata w :
  let run := BlockchainService.storeHashOnBlockchain hash metadata w in
  let untouched := set_log (log w ++ [("error", "Failed to store hash on blockchain")]) w in
  (hash = "" ->
   run = (Throw (BlockchainError "Invalid hash format" "INVALID_HASH" 400), untouched))
  /\ (hash <> "" -> BlockchainService.is_hex64 (without_prefix hash) = false ->
      run = (Throw (BlockchainError "Hash must be 64 hex characters"
                      "INVALID_HASH_LENGTH" 400), untouched))
  /\ (hash <> "" -> BlockchainService.is_hex64 (without_prefix hash) = true ->
      forall e, fst run = Throw e ->
        exists m, e = BlockchainError ("Hash storage failed: " ++ m)
                        "HASH_STORAGE_ERROR" 500).
Proof.
  cbv zeta. split; [|split].
  - intros ->. apply storeHash_empty.
  - apply storeHash_malformed.
  - intros Hne Hhex. apply (storeHash_wellformed hash metadata w Hne Hhex).
Qed.

Lemma generated_wellformed s :
  "0x" ++ SHA256.hex s <> ""
  /\ BlockchainService.is_hex64 (without_prefix ("0x" ++ SHA256.hex s)) = true.
Proof.
  split; [discriminate|].
  change (without_prefix ("0x" ++ SHA256.hex s)) with (SHA256.hex s).
  unfold BlockchainService.is_hex64.
  rewrite sha256_hex_length, sha256_hex_is_hex. reflexivity.
Qed.

(** X3. What [generateHash] returns can be anchored and looked up: it is the
    prefix and 64 lowercase hex digits, so [storeHashOnBlockchain] never
    rejects it for its format, and it has the form of a transaction id. *)
Theorem generateHash_anchorable data w :
  exists h,
    fst (HashService.generateHash data w) = Ok h
    /\ String.length h = 66%nat
    /\ Ethers.lower h = h
    /\ Ethers.isHexString h (Some 32%nat) = true
    /\ (forall metadata w' e,
          fst (BlockchainService.storeHashOnBlockchain h metadata w') = Throw e ->
          exists m, e = BlockchainError ("Hash storage failed: " ++ m)
                          "HASH_STORAGE_ERROR" 500).
Proof.
  exists ("0x" ++ SHA256.hex (HashService.dataString data)).
  split; [reflexivity|]. split; [|split; [|split]].
  - cbn [append String.length]. rewrite sha256_hex_length. reflexivity.
  - cbn [append Ethers.lower]. rewrite sha256_hex_lower. reflexivity.
  - unfold Ethers.isHexString.
    change (Text.startsWith ("0x" ++ SHA256.hex (HashService.dataString data)) "0x") with true.
    change (Text.slice 2 ("0x" ++ SHA256.hex (HashService.dataString data)))
      with (SHA256.hex (HashService.dataString data)).
    rewrite sha256_hex_is_hex. cbn [append String.length]. rewrite sha256_hex_length.
    reflexivity.
  - intros metadata w' e.
    destruct (generated_wellformed (HashService.dataString data)) as [Hne Hhex].
    apply (storeHash_wellformed _ metadata w' Hne Hhex).
Qed.

Lemma known_tx_of h l :
  Ethers.known (Ethers.lower h) l = false -> Ethers.tx_of l h = None.
Proof.
  unfold Ethers.known, Ethers.tx_of. induction (txs l) as [|t r IH]; [reflexivity|].
  cbn [existsb find]. intros H. apply orb_false_iff in H. destruct H as [Ht Hr].
  rewrite Ht. apply IH, Hr.
Qed.

(** X4. A failed anchoring may have reached the ledger: when the network
    accepts the transaction and then drops or reverts it,
    [storeHashOnBlockchain] throws HASH_STORAGE_ERROR, yet the transaction
    with the payload stays visible under its identifier, where there was
    none before. *)
Theorem storeHash_unconfirmed hash metadata w o rest id
  (Hne : hash <> "")
  (Hhex : BlockchainService.is_hex64 (without_prefix hash) = true)
  (Hvalid : Utf8.valid (JS.stringify (JObj (BlockchainService.txData (clock w (ticks w))
                                              (without_prefix hash) metadata))) = true)
  (Hout : outcomes (ledger w) = o :: rest)
  (Ho : (exists c m, o = Dropped id c m)
        \/ (exists bn bh gu gp, o = Reverted id bn bh gu gp))
  (Hnew : Ethers.known (Ethers.hash32 id) (ledger w) = false) :
  let run := BlockchainService.storeHashOnBlockchain hash metadata w in
  (exists m, fst run = Throw (BlockchainError ("Hash storage failed: " ++ m)
                                "HASH_STORAGE_ERROR" 500))
  /\ Ethers.tx_of (ledger w) (Ethers.hash32 id) = None
  /\ exists tx,
       Ethers.tx_of (ledger (snd run)) (Ethers.hash32 id) = Some tx
       /\ tx_data tx
          = Ethers.hexlify (JS.stringify (JObj (BlockchainService.txData (clock w (ticks w))
                                                  (without_prefix hash) metadata))).
Proof.
  cbv zeta. apply String.eqb_neq in Hne.
  assert (Hfresh : Ethers.tx_of (ledger w) (Ethers.hash32 id) = None)
    by (apply known_tx_of; rewrite hash32_lower; exact Hnew).
  unfold BlockchainService.storeHashOnBlockchain, try_catch, bind.
  rewrite Hne. fold (without_prefix hash). rewrite Hhex.
  unfold ret, now, lift, Ethers.toUtf8Bytes, logger_info, logger_error, log_line,
    Ethers.walletAddress, Ethers.sendTransaction.
  cbn [negb fst snd clock ticks ledger set_ticks set_log]. rewrite Hvalid.
  cbn [ledger set_ticks set_log]. rewrite Hout.
  destruct Ho as [(c & m & ->)|(bn & bh & gu & gp & ->)]; rewrite Hnew;
    unfold Ethers.wait; cbn [Ethers.tr_outcome Ethers.tr_tx ledger set_ledger set_log];
    rewrite rethrow_value; cbn [is_BlockchainError fst snd ledger set_log set_ledger].
  all: (split; [eexists; reflexivity|]); (split; [exact Hfresh|]).
  all: eexists; split;
    [unfold Ethers.tx_of, Ethers.set_chain; cbn [txs]; rewrite hash32_lower;
     apply find_snoc_new; [exact Hnew|apply String.eqb_refl]
    |reflexivity].
Qed.

(** On a ledger that drops the transaction it accepted. *)
Lemma storeHash_unconfirmed_witness :
  let w := Samples.dropping in
  let run := BlockchainService.storeHashOnBlockchain ("0x" ++ Scenario.digest0)
               Scenario.meta0 w in
  (exists m, fst run = Throw (BlockchainError ("Hash storage failed: " ++ m)
                                "HASH_STORAGE_ERROR" 500))
  /\ Ethers.tx_of (ledger w) (Ethers.hash32 0xabcdef) = None
  /\ exists tx, Ethers.tx_of (ledger (snd run)) (Ethers.hash32 0xabcdef) = Some tx.
Proof.
  cbv zeta.
  destruct (storeHash_unconfirmed ("0x" ++ Scenario.digest0) Scenario.meta0
              Samples.dropping
              (Dropped 0xabcdef "TIMEOUT" "timeout") [] 0xabcdef
              ltac:(discriminate) eq_refl eq_refl eq_refl
              (or_introl (ex_intro _ "TIMEOUT" (ex_intro _ "timeout" eq_refl))) eq_refl)
    as (Hm & Hn & tx & Ht & _).
  split; [exact Hm|]. split; [exact Hn|]. exists tx. exact Ht.
Defined.

(* ------------------------------------------------------------------ *)
(** ** Computations that only write to the log *)
(* ------------------------------------------------------------------ *)

Lemma set_log_same w : set_log (log w) w = w.
Proof. destruct w; reflexivity. Qed.

Lemma log_only_refl w : log_only w w.
Proof. exists []. rewrite app_nil_r. symmetry. apply set_log_same. Qed.

Lemma log_only_trans a b c : log_only a b -> log_only b c -> log_only a c.
Proof.
  intros [l1 ->] [l2 ->]. exists (l1 ++ l2)%list.
  unfold set_log. cbn. rewrite app_assoc. reflexivity.
Qed.

Lemma quiet_ret {A} (a : A) : quiet (ret a).
Proof. intros w. apply log_only_refl. Qed.

Lemma quiet_throw {A} e : quiet (@throw A e).
Proof. intros w. apply log_only_refl. Qed.

Lemma quiet_lift {A} (r : Res A) : quiet (lift r).
Proof. intros w. apply log_only_refl. Qed.

Lemma quiet_log level message : quiet (log_line level message).
Proof. intros w. exists [(level, message)]. reflexivity. Qed.

Lemma quiet_prop v k : quiet (prop v k).
Proof. intros w. unfold prop. destruct (JS.get v k); apply log_only_refl. Qed.

Lemma quiet_bind {A B} (c : M A) (k : A -> M B) :
  quiet c -> (forall a, quiet (k a)) -> quiet (bind c k).
Proof.
  intros Hc Hk w. unfold bind. specialize (Hc w).
  destruct (c w) as [[a|e] w1]; cbn [snd] in *; [|exact Hc].
  eapply log_only_trans; [exact Hc|apply Hk].
Qed.

Lemma quiet_try {A} (c : M A) (h : JSError -> M A) :
  quiet c -> (forall e, quiet (h e)) -> quiet (try_catch c h).
Proof.
  intros Hc Hh w. unfold try_catch. specialize (Hc w).
  destruct (c w) as [[a|e] w1]; cbn [snd] in *; [exact Hc|].
  eapply log_only_trans; [exact Hc|apply Hh].
Qed.

Lemma quiet_rethrow {A} prefix code e : quiet (@BlockchainService.rethrow A prefix code e).
Proof. intros w. rewrite rethrow_value. apply log_only_refl. Qed.

Lemma quiet_getTransaction h : quiet (Ethers.getTransaction h).
Proof. intros w. apply log_only_refl. Qed.
Lemma quiet_getTransactionReceipt h : quiet (Ethers.getTransactionReceipt h).
Proof. intros w. apply log_only_refl. Qed.
Lemma quiet_configNetwork : quiet Ethers.configNetwork.
Proof. intros w. apply log_only_refl. Qed.
Lemma quiet_getNetworkChainId : quiet Ethers.getNetworkChainId.
Proof. intros w. apply log_only_refl. Qed.

Ltac quiet_auto :=
  repeat first
    [ apply quiet_ret | apply quiet_throw | apply quiet_lift | apply quiet_log
    | apply quiet_prop | apply quiet_rethrow
    | apply quiet_getTransaction | apply quiet_getTransactionReceipt
    | apply quiet_configNetwork | apply quiet_getNetworkChainId
    | apply quiet_bind; [|intros ?]
    | apply quiet_try; [|intros ?]
    | match goal with
      | |- quiet (if ?b then _ else _) => destruct b
      | |- quiet (match ?x with _ => _ end) => destruct x
      | |- quiet (let '(_, _) := ?x in _) => destruct x
      end ].

Lemma quiet_decodePayload data : quiet (BlockchainService.decodePayload data).
Proof. unfold BlockchainService.decodePayload. quiet_auto. Qed.

Lemma quiet_retrieve t : quiet (BlockchainService.retrieveHashFromBlockchain t).
Proof.
  unfold BlockchainService.retrieveHashFromBlockchain.
  pose proof quiet_decodePayload.
  quiet_auto; auto.
Qed.

Lemma rethrown_own {A} (c : M A) m prefix code w e :
  fst (try_catch c (fun error => logger_error m ;;;
                                 BlockchainService.rethrow prefix code error) w) = Throw e ->
  is_BlockchainError e = true.
Proof.
  unfold try_catch, bind, logger_error, log_line.
  destruct (c w) as [[a|e0] w1]; [discriminate|]. rewrite rethrow_value. cbn [fst].
  destruct (is_BlockchainError e0) eqn:E; intros H; injection H as <-; [exact E|reflexivity].
Qed.

(** X5. [retrieveHashFromBlockchain] only reads: whatever its argument and
    its outcome, it leaves the ledger, the database, the disk and the clock
    as they are and only adds lines to the log.  Every failure is a
    BlockchainError, and an argument that is not 32 bytes of prefixed hex is
    refused with INVALID_TX_HASH (400). *)
Theorem retrieveHash_reads_only t w :
  let run := BlockchainService.retrieveHashFromBlockchain t w in
  log_only w (snd run)
  /\ (forall e, fst run = Throw e -> is_BlockchainError e = true)
  /\ (Ethers.isHexString t (Some 32%nat) = false ->
      fst run = Throw (BlockchainError "Invalid transaction hash format"
                         "INVALID_TX_HASH" 400)).
Proof.
  cbv zeta. split; [apply quiet_retrieve|]. split.
  - intros e. unfold BlockchainService.retrieveHashFromBlockchain. apply rethrown_own.
  - intros Ht. unfold BlockchainService.retrieveHashFromBlockchain, try_catch, bind.
    rewrite Ht, orb_true_r. reflexivity.
Qed.

(** X6. A payload whose [hash] is neither a string nor [null] makes the
    retrieval fail although the transaction and its receipt are there: the
    shortening of the hash for the log line throws, and the call ends in
    HASH_RETRIEVAL_ERROR (500). *)
Theorem retrieveHash_hash_not_text t w tx rc v h
  (Ht : Ethers.isHexString t (Some 32%nat) = true)
  (Htx : Ethers.tx_of (ledger w) t = Some tx)
  (Hrc : Ethers.receipt_of (ledger w) t = Some rc)
  (Hp : payload_absent (tx_data tx) = false)
  (Hj : payload_json (tx_data tx) = Some v)
  (Hh : JS.get (Some v) "hash" = Some (Some h))
  (Hs : BlockchainService.substring_of (Some h) <> Ok tt) :
  exists m,
    fst (BlockchainService.retrieveHashFromBlockchain t w)
    = Throw (BlockchainError ("Hash retrieval failed: " ++ m) "HASH_RETRIEVAL_ERROR" 500).
Proof.
  pose proof (isHexString_nonempty _ _ Ht) as Hne.
  unfold BlockchainService.retrieveHashFromBlockchain.
  unfold try_catch, bind at 1 2 3 4 5.
  unfold Ethers.getTransaction, Ethers.getTransactionReceipt.
  unfold bind, ret, throw, lift, logger_info, logger_error, log_line.
  rewrite Hne, Ht. cbn [orb negb ledger set_log]. rewrite Htx.
  cbn [ledger set_log]. rewrite Hrc.
  unfold BlockchainService.decodePayload.
  unfold payload_absent in Hp. rewrite <- negb_orb, Hp. cbn [negb].
  unfold payload_json in Hj. unfold try_catch, bind, lift, ret.
  destruct (Ethers.toUtf8String (tx_data tx)) as [text|e]; [|discriminate Hj].
  rewrite Hj, Hh.
  cbv [Ethers.configNetwork Ethers.getNetworkChainId].
  destruct (BlockchainService.substring_of (Some h)) as [[]|e] eqn:E; [congruence|].
  rewrite rethrow_value.
  destruct h as [ |b|n|fm fe|s|l|o]; cbn in E; try discriminate E; injection E as <-;
    eexists; reflexivity.
Qed.

(** On a ledger whose transaction holds the number 5 under [hash]. *)
Lemma retrieveHash_hash_not_text_witness :
  exists m,
    fst (BlockchainService.retrieveHashFromBlockchain (Ethers.hash32 0xabcdef)
           Samples.w_numeric)
    = Throw (BlockchainError ("Hash retrieval failed: " ++ m) "HASH_RETRIEVAL_ERROR" 500).
Proof.
  eapply (retrieveHash_hash_not_text (Ethers.hash32 0xabcdef) Samples.w_numeric
            _ _ (JObj [("hash", JNum 5)]) (JNum 5) eq_refl eq_refl eq_refl eq_refl).
  - vm_compute. reflexivity.
  - reflexivity.
  - discriminate.
Defined.
(* ------------------------------------------------------------------ *)
(** ** More on the file service *)
(* ------------------------------------------------------------------ *)

Lemma log_only_disk w w' : log_only w w' -> disk w' = disk w.
Proof. intros [l ->]. reflexivity. Qed.

Lemma log_only_content w w' p : log_only w w' -> content_at w' p = content_at w p.
Proof. intros [l ->]. reflexivity. Qed.

Lemma log_only_step w level message :
  log_only w (set_log (log w ++ [(level, message)]) w).
Proof. exists [(level, message)]. reflexivity. Qed.

Lemma first_missing_log l w fs : first_missing (set_log l w) fs = first_missing w fs.
Proof.
  induction fs as [|f fs IH]; [reflexivity|]. cbn [first_missing].
  change (present (set_log l w) f) with (present w f). rewrite IH. reflexivity.
Qed.

Lemma info_of_here w f c :
  content_at w (path f) = Some c ->
  info_of w f = FileService.mkFileInfo (originalname f) (filename f) (fsize f)
                  (mimetype f) ("0x" ++ SHA256.hex c) (path f).
Proof. intros H. unfold info_of, content_of. rewrite H. reflexivity. Qed.

(** The loop of [generateCombinedHash], run to its end or to the first file
    that is not on the disk. *)
Lemma processFiles_run : forall fs acc info w,
  log_only w (snd (FileService.processFiles fs acc info w))
  /\ fst (FileService.processFiles fs acc info w)
     = match first_missing w fs with
       | None => Ok (acc ++ Text.concat_all (map (fun f => SHA256.hex (content_of w f)) fs),
                     (info ++ map (info_of w) fs)%list)
       | Some f => Throw (enoent (path f))
       end.
Proof.
  induction fs as [|f fs IH]; intros acc info w.
  - cbn. rewrite append_nil_r, app_nil_r. split; [apply log_only_refl|reflexivity].
  - cbn [FileService.processFiles first_missing]. unfold bind.
    rewrite readFileSync_value. unfold present.
    destruct (content_at w (path f)) as [c|] eqn:Hc.
    2:{ split; [apply log_only_refl|reflexivity]. }
    unfold logger_info, log_line. cbn [fst snd].
    specialize (IH (acc ++ SHA256.hex c)
                  (info ++ [FileService.mkFileInfo (originalname f) (filename f) (fsize f)
                              (mimetype f) ("0x" ++ SHA256.hex c) (path f)])%list
                  (set_log (log w ++ [("info", "File processed for combined hash")]) w)).
    destruct IH as [Hl Hr]. split.
    + eapply log_only_trans; [apply log_only_step|exact Hl].
    + rewrite Hr, first_missing_log.
      destruct (first_missing w fs); [reflexivity|].
      cbn [map Text.concat_all fold_right].
      rewrite (info_of_here w f c Hc). unfold content_of at 2. rewrite Hc.
      rewrite append_assoc, <- app_assoc. reflexivity.
Qed.

Lemma log_only_clock w w' : log_only w w' -> clock w' (ticks w') = clock w (ticks w).
Proof. intros [l ->]. reflexivity. Qed.

Lemma log_only_ticks w w' : log_only w w' -> ticks w' = ticks w.
Proof. intros [l ->]. reflexivity. Qed.

Lemma total_size w fs n :
  fold_left (fun sum file => sum + FileService.fi_size file) (map (info_of w) fs) n
  = fold_left (fun sum f => sum + fsize f) fs n.
Proof. revert n. induction fs as [|f fs IH]; intros n; [reflexivity|]. cbn. apply IH. Qed.

Lemma first_missing_absent w fs f :
  first_missing w fs = Some f -> In f fs /\ content_at w (path f) = None.
Proof.
  induction fs as [|g fs IH]; [discriminate|]. cbn [first_missing]. unfold present.
  destruct (content_at w (path g)) eqn:E.
  - intros H. destruct (IH H) as [Hi Hc]. split; [right; exact Hi|exact Hc].
  - intros H. injection H as <-. split; [left; reflexivity|exact E].
Qed.

(** The files a returning [generateCombinedHash] lists. *)
Lemma combined_files data fs w r :
  fst (FileService.generateCombinedHash data fs w) = Ok r ->
  first_missing w fs = None /\ FileService.files r = map (info_of w) fs.
Proof.
  unfold FileService.generateCombinedHash, try_catch, bind.
  destruct (processFiles_run fs (JS.stringify data) [] w) as [_ Hr].
  destruct (FileService.processFiles fs (JS.stringify data) [] w) as [[[content info]|e] w1];
    cbn [fst snd] in *.
  - destruct (first_missing w fs); [discriminate Hr|]. injection Hr as -> ->.
    unfold now, logger_info, log_line, ret. cbn [fst snd].
    intros H. injection H as <-. split; reflexivity.
  - intros H. discriminate H.
Qed.

(** X7. [generateCombinedHash] returns exactly when every file is on the
    disk.  It then lists the files in the order given, each with the hash of
    its content, counts them and adds up their sizes, and stamps the result
    with the clock.  Otherwise it throws a plain Error that names the first
    file that is missing, without reading the clock. *)
Theorem generateCombinedHash_outcome data fs w :
  let run := FileService.generateCombinedHash data fs w in
  match first_missing w fs with
  | None =>
      exists r,
        fst run = Ok r
        /\ FileService.files r = map (info_of w) fs
        /\ FileService.fileCount (FileService.metadata r) = Z.of_nat (List.length fs)
        /\ FileService.totalSize (FileService.metadata r)
           = fold_left (fun sum f => sum + fsize f) fs 0
        /\ FileService.hasFiles (FileService.metadata r) = negb (Nat.eqb (List.length fs) 0)
        /\ FileService.cm_timestamp (FileService.metadata r) = clock w (ticks w)
  | Some f =>
      In f fs /\ content_at w (path f) = None
      /\ fst run = Throw (Error ("Combined hash generation failed: "
                                 ++ "ENOENT: no such file or directory, open '"
                                 ++ path f ++ "'"))
      /\ ticks (snd run) = ticks w
  end.
Proof.
  cbv zeta. unfold FileService.generateCombinedHash, try_catch, bind.
  destruct (processFiles_run fs (JS.stringify data) [] w) as [Hl Hr].
  destruct (FileService.processFiles fs (JS.stringify data) [] w) as [[[content info]|e] w1];
    cbn [fst snd] in *.
  - destruct (first_missing w fs); [discriminate Hr|]. injection Hr as -> ->.
    unfold now, logger_info, log_line, ret. cbn [fst snd].
    eexists. split; [reflexivity|].
    cbn [FileService.files FileService.metadata FileService.fileCount FileService.totalSize
         FileService.hasFiles FileService.cm_timestamp app].
    split; [reflexivity|]. split; [reflexivity|]. split; [apply total_size|].
    split; [destruct fs; reflexivity|apply log_only_clock, Hl].
  - destruct (first_missing w fs) as [f|] eqn:Hm; [|discriminate Hr]. injection Hr as ->.
    destruct (first_missing_absent w fs f Hm) as [Hi Hc].
    split; [exact Hi|]. split; [exact Hc|]. split; [reflexivity|].
    cbn. apply log_only_ticks, Hl.
Qed.

(** X8. Without files the combined hash of an object is the hash
    [generateHash] returns for it, and is the record hash with the prefix. *)
Theorem combined_hash_without_files o w :
  exists r,
    fst (FileService.generateCombinedHash (JObj o) [] w) = Ok r
    /\ FileService.combinedHash r = "0x" ++ FileService.dataHash r
    /\ FileService.files r = []
    /\ forall w', fst (HashService.generateHash (Some (JObj o)) w')
                  = Ok (FileService.combinedHash r).
Proof.
  eexists. split; [reflexivity|].
  cbn [FileService.combinedHash FileService.dataHash FileService.files].
  repeat split.
Qed.

Lemma generateFileHash_value p w :
  fst (Files.generateFileHash p w)
  = match content_at w p with
    | Some c => Ok ("0x" ++ SHA256.hex c)
    | None => Throw (Error ("File hash generation failed: "
                            ++ "ENOENT: no such file or directory, open '" ++ p ++ "'"))
    end.
Proof.
  unfold Files.generateFileHash, try_catch, bind, FileService.readFileSync,
    content_at, Files.statSync.
  destruct (find _ (disk w)) as [e|] eqn:E; cbn [option_map].
  - rewrite E. reflexivity.
  - reflexivity.
Qed.

(** X9. [generateFileHash] and [generateCombinedHash] agree: the hash the
    combined result records for each file is the one [generateFileHash]
    returns for its path; and for a path that is not on the disk
    [generateFileHash] throws a plain Error that carries the ENOENT
    message. *)
Theorem generateFileHash_agrees :
  (forall data fs w r,
      fst (FileService.generateCombinedHash data fs w) = Ok r ->
      map (fun f => fst (Files.generateFileHash (path f) w)) fs
      = map (fun i => Ok (FileService.fi_hash i)) (FileService.files r))
  /\ (forall p w,
        content_at w p = None ->
        fst (Files.generateFileHash p w)
        = Throw (Error ("File hash generation failed: "
                        ++ "ENOENT: no such file or directory, open '" ++ p ++ "'"))).
Proof.
  split.
  - intros data fs w r H.
    destruct (combined_files data fs w r H) as (Hm & Hf).
    rewrite Hf, map_map. clear -Hm.
    induction fs as [|f fs IH]; [reflexivity|]. cbn [first_missing] in Hm. unfold present in Hm.
    cbn [map]. rewrite generateFileHash_value. unfold info_of at 1, content_of.
    destruct (content_at w (path f)) as [c|]; [|discriminate Hm].
    cbn [FileService.fi_hash]. f_equal. apply IH, Hm.
  - intros p w H. rewrite generateFileHash_value, H. reflexivity.
Qed.
(* ------------------------------------------------------------------ *)
(** ** Objects: a spread of distinct keys *)
(* ------------------------------------------------------------------ *)

Lemma lookup_spread entries : forall acc h,
  distinct (map fst entries) = true ->
  JS.lookup h (fold_left (fun acc kv => JS.obj_set acc (fst kv) (snd kv)) entries acc)
  = match JS.lookup h entries with
    | Some x => Some x
    | None => JS.lookup h acc
    end.
Proof.
  induction entries as [|[k x] entries IH]; intros acc h Hd; [reflexivity|].
  cbn [map fst distinct] in Hd. apply andb_true_iff in Hd. destruct Hd as [Hk Hd].
  cbn [fold_left fst snd JS.lookup]. rewrite (IH _ _ Hd), lookup_obj_set.
  destruct (String.eqb k h) eqn:E; [|reflexivity].
  apply String.eqb_eq in E. subst h.
  apply negb_true_iff in Hk. rewrite <- has_key_existsb in Hk.
  apply has_key_lookup in Hk. rewrite Hk. reflexivity.
Qed.

(* ------------------------------------------------------------------ *)
(** ** What [createAgriDataHash] hashes *)
(* ------------------------------------------------------------------ *)

Lemma createAgriDataHash_inv o w r w' :
  HashService.createAgriDataHash (Some (JObj o)) w = (Ok r, w') ->
  filter (missing o) HashService.requiredFields = []
  /\ HashService.data r = stamped o (clock w (ticks w))
  /\ HashService.fields r = JS.keys (HashService.data r).
Proof.
  intros H. destruct (filter (missing o) HashService.requiredFields) eqn:E.
  - rewrite createAgriDataHash_accepts in H by exact E. injection H as <- _.
    repeat split.
  - rewrite createAgriDataHash_rejects in H by (rewrite E; discriminate). discriminate H.
Qed.

Lemma filter_nil_all {A} (p : A -> bool) l x :
  filter p l = [] -> In x l -> p x = false.
Proof.
  induction l as [|a l IH]; [contradiction|]. cbn [filter].
  destruct (p a) eqn:E; [discriminate|]. intros H [->|Hi]; [exact E|apply IH; assumption].
Qed.

(** X10. The data [createAgriDataHash] hashes and returns is the record
    with three properties set by the service: [timestamp] is the reading of
    the clock at the call, [version] is 1.0 and [system] is AgriChain,
    whatever the record said under these names.  Every other property is
    the record's, the required fields among them, and [fields] lists the
    keys of the data. *)
Theorem createAgriDataHash_stamps o w r w'
  (Hd : distinct (map fst o) = true)
  (H : HashService.createAgriDataHash (Some (JObj o)) w = (Ok r, w')) :
  JS.lookup "timestamp" (HashService.data r) = Some (JStr (clock w (ticks w)))
  /\ JS.lookup "version" (HashService.data r) = Some (JStr "1.0")
  /\ JS.lookup "system" (HashService.data r) = Some (JStr "AgriChain")
  /\ (forall k, k <> "timestamp" -> k <> "version" -> k <> "system" ->
                JS.lookup k (HashService.data r) = JS.lookup k o)
  /\ (forall k, In k HashService.requiredFields ->
                JS.truthy (JS.lookup k (HashService.data r)) = true)
  /\ HashService.fields r = map fst (HashService.data r).
Proof.
  destruct (createAgriDataHash_inv o w r w' H) as (Hm & -> & Hf).
  assert (Hother : forall k, k <> "timestamp" -> k <> "version" -> k <> "system" ->
                     JS.lookup k (stamped o (clock w (ticks w))) = JS.lookup k o).
  { intros k H1 H2 H3. unfold stamped. rewrite !lookup_obj_set.
    apply String.eqb_neq in H1, H2, H3.
    rewrite (String.eqb_sym "system" k), (String.eqb_sym "version" k),
      (String.eqb_sym "timestamp" k), H1, H2, H3.
    unfold JS.spread_into. cbn [JS.own_entries]. rewrite (lookup_spread o [] k Hd).
    destruct (JS.lookup k o); reflexivity. }
  split; [unfold stamped; rewrite !lookup_obj_set; reflexivity|].
  split; [unfold stamped; rewrite !lookup_obj_set; reflexivity|].
  split; [unfold stamped; rewrite !lookup_obj_set; reflexivity|].
  split; [exact Hother|]. split; [|exact Hf].
  intros k Hk. rewrite Hother.
  - pose proof (filter_nil_all _ _ k Hm Hk) as Hmiss. unfold missing in Hmiss.
    apply negb_false_iff in Hmiss. exact Hmiss.
  - destruct Hk as [<-|[<-|[<-|[<-|[]]]]]; discriminate.
  - destruct Hk as [<-|[<-|[<-|[<-|[]]]]]; discriminate.
  - destruct Hk as [<-|[<-|[<-|[<-|[]]]]]; discriminate.
Qed.

(** A record that brings a timestamp and a version of its own. *)
Lemma createAgriDataHash_stamps_witness :
  let o := [("farmerId", JStr "P1"); ("productType", JStr "Rice");
            ("harvestDate", JStr "2025-10-01"); ("location", JStr "Delta");
            ("version", JStr "7"); ("timestamp", JStr "2020-01-01T00:00:00.000Z")] in
  exists r,
    fst (HashService.createAgriDataHash (Some (JObj o)) Scenario.w0) = Ok r
    /\ JS.lookup "timestamp" (HashService.data r) = Some (JStr "2025-10-06T08:00:00.000Z")
    /\ JS.lookup "version" (HashService.data r) = Some (JStr "1.0")
    /\ JS.lookup "location" (HashService.data r) = Some (JStr "Delta").
Proof.
  intros o.
  destruct (HashService.createAgriDataHash (Some (JObj o)) Scenario.w0) as [[r|e] w'] eqn:E.
  - destruct (createAgriDataHash_stamps o Scenario.w0 r w' eq_refl E) as (Ht & Hv & _ & Ho & _).
    exists r. split; [reflexivity|]. split; [exact Ht|]. split; [exact Hv|].
    rewrite Ho by discriminate. reflexivity.
  - exfalso. rewrite createAgriDataHash_accepts in E by reflexivity. discriminate E.
Defined.

(** X11. What is not an object is never hashed: [undefined] and [null]
    make [createAgriDataHash] throw a TypeError, and for any other value
    that is not an object (a number, a string, a boolean, an array) all four
    required fields count as missing.  In each case the clock is not read
    and one error line is logged. *)
Theorem createAgriDataHash_not_object R w
  (HR : forall o, R <> Some (JObj o)) :
  exists e,
    HashService.createAgriDataHash R w
    = (Throw e, set_log (log w ++ [("error", "Failed to create agricultural data hash")]) w)
    /\ match R with
       | None | Some JNull => error_name e = "TypeError"
       | Some _ =>
           e = Error "Missing required fields: farmerId, productType, harvestDate, location"
       end.
Proof.
  destruct R as [[ |b|n|fm fe|s|l|o]|]; try (eexists; split; reflexivity).
  exfalso. exact (HR o eq_refl).
Qed.

Lemma createAgriDataHash_not_object_witness :
  exists e,
    fst (HashService.createAgriDataHash (Some (JArr [JStr "P1"])) Scenario.w0) = Throw e
    /\ e = Error "Missing required fields: farmerId, productType, harvestDate, location".
Proof.
  destruct (createAgriDataHash_not_object (Some (JArr [JStr "P1"])) Scenario.w0
              ltac:(discriminate)) as (e & Hr & He).
  exists e. rewrite Hr. split; [reflexivity|exact He].
Defined.
(* ------------------------------------------------------------------ *)
(** ** A record stored, then retrieved *)
(* ------------------------------------------------------------------ *)

Lemma attaches_refl d : attaches d d.
Proof. exists []. rewrite app_nil_r. split; reflexivity. Qed.

Lemma attaches_trans a b c : attaches a b -> attaches b c -> attaches a c.
Proof.
  intros (r1 & H1 & A1) (r2 & H2 & A2). exists (r1 ++ r2)%list.
  rewrite H2, H1, <- app_assoc, forallb_app, A1, A2. split; reflexivity.
Qed.

Lemma attaches_fault d o rest : faults d = o :: rest -> attaches d (Sql.with_faults rest d).
Proof. intros _. exists []. rewrite app_nil_r. split; reflexivity. Qed.

Ltac stmt_attaches :=
  intros ?;
  cbv beta zeta delta
    [Sql.select_farmer Sql.insert_farmer Sql.sp_StoreAgriData
     Sql.insert_blockchain_transaction Sql.insert_uploaded_file
     Sql.insert_verification_log Sql.insert_system_log Sql.select_by_id
     Sql.select_by_hash Sql.select_files Sql.select_verification_logs];
  repeat match goal with
         | |- context [match ?x with _ => _ end] => destruct x
         end;
  first [ exists []; split; [symmetry; apply app_nil_r | reflexivity]
        | eexists [_]; split; reflexivity ].

Ltac attaches_auto :=
  repeat first
    [ apply (@evolves_ret attaches attaches_refl) | apply (@evolves_throw attaches attaches_refl)
    | apply (@evolves_lift attaches attaches_refl) | apply (@evolves_log attaches attaches_refl)
    | apply (@evolves_now attaches attaches_refl) | apply (@evolves_prop attaches attaches_refl)
    | apply (@evolves_bind attaches attaches_trans); [|intros ?]
    | apply (@evolves_try attaches attaches_trans); [|intros ?]
    | apply (@evolves_executeQuery attaches attaches_refl attaches_trans attaches_fault);
      solve [stmt_attaches]
    | apply (@evolves_executeProcedure attaches attaches_refl attaches_trans attaches_fault);
      solve [stmt_attaches]
    | apply (@evolves_request attaches attaches_trans attaches_fault); solve [stmt_attaches]
    | match goal with
      | |- evolves _ (if ?b then _ else _) => destruct b
      | |- evolves _ (match ?x with _ => _ end) => destruct x
      end ].

Lemma storeFileRows_attaches dataId fs :
  evolves attaches (DatabaseService.storeFileRows dataId fs).
Proof.
  induction fs as [|f fs IH]; cbn [DatabaseService.storeFileRows]; attaches_auto. exact IH.
Qed.

Lemma storeAgriData_attaches agriData blockchainData fs :
  evolves attaches (DatabaseService.storeAgriData agriData blockchainData fs).
Proof.
  pose proof storeFileRows_attaches.
  unfold DatabaseService.storeAgriData, DatabaseService.ensureFarmerExists,
    DatabaseService.storeBlockchainTransaction, DatabaseService.storeFileMetadata,
    DatabaseService.logOperation.
  attaches_auto; auto.
Qed.

Lemma storeFileRows_keeps_logs dataId fs :
  keeps verification_logs (DatabaseService.storeFileRows dataId fs).
Proof.
  induction fs as [|f fs IH]; cbn [DatabaseService.storeFileRows]; keeps_auto; try exact IH.
Qed.

Lemma storeFileRows_keeps_ids dataId fs :
  keeps next_data_id (DatabaseService.storeFileRows dataId fs).
Proof.
  induction fs as [|f fs IH]; cbn [DatabaseService.storeFileRows]; keeps_auto; try exact IH.
Qed.

Lemma storeFileRows_calm dataId fs :
  evolves calm (DatabaseService.storeFileRows dataId fs).
Proof.
  induction fs as [|f fs IH]; cbn [DatabaseService.storeFileRows]; calm_auto; try exact IH.
Qed.

Ltac open_store :=
  unfold DatabaseService.storeAgriData, DatabaseService.ensureFarmerExists,
    DatabaseService.storeBlockchainTransaction, DatabaseService.storeFileMetadata,
    DatabaseService.logOperation.

Lemma storeAgriData_keeps_logs agriData blockchainData fs :
  keeps verification_logs (DatabaseService.storeAgriData agriData blockchainData fs).
Proof.
  pose proof storeFileRows_keeps_logs. open_store. keeps_auto; auto.
Qed.

Lemma storeAgriData_calm agriData blockchainData fs :
  evolves calm (DatabaseService.storeAgriData agriData blockchainData fs).
Proof.
  pose proof storeFileRows_calm as Hrows. open_store. calm_auto; auto.
Qed.

Lemma ensure_keeps_ids farmerId farmerInfo :
  keeps next_data_id (DatabaseService.ensureFarmerExists farmerId farmerInfo).
Proof. unfold DatabaseService.ensureFarmerExists. keeps_auto. Qed.

(** The row the stored procedure hands back. *)
Lemma sp_StoreAgriData_row p d row d' :
  Sql.sp_StoreAgriData p d = (Ok row, d') ->
  ad_data_id row = next_data_id d
  /\ next_data_id d' = next_data_id d + 1
  /\ ad_has_files row = Sql.p_HasFiles p
  /\ ad_file_count row = Sql.p_FileCount p
  /\ Sql.as_text (Sql.p_DataHash p) = Ok (Some (ad_data_hash row))
  /\ Sql.as_text (Sql.p_TransactionHash p) = Ok (Some (ad_transaction_hash row)).
Proof.
  unfold Sql.sp_StoreAgriData.
  match goal with |- context [match ?x with _ => _ end] => destruct x as [r|e] eqn:E end;
    [|intros H; discriminate H].
  destruct (Sql.has_farmer (ad_farmer_id r) d); intros H; [|discriminate H].
  injection H as <- <-.
  rbind_inv E. injection E as <-. cbn.
  repeat split; try reflexivity; eapply text_column_ok; eassumption.
Qed.

Lemma storeProcedure_row p w :
  post (Sql.executeProcedure (Sql.sp_StoreAgriData p)) w (fun r w' =>
    forall row, r = Ok row ->
      ad_data_id row = next_data_id (db w)
      /\ ad_has_files row = Sql.p_HasFiles p
      /\ ad_file_count row = Sql.p_FileCount p
      /\ Sql.as_text (Sql.p_DataHash p) = Ok (Some (ad_data_hash row))
      /\ Sql.as_text (Sql.p_TransactionHash p) = Ok (Some (ad_transaction_hash row))).
Proof.
  post_run. apply post_request.
  - intros m rest Hf. post_run. intros ? ?; discriminate.
  - intros f _.
    pose proof (@sp_StoreAgriData_row p (Sql.with_faults f (db w))) as He.
    destruct (Sql.sp_StoreAgriData p (Sql.with_faults f (db w))) as [[row|e] d'];
      post_run; [|intros ? ?; discriminate].
    intros row' Hr. injection Hr as <-.
    destruct (He _ _ eq_refl) as (H1 & _ & H3 & H4 & H5 & H6). auto 6.
Qed.

(** The row a successful [storeAgriData] returns: its identity value is the
    next one of the table, and it records whether files came with it. *)
Lemma storeAgriData_row agriData blockchainData fs w :
  post (DatabaseService.storeAgriData agriData blockchainData fs) w (fun r w' =>
    forall s, r = Ok s ->
      DatabaseService.dataId s = next_data_id (db w)
      /\ ad_has_files (DatabaseService.stored_row s) = (0 <? Z.of_nat (List.length fs))
      /\ ad_file_count (DatabaseService.stored_row s) = Z.of_nat (List.length fs)
      /\ (exists h, JS.get agriData "hash" = Some h
             /\ Sql.as_text (Sql.param h)
                = Ok (Some (ad_data_hash (DatabaseService.stored_row s))))
      /\ (exists t, JS.get blockchainData "transactionHash" = Some t
             /\ Sql.as_text (Sql.param t)
                = Ok (Some (ad_transaction_hash (DatabaseService.stored_row s))))).
Proof.
  unfold DatabaseService.storeAgriData. post_run.
  first_prop. first_prop.
  to_prop. apply post_intro. intros [[]|e0] w0 E0; [|vacuous]. cbn beta iota.
  pose proof (evolves_run (ensure_keeps_ids _ _) E0) as Hi0. unfold same in Hi0.
  world_simpl.
  do 7 next_prop. first_prop. next_prop.
  to_prop. apply post_intro. intros [row|e1] w1 E1; [|vacuous]. cbn beta iota.
  pose proof (post_run_eq (storeProcedure_row _ _) E1) as P1. cbn beta iota in P1.
  destruct (P1 _ eq_refl) as (Hid & Hhf & Hfc & Hdh & Hth).
  cbn [Sql.p_HasFiles Sql.p_FileCount Sql.p_DataHash Sql.p_TransactionHash]
    in Hhf, Hfc, Hdh, Hth.
  to_prop. apply post_intro. intros [[]|e2] w2 E2; [|vacuous]. cbn beta iota.
  to_prop. apply post_intro. intros [[]|e3] w3 E3; [|vacuous]. cbn beta iota.
  to_prop. apply post_intro. intros [[]|e4] w4 E4; [|vacuous]. cbn beta iota.
  post_run. intros s Hs. injection Hs as <-.
  cbn [DatabaseService.stored_row DatabaseService.dataId].
  split; [congruence|]. split; [exact Hhf|]. split; [exact Hfc|].
  split; eexists; (split; [eassumption|]); assumption.
Qed.

Lemma filter_none {A} (p : A -> bool) l :
  forallb (fun x => negb (p x)) l = true -> filter p l = [].
Proof.
  induction l as [|x l IH]; cbn; [reflexivity|].
  destruct (p x); cbn; [discriminate|exact IH].
Qed.

Lemma filter_all {A} (p : A -> bool) l : forallb p l = true -> filter p l = l.
Proof.
  induction l as [|x l IH]; cbn; [reflexivity|].
  destruct (p x); cbn; [intros H; rewrite IH by exact H; reflexivity|discriminate].
Qed.

Lemma forallb_below {A} (key : A -> Z) n l :
  forallb (fun x => key x <? n) l = true ->
  forallb (fun x => negb (key x =? n)) l = true.
Proof.
  intros H. rewrite forallb_forall in *. intros x Hx. specialize (H x Hx).
  apply Z.ltb_lt in H. apply negb_true_iff, Z.eqb_neq. lia.
Qed.

Lemma well_keyed_parts d :
  well_keyed d = true ->
  filter (fun r => ad_data_id r =? next_data_id d) (agricultural_data d) = []
  /\ filter (fun f => (uf_data_id f =? next_data_id d) && uf_is_active f) (uploaded_files d) = []
  /\ filter (fun v => vl_data_id v =? next_data_id d) (verification_logs d) = [].
Proof.
  unfold well_keyed. intros H.
  apply andb_true_iff in H. destruct H as (H & H3).
  apply andb_true_iff in H. destruct H as (H1 & H2).
  repeat split; apply filter_none.
  - apply forallb_below. exact H1.
  - apply forallb_below in H2. rewrite forallb_forall in *. intros x Hx.
    specialize (H2 x Hx). apply negb_true_iff in H2. rewrite H2. reflexivity.
  - apply forallb_below. exact H3.
Qed.

Lemma rows_of_record id fs rows :
  map row_view rows = map (file_view id) fs ->
  forallb (fun f => uf_data_id f =? id) rows = true.
Proof.
  revert fs. induction rows as [|r rows IH]; intros [|f fs] H; try discriminate H;
    [reflexivity|].
  cbn in H. injection H as H1 _ _ _ _ _ H. cbn. rewrite H1, Z.eqb_refl. eauto.
Qed.

(** A retrieval by identity value from a database that answers. *)
Lemma retrieve_by_id w id row rest :
  faults (db w) = [] ->
  filter (fun r => ad_data_id r =? id) (agricultural_data (db w)) = row :: rest ->
  post (DatabaseService.retrieveAgriData (Some (JNum id)) "id") w (fun r w' =>
    db w' = db w
    /\ r = Ok (DatabaseService.mkRetrieved (Sql.join_row (db w) row)
               (if ad_has_files row
                then Some (Sql.order_desc uf_upload_date
                             (filter (fun f => (uf_data_id f =? ad_data_id row) && uf_is_active f)
                                (uploaded_files (db w))))
                else None)
               (Sql.order_desc vl_verification_date
                  (filter (fun v => vl_data_id v =? ad_data_id row)
                     (verification_logs (db w)))))).
Proof.
  intros Hf Hrow. unfold DatabaseService.retrieveAgriData. post_run.
  apply post_request_answering; [world_simpl; exact Hf|].
  cbn [String.eqb Ascii.eqb Bool.eqb Sql.select_by_id Sql.param Sql.as_int fst snd].
  world_simpl. rewrite Hrow. cbn [map]. post_run.
  cbn [Sql.j_data Sql.join_row].
  unfold DatabaseService.getFilesByDataId, DatabaseService.getVerificationLogs.
  destruct (ad_has_files row); post_run.
  - apply post_request_answering; [world_simpl; exact Hf|].
    cbn [Sql.select_files fst snd]. world_simpl. post_run.
    apply post_request_answering; [world_simpl; exact Hf|].
    cbn [Sql.select_verification_logs fst snd]. world_simpl. post_run.
    split; reflexivity.
  - apply post_request_answering; [world_simpl; exact Hf|].
    cbn [Sql.select_verification_logs fst snd]. world_simpl. post_run.
    split; reflexivity.
Qed.

Lemma insert_desc_perm {A} (key : A -> string) x l :
  Permutation (Sql.insert_desc key x l) (x :: l).
Proof.
  induction l as [|y l IH]; cbn; [reflexivity|].
  destruct (String.ltb (key x) (key y)); [|reflexivity].
  rewrite IH. apply perm_swap.
Qed.

Lemma order_desc_perm {A} (key : A -> string) (l : list A) :
  Permutation (Sql.order_desc key l) l.
Proof.
  induction l as [|x l IH]; cbn; [reflexivity|].
  unfold Sql.order_desc in IH. rewrite insert_desc_perm, IH. reflexivity.
Qed.

(** X12. A record stored in a database that answers and whose identity
    values are in order is found again under the id that
    [DatabaseService.storeAgriData] returned: the retrieval by id returns
    the stored row, the attachment rows of exactly the files that came with
    it (none, when no file did) and an empty verification history, and
    writes nothing to the database. *)
Theorem store_then_retrieve_by_id agriData blockchainData fs w s w1 :
  faults (db w) = [] ->
  well_keyed (db w) = true ->
  DatabaseService.storeAgriData agriData blockchainData fs w = (Ok s, w1) ->
  exists r w2 rows,
    DatabaseService.retrieveAgriData (Some (JNum (DatabaseService.dataId s))) "id" w1
    = (Ok r, w2)
    /\ db w2 = db w1
    /\ Sql.j_data (DatabaseService.record r) = DatabaseService.stored_row s
    /\ map row_view rows = map (file_view (DatabaseService.dataId s)) fs
    /\ match DatabaseService.files r with
       | Some l => fs <> [] /\ Permutation l rows
       | None => fs = []
       end
    /\ DatabaseService.verificationHistory r = [].
Proof.
  intros Hf Hk Hs.
  pose proof (post_run_eq (storeAgriData_success _ _ _ _) Hs) as P. cbn beta in P.
  destruct (P _ eq_refl) as (Hd & Hid & (rows & Hu & Hv) & _). clear P.
  pose proof (post_run_eq (storeAgriData_row _ _ _ _) Hs) as P. cbn beta in P.
  destruct (P _ eq_refl) as (Hn & Hh & _). clear P.
  pose proof (evolves_run (storeAgriData_keeps_logs _ _ _) Hs) as Hl. unfold same in Hl.
  pose proof (evolves_run (storeAgriData_calm _ _ _) Hs Hf) as Hf1.
  destruct (evolves_run (storeAgriData_attaches _ _ _) Hs) as (rows' & Hu' & Ha).
  assert (rows' = rows) by (eapply app_inv_head; rewrite <- Hu, <- Hu'; reflexivity).
  subst rows'.
  destruct (well_keyed_parts _ Hk) as (K1 & K2 & K3).
  assert (Hrow : filter (fun r => ad_data_id r =? DatabaseService.dataId s)
                   (agricultural_data (db w1)) = [DatabaseService.stored_row s]).
  { rewrite Hd, filter_app, Hn, K1. cbn. rewrite Hid, Hn, Z.eqb_refl. reflexivity. }
  pose proof (retrieve_by_id w1 _ _ _ Hf1 Hrow) as P.
  destruct (DatabaseService.retrieveAgriData _ _ w1) as [r0 w2] eqn:E.
  pose proof (post_run_eq P E) as (Hdb & ->). clear P E.
  eexists _, w2, rows. split; [reflexivity|].
  cbn [DatabaseService.record DatabaseService.files DatabaseService.verificationHistory
       Sql.j_data Sql.join_row].
  split; [exact Hdb|]. split; [reflexivity|]. split; [exact Hv|]. split.
  - rewrite Hh. destruct (0 <? Z.of_nat (List.length fs)) eqn:Hc.
    + split; [intros ->; discriminate Hc|].
      rewrite Hu, filter_app, Hid, Hn, K2. cbn [app].
      rewrite filter_all; [apply order_desc_perm|].
      rewrite <- Hn. pose proof (rows_of_record _ _ _ Hv) as Hr.
      rewrite forallb_forall in *. intros x Hx.
      rewrite (Hr x Hx), (Ha x Hx). reflexivity.
    + destruct fs; [reflexivity|discriminate Hc].
  - rewrite Hl, Hid, Hn, K3. reflexivity.
Qed.

Lemma store_then_retrieve_by_id_witness :
  match DatabaseService.storeAgriData Scenario.record0 Scenario.anchor0
          [Scenario.fileA; Scenario.fileB] Scenario.w0 with
  | (Ok s, w1) =>
      exists r w2,
        DatabaseService.retrieveAgriData (Some (JNum (DatabaseService.dataId s))) "id" w1
        = (Ok r, w2)
        /\ Sql.j_data (DatabaseService.record r) = DatabaseService.stored_row s
        /\ exists l, DatabaseService.files r = Some l /\ List.length l = 2%nat
  | (Throw _, _) => False
  end.
Proof.
  destruct (DatabaseService.storeAgriData Scenario.record0 Scenario.anchor0
          [Scenario.fileA; Scenario.fileB] Scenario.w0)
    as [[s|e] w1] eqn:E.
  - destruct (store_then_retrieve_by_id Scenario.record0 Scenario.anchor0
                [Scenario.fileA; Scenario.fileB] Scenario.w0 s w1 eq_refl eq_refl E)
      as (r & w2 & rows & H1 & _ & H3 & H4 & H5 & _).
    exists r, w2. split; [exact H1|]. split; [exact H3|].
    destruct (DatabaseService.files r) as [l|]; [|discriminate H5].
    exists l. split; [reflexivity|]. destruct H5 as (_ & H5).
    rewrite (Permutation_length H5), <- (length_map row_view), H4. reflexivity.
  - vm_compute in E. discriminate E.
Defined.

(* ------------------------------------------------------------------ *)
(** ** Retrieval at the edges *)
(* ------------------------------------------------------------------ *)

Lemma integral_safe n : safe_integer n = true -> JS.integral n = JS.dec n.
Proof.
  unfold safe_integer, JS.integral. intros H. apply Z.leb_le in H.
  assert (E : 10 ^ 21 = 1000000000000000000000) by reflexivity.
  destruct (Z.ltb_spec (Z.abs n) (10 ^ 21)); [reflexivity|lia].
Qed.

(** X14. A retrieval by an id that no record row carries, from a database
    that answers, throws a plain Error with the message
    No data found for id: <id>, and changes nothing but the log. *)
Theorem retrieve_unknown_id id w :
  safe_integer id = true ->
  faults (db w) = [] ->
  forallb (fun r => negb (ad_data_id r =? id)) (agricultural_data (db w)) = true ->
  fst (DatabaseService.retrieveAgriData (Some (JNum id)) "id" w)
  = Throw (Error ("No data found for id: " ++ JS.dec id))
  /\ log_only w (snd (DatabaseService.retrieveAgriData (Some (JNum id)) "id" w)).
Proof.
  intros Hs Hf Hn.
  unfold DatabaseService.retrieveAgriData, try_catch, bind, Sql.executeQuery, try_catch,
    Sql.request, Sql.console_log, Sql.console_error, log_line.
  cbn [String.eqb Ascii.eqb Bool.eqb Sql.select_by_id Sql.param Sql.as_int fst snd
       db set_log].
  rewrite Hf, (filter_none _ _ Hn). cbn [map].
  change (JS.to_string (Some (JNum id))) with (JS.integral id).
  rewrite (integral_safe _ Hs).
  split; [reflexivity|].
  eexists [_; _]. destruct w. cbn. rewrite <- app_assoc. reflexivity.
Qed.

Lemma retrieve_unknown_id_witness :
  fst (DatabaseService.retrieveAgriData (Some (JNum 7)) "id" Scenario.w0)
  = Throw (Error "No data found for id: 7").
Proof.
  apply (retrieve_unknown_id 7 Scenario.w0 eq_refl eq_refl eq_refl).
Defined.

Lemma request_outage {A} (stmt : Sql.Statement A) w m rest :
  faults (db w) = Some m :: rest ->
  Sql.request stmt w = (Throw (RequestError m), set_db (Sql.with_faults rest (db w)) w).
Proof. intros Hf. unfold Sql.request. rewrite Hf. reflexivity. Qed.

Lemma request_answered {A} (stmt : Sql.Statement A) w rest :
  faults (db w) = None :: rest ->
  Sql.request stmt w
  = (fst (stmt (Sql.with_faults rest (db w))),
     set_db (snd (stmt (Sql.with_faults rest (db w)))) w).
Proof.
  intros Hf. unfold Sql.request. rewrite Hf.
  destruct (stmt (Sql.with_faults rest (db w))); reflexivity.
Qed.

(** The two look-ups that retrieval adds to a record never throw: when the
    request fails, the error is logged and the answer is the empty list. *)
Lemma lookups_never_throw id w :
  (exists l, fst (DatabaseService.getFilesByDataId id w) = Ok l
     /\ (forall m rest, faults (db w) = Some m :: rest -> l = []))
  /\ (exists l, fst (DatabaseService.getVerificationLogs id w) = Ok l
        /\ (forall m rest, faults (db w) = Some m :: rest -> l = [])).
Proof.
  unfold DatabaseService.getFilesByDataId, DatabaseService.getVerificationLogs,
    Sql.executeQuery, Sql.request, try_catch, bind, Sql.console_error, log_line,
    Sql.select_files, Sql.select_verification_logs, throw, ret.
  destruct (faults (db w)) as [|[m|] rest]; cbn [fst snd];
    split; eexists; (split; [reflexivity|]); intros m' rest' H;
    try discriminate H; reflexivity.
Qed.

Lemma post_request_answered {A} (stmt : Sql.Statement A) w rest
  (Q : Res A -> World -> Prop) :
  faults (db w) = None :: rest ->
  Q (fst (stmt (Sql.with_faults rest (db w))))
    (set_db (snd (stmt (Sql.with_faults rest (db w)))) w) ->
  post (Sql.request stmt) w Q.
Proof. intros Hf HQ. unfold post. rewrite (request_answered _ _ _ Hf). exact HQ. Qed.

Lemma post_request_outage {A} (stmt : Sql.Statement A) w m rest
  (Q : Res A -> World -> Prop) :
  faults (db w) = Some m :: rest ->
  Q (Throw (RequestError m)) (set_db (Sql.with_faults rest (db w)) w) ->
  post (Sql.request stmt) w Q.
Proof. intros Hf HQ. unfold post. rewrite (request_outage _ _ _ _ Hf). exact HQ. Qed.

(** X15. When the record query is answered and the attachments query then
    fails, [DatabaseService.retrieveAgriData] still returns: the record it
    found says it has files, and its list of files is empty, whatever rows
    the attachments table holds. *)
Theorem retrieve_hides_attachment_outage id row others m rest w :
  faults (db w) = None :: Some m :: rest ->
  filter (fun r => ad_data_id r =? id) (agricultural_data (db w)) = row :: others ->
  ad_has_files row = true ->
  exists r,
    fst (DatabaseService.retrieveAgriData (Some (JNum id)) "id" w) = Ok r
    /\ Sql.j_data (DatabaseService.record r) = row
    /\ DatabaseService.files r = Some [].
Proof.
  intros Hf Hrow Hh.
  change (post (DatabaseService.retrieveAgriData (Some (JNum id)) "id") w
            (fun r _ => exists rt, r = Ok rt /\ Sql.j_data (DatabaseService.record rt) = row
                                   /\ DatabaseService.files rt = Some [])).
  unfold DatabaseService.retrieveAgriData. post_run.
  eapply post_request_answered; [world_simpl; exact Hf|].
  cbn [String.eqb Ascii.eqb Bool.eqb Sql.select_by_id Sql.param Sql.as_int fst snd].
  cbn [agricultural_data Sql.with_faults]. world_simpl. rewrite Hrow. cbn [map]. post_run.
  cbn [Sql.j_data Sql.join_row]. rewrite Hh.
  unfold DatabaseService.getFilesByDataId. post_run.
  eapply post_request_outage; [world_simpl; reflexivity|]. post_run.
  apply post_intro. intros [l|e] w3 E3.
  - post_run. eexists. split; [reflexivity|]. split; reflexivity.
  - match type of E3 with
    | _ ?W = _ =>
        destruct (lookups_never_throw (ad_data_id row) W) as (_ & l & Hl & _);
        rewrite E3 in Hl; discriminate Hl
    end.
Qed.

Lemma retrieve_hides_attachment_outage_witness :
  let w := set_db (Sql.with_faults [None; Some "Connection is closed."]
                     (db (snd (DatabaseService.storeAgriData Scenario.record0
                                 Scenario.anchor0 [Scenario.fileA; Scenario.fileB]
                                 Scenario.w0)))) Scenario.w0 in
  List.length (uploaded_files (db w)) = 2%nat
  /\ exists r,
       fst (DatabaseService.retrieveAgriData (Some (JNum 1)) "id" w) = Ok r
       /\ DatabaseService.files r = Some [].
Proof.
  cbv zeta. split; [vm_compute; reflexivity|].
  destruct (retrieve_hides_attachment_outage 1
              (mkAgriDataRow 1 "P1" "Rice" "Delta" (DateOf (Some (JStr "2025-10-01")))
                 (SqlNum 1000) (Some "Standard") None ("0x" ++ Scenario.digest0)
                 (Ethers.hash32 0xabcdef) (Some 100) true 2)
              [] "Connection is closed." []
              (set_db (Sql.with_faults [None; Some "Connection is closed."]
                     (db (snd (DatabaseService.storeAgriData Scenario.record0
                                 Scenario.anchor0 [Scenario.fileA; Scenario.fileB]
                                 Scenario.w0)))) Scenario.w0)
              ltac:(vm_compute; reflexivity) ltac:(vm_compute; reflexivity) eq_refl)
    as (r & H1 & _ & H3).
  exists r. split; [exact H1|exact H3].
Defined.

(* ------------------------------------------------------------------ *)
(** ** The parts of the world a service leaves alone *)
(* ------------------------------------------------------------------ *)

Section Frame.

Context {T : Type} (part : World -> T).

Lemma preserves_ret {A} (a : A) : preserves part (ret a).
Proof. intros w. reflexivity. Qed.

Lemma preserves_throw {A} e : preserves part (@throw A e).
Proof. intros w. reflexivity. Qed.

Lemma preserves_lift {A} (r : Res A) : preserves part (lift r).
Proof. intros w. reflexivity. Qed.

Lemma preserves_prop v k : preserves part (prop v k).
Proof. intros w. unfold prop. destruct (JS.get v k); reflexivity. Qed.

Lemma preserves_bind {A B} (c : M A) (k : A -> M B) :
  preserves part c -> (forall a, preserves part (k a)) -> preserves part (bind c k).
Proof.
  intros Hc Hk w. unfold bind. specialize (Hc w).
  destruct (c w) as [[a|e] w1]; cbn [snd] in *; [rewrite Hk|]; exact Hc.
Qed.

Lemma preserves_try {A} (c : M A) (h : JSError -> M A) :
  preserves part c -> (forall e, preserves part (h e)) -> preserves part (try_catch c h).
Proof.
  intros Hc Hh w. unfold try_catch. specialize (Hc w).
  destruct (c w) as [[a|e] w1]; cbn [snd] in *; [|rewrite Hh]; exact Hc.
Qed.

Hypothesis part_log : forall l w, part (set_log l w) = part w.
Hypothesis part_ticks : forall n w, part (set_ticks n w) = part w.

Lemma preserves_log level message : preserves part (log_line level message).
Proof. intros w. apply part_log. Qed.

Lemma preserves_now : preserves part now.
Proof. intros w. apply part_ticks. Qed.

Lemma preserves_rethrow {A} prefix code e :
  preserves part (@BlockchainService.rethrow A prefix code e).
Proof.
  intros w. unfold BlockchainService.rethrow. destruct (is_BlockchainError e); reflexivity.
Qed.

(** Requests to the database, seen from a part that is not the database. *)
Lemma preserves_request {A} (stmt : Sql.Statement A) :
  (forall d w, part (set_db d w) = part w) -> preserves part (Sql.request stmt).
Proof.
  intros Hd w. unfold Sql.request.
  destruct (faults (db w)) as [|[m|] rest]; cbn [snd]; [|apply Hd|].
  - destruct (stmt (db w)). apply Hd.
  - destruct (stmt (Sql.with_faults rest (db w))). apply Hd.
Qed.

(** Calls to the network, seen from a part that is not the ledger. *)
Lemma preserves_sendTransaction to value data :
  (forall l w, part (set_ledger l w) = part w) ->
  preserves part (Ethers.sendTransaction to value data).
Proof.
  intros Hl w. unfold Ethers.sendTransaction.
  destruct (outcomes (ledger w)) as [|[c m|id bn bh gu gp|id c m|id bn bh gu gp] rest];
    [reflexivity|apply Hl|..];
    destruct (Ethers.known (Ethers.hash32 id) (ledger w)); apply Hl.
Qed.

Lemma preserves_wait r :
  (forall l w, part (set_ledger l w) = part w) -> preserves part (Ethers.wait r).
Proof.
  intros Hl w. unfold Ethers.wait.
  destruct (Ethers.tr_outcome r); first [reflexivity|apply Hl].
Qed.

End Frame.

Lemma preserves_run {T A} (part : World -> T) (c : M A) w r w' :
  preserves part c -> c w = (r, w') -> part w' = part w.
Proof. intros Hp E. specialize (Hp w). rewrite E in Hp. exact Hp. Qed.

Ltac frame_side := intros; reflexivity.

Ltac preserves_auto :=
  repeat first
    [ apply preserves_ret | apply preserves_throw | apply preserves_lift
    | apply preserves_prop
    | apply preserves_log; solve [frame_side]
    | apply preserves_now; solve [frame_side]
    | apply preserves_rethrow
    | apply preserves_bind; [|intros ?]
    | apply preserves_try; [|intros ?]
    | apply preserves_request; solve [frame_side]
    | apply preserves_sendTransaction; solve [frame_side]
    | apply preserves_wait; solve [frame_side]
    | assumption
    | solve [intros ?; reflexivity]
    | match goal with
      | |- preserves _ (if ?b then _ else _) => destruct b
      | |- preserves _ (match ?x with _ => _ end) => destruct x
      end ].

Lemma storeFileRows_off_chain dataId fs :
  preserves ledger (DatabaseService.storeFileRows dataId fs).
Proof.
  induction fs as [|f fs IH]; cbn [DatabaseService.storeFileRows]; preserves_auto.
Qed.

Lemma DatabaseService_store_off_chain agriData blockchainData fs :
  preserves ledger (DatabaseService.storeAgriData agriData blockchainData fs).
Proof.
  pose proof storeFileRows_off_chain as Hrows. open_store. unfold Sql.executeQuery, Sql.executeProcedure.
  preserves_auto; auto.
Qed.

Lemma createAgriDataHash_idle agriData :
  preserves (fun w => (db w, ledger w)) (HashService.createAgriDataHash agriData).
Proof.
  unfold HashService.createAgriDataHash, HashService.generateHash. preserves_auto.
Qed.

Lemma storeHash_off_database hash metadata :
  preserves db (BlockchainService.storeHashOnBlockchain hash metadata).
Proof.
  unfold BlockchainService.storeHashOnBlockchain. preserves_auto.
Qed.

Lemma wait_confirms r w rc w1 :
  Ethers.wait r w = (Ok rc, w1) -> rc_status rc = 1.
Proof.
  unfold Ethers.wait. destruct (Ethers.tr_outcome r); try discriminate.
  intros H. injection H as <- _. reflexivity.
Qed.

(** A successful [storeHashOnBlockchain] has added one transaction and its
    receipt, under the hash it returns. *)
Lemma storeHash_confirms hash metadata w sr w' :
  BlockchainService.storeHashOnBlockchain hash metadata w = (Ok sr, w') ->
  exists tx rc,
    txs (ledger w') = (txs (ledger w) ++ [tx])%list
    /\ receipts (ledger w') = (receipts (ledger w) ++ [rc])%list
    /\ rc_hash rc = tx_hash tx
    /\ rc_status rc = 1
    /\ BlockchainService.transactionHash sr = tx_hash tx
    /\ Ethers.known (tx_hash tx) (ledger w) = false
    /\ tx_data tx = Ethers.hexlify (JS.stringify (JObj (BlockchainService.metadata sr)))
    /\ exists ts, BlockchainService.metadata sr
                  = BlockchainService.txData ts (without_prefix hash) metadata.
Proof.
  unfold BlockchainService.storeHashOnBlockchain. intros H.
  apply try_catch_ok_inv in H.
  2:{ intros e w0. unfold bind, logger_error, log_line. apply rethrow_throws. }
  bind_inv H. bind_inv H. bind_inv H. bind_inv H. bind_inv H. bind_inv H. bind_inv H.
  bind_inv H. bind_inv H. bind_inv H. bind_inv H. bind_inv H.
  assert (L0 : ledger w0 = ledger w).
  { destruct (String.eqb hash ""); [discriminate S|]. injection S as _ <-. reflexivity. }
  assert (L1 : ledger w1 = ledger w0).
  { destruct (negb _); [discriminate S0|]. injection S0 as _ <-. reflexivity. }
  injection S1 as <- <-.
  fold (without_prefix hash) in *.
  unfold lift, Ethers.toUtf8Bytes in S2.
  destruct (Utf8.valid _) in S2; [|discriminate S2].
  injection S2 as <- <-.
  injection S3 as _ <-. injection S4 as _ <-.
  pose proof (wait_confirms _ _ _ _ S7) as Hst.
  apply sendTransaction_ok in S5. destruct S5 as (id & Hid & Hdata & Hnew & Htx & Hrc).
  injection S6 as _ <-.
  apply wait_ok in S7. destruct S7 as (Hh & Htx' & Hrc').
  injection S8 as _ <-. injection S9 as _ <-. injection S10 as _ <-.
  injection H as <- <-.
  cbn [BlockchainService.transactionHash BlockchainService.metadata ledger set_log
       set_ticks] in *.
  exists (Ethers.tr_tx a5), a7.
  rewrite Htx', Htx, Hrc', Hrc, L1, L0, Hh, Hid. rewrite L1, L0 in Hnew.
  repeat split; try reflexivity; try assumption.
  eexists. reflexivity.
Qed.

(** The payload of the anchor the service writes carries the hash it was
    given: the description the service adds has no property of that name. *)
Lemma service_payload_hash ts clean farmerId productType harvestDate n m :
  JS.lookup "hash"
    (BlockchainService.txData ts clean
       (Some (JObj (object_of
          [("farmerId", farmerId); ("productType", productType);
           ("harvestDate", harvestDate);
           ("dataSize", Some (JNum n)); ("fieldsCount", Some (JNum m))]))))
  = Some (JStr ("0x" ++ clean)).
Proof.
  unfold BlockchainService.txData, JS.spread_into. rewrite lookup_fold_other.
  - reflexivity.
  - destruct farmerId, productType, harvestDate; reflexivity.
Qed.

Lemma createAgriDataHash_prefixed agriData w r w' :
  HashService.createAgriDataHash agriData w = (Ok r, w') ->
  Text.startsWith (HashService.hash r) "0x" = true.
Proof.
  unfold HashService.createAgriDataHash. intros H.
  apply try_catch_ok_inv in H.
  2:{ intros e w0. eexists. reflexivity. }
  bind_inv H. bind_inv H. bind_inv H. bind_inv H. bind_inv H.
  injection H as <- _. cbn [HashService.hash].
  unfold HashService.generateHash, try_catch, bind, logger_info, log_line, ret in S2.
  injection S2 as <- _. reflexivity.
Qed.


(* ------------------------------------------------------------------ *)
(** ** What a stored record leaves on the ledger and in the database *)
(* ------------------------------------------------------------------ *)

(** X16. When [AgriChainService.storeAgriData] returns, the ledger has
    gained exactly one transaction, with its receipt, and the record table
    exactly one row, and what is returned names both: the transaction hash
    returned is the hash of the new transaction and is in the new row; the
    data hash returned is in the new row and is the [hash] property of the
    JSON payload of the transaction; the id returned is the id of the new
    row. *)
Theorem service_store_links agriData fs w out w' :
  AgriChainService.storeAgriData agriData fs w = (Ok out, w') ->
  exists tx rc row payload,
    txs (ledger w') = (txs (ledger w) ++ [tx])%list
    /\ receipts (ledger w') = (receipts (ledger w) ++ [rc])%list
    /\ tx_hash tx = AgriChainService.so_transactionHash out
    /\ rc_hash rc = AgriChainService.so_transactionHash out
    /\ tx_data tx = Ethers.hexlify (JS.stringify (JObj payload))
    /\ JS.lookup "hash" payload = Some (JStr (AgriChainService.so_dataHash out))
    /\ agricultural_data (db w') = (agricultural_data (db w) ++ [row])%list
    /\ ad_data_id row = AgriChainService.so_dataId out
    /\ ad_data_hash row = AgriChainService.so_dataHash out
    /\ ad_transaction_hash row = AgriChainService.so_transactionHash out
    /\ ad_file_count row = Z.of_nat (List.length fs).
Proof.
  unfold AgriChainService.storeAgriData. intros H.
  apply try_catch_ok_inv in H.
  2:{ intros e w0. eexists. reflexivity. }
  bind_inv H. bind_inv H. bind_inv H. bind_inv H. bind_inv H. bind_inv H. bind_inv H.
  injection H as <- <-.
  cbn [AgriChainService.so_transactionHash AgriChainService.so_dataHash
       AgriChainService.so_dataId].
  unfold prop in S, S0, S3.
  destruct (JS.get agriData "farmerId"); [|discriminate S]. injection S as <- <-.
  destruct (JS.get agriData "productType"); [|discriminate S0]. injection S0 as <- <-.
  injection S1 as _ <-.
  destruct (JS.get agriData "harvestDate"); [|discriminate S3]. injection S3 as <- <-.
  pose proof (preserves_run _ _ _ _ _ (createAgriDataHash_idle _) S2) as Hidle.
  cbn [db ledger set_log] in Hidle. injection Hidle as Hd3 Hl3.
  pose proof (createAgriDataHash_prefixed _ _ _ _ S2) as Hpre.
  pose proof (preserves_run _ _ _ _ _ (storeHash_off_database _ _) S4) as Hd5.
  destruct (storeHash_confirms _ _ _ _ _ S4)
    as (tx & rc & Htx & Hrc & Hh & _ & Hth & _ & Hdata & ts & Hmeta).
  pose proof (preserves_run _ _ _ _ _ (DatabaseService_store_off_chain _ _ _) S5) as Hl6.
  pose proof (post_run_eq (storeAgriData_success _ _ _ _) S5) as P. cbn beta in P.
  destruct (P _ eq_refl) as (Hrow & Hid & _). clear P.
  pose proof (post_run_eq (storeAgriData_row _ _ _ _) S5) as P. cbn beta in P.
  destruct (P _ eq_refl) as (_ & _ & Hfc & (h & Hg & Hdh) & (t & Hgt & Htt)). clear P.
  exists tx, rc, (DatabaseService.stored_row a5), (BlockchainService.metadata a4).
  cbn [ledger db set_log].
  rewrite Hl6, Htx, Hrc, Hl3, Hrow, Hd5, Hd3, Hth, Hh, Hid.
  cbn [JS.get] in Hg, Hgt. injection Hg as <-. injection Hgt as <-.
  rewrite lookup_obj_set, String.eqb_refl in Hdh. cbn [Sql.param Sql.as_text] in Hdh.
  injection Hdh as <-.
  change (JS.lookup "transactionHash" (JS.literal _))
    with (Some (JStr (BlockchainService.transactionHash a4))) in Htt.
  cbn [Sql.param Sql.as_text] in Htt. injection Htt as Htt.
  rewrite Hmeta, service_payload_hash, (with_prefix _ Hpre), <- Htt, Hth.
  repeat split; try reflexivity; try assumption.
  rewrite Hmeta in Hdata. exact Hdata.
Qed.

Lemma service_store_links_witness :
  match AgriChainService.storeAgriData Scenario.R0 [] Scenario.w0 with
  | (Ok out, w') =>
      exists tx row,
        txs (ledger w') = (txs (ledger Scenario.w0) ++ [tx])%list
        /\ tx_hash tx = AgriChainService.so_transactionHash out
        /\ agricultural_data (db w') = [row]
        /\ ad_data_hash row = AgriChainService.so_dataHash out
        /\ ad_transaction_hash row = AgriChainService.so_transactionHash out
  | (Throw _, _) => False
  end.
Proof.
  destruct (AgriChainService.storeAgriData Scenario.R0 [] Scenario.w0)
    as [[out|e] w'] eqn:E.
  - destruct (service_store_links Scenario.R0 [] Scenario.w0 out w' E)
      as (tx & rc & row & payload & H1 & _ & H3 & _ & _ & _ & H7 & _ & H9 & H10 & _).
    exists tx, row. auto.
  - vm_compute in E. discriminate E.
Defined.

Lemma idle_prop v k w r w' :
  prop v k w = (r, w') -> w' = w.
Proof. unfold prop. destruct (JS.get v k); intros H; injection H as _ <-; reflexivity. Qed.

(** X17. [AgriChainService.storeAgriData] writes to the database only
    after the anchor is confirmed: in every run, returning or throwing,
    either the database is left exactly as it was found, or the ledger has
    gained a transaction and its receipt of status 1. *)
Theorem database_written_after_anchor agriData fs w :
  db (snd (AgriChainService.storeAgriData agriData fs w)) = db w
  \/ confirmed_since (ledger w)
       (ledger (snd (AgriChainService.storeAgriData agriData fs w))).
Proof.
  change (post (AgriChainService.storeAgriData agriData fs) w
            (fun _ w' => db w' = db w \/ confirmed_since (ledger w) (ledger w'))).
  unfold AgriChainService.storeAgriData. apply post_try.
  apply post_bind, post_intro. intros [a|e] w0 S0; apply idle_prop in S0; subst w0;
    [|post_run; left; reflexivity].
  apply post_bind, post_intro. intros [a0|e] w0 S0; apply idle_prop in S0; subst w0;
    [|post_run; left; reflexivity].
  post_run.
  apply post_intro. intros r w3 S3.
  pose proof (preserves_run _ _ _ _ _ (createAgriDataHash_idle _) S3) as Hidle.
  cbn [db ledger set_log] in Hidle. injection Hidle as Hd3 Hl3.
  destruct r as [hr|e]; [|post_run; left; exact Hd3].
  apply post_bind, post_intro. intros [a3|e] w0 S0; apply idle_prop in S0; subst w0;
    [|post_run; left; exact Hd3].
  apply post_bind, post_intro. intros r w5 S5.
  pose proof (preserves_run _ _ _ _ _ (storeHash_off_database _ _) S5) as Hd5.
  destruct r as [sr|e]; [|post_run; left; cbn [db set_log]; congruence].
  destruct (storeHash_confirms _ _ _ _ _ S5) as (tx & rc & Htx & Hrc & Hh & Hst & _).
  assert (Hc : confirmed_since (ledger w) (ledger w5)).
  { exists tx, rc. rewrite Htx, Hrc, Hl3. auto. }
  apply post_bind, post_intro. intros r w6 S6.
  pose proof (preserves_run _ _ _ _ _ (DatabaseService_store_off_chain _ _ _) S6) as Hl6.
  destruct r as [s|e]; post_run; right; cbn [ledger set_log]; rewrite Hl6; exact Hc.
Qed.

(* ------------------------------------------------------------------ *)
(** ** A producer seen for the first time *)
(* ------------------------------------------------------------------ *)





(* ------------------------------------------------------------------ *)
(** ** Verification and the ledger *)
(* ------------------------------------------------------------------ *)

Lemma blind_ret {A} (a : A) : ledger_blind (ret a).
Proof. intros l w. reflexivity. Qed.

Lemma blind_throw {A} e : ledger_blind (@throw A e).
Proof. intros l w. reflexivity. Qed.

Lemma blind_lift {A} (r : Res A) : ledger_blind (lift r).
Proof. intros l w. reflexivity. Qed.

Lemma blind_log level message : ledger_blind (log_line level message).
Proof. intros l w. reflexivity. Qed.

Lemma blind_now : ledger_blind now.
Proof. intros l w. reflexivity. Qed.

Lemma blind_prop v k : ledger_blind (prop v k).
Proof. intros l w. unfold prop. destruct (JS.get v k); reflexivity. Qed.

Lemma blind_bind {A B} (c : M A) (k : A -> M B) :
  ledger_blind c -> (forall a, ledger_blind (k a)) -> ledger_blind (bind c k).
Proof.
  intros Hc Hk l w. unfold bind. rewrite Hc.
  destruct (c w) as [[a|e] w1]; cbn [fst snd]; [apply Hk|reflexivity].
Qed.

Lemma blind_try {A} (c : M A) (h : JSError -> M A) :
  ledger_blind c -> (forall e, ledger_blind (h e)) -> ledger_blind (try_catch c h).
Proof.
  intros Hc Hh l w. unfold try_catch. rewrite Hc.
  destruct (c w) as [[a|e] w1]; cbn [fst snd]; [reflexivity|apply Hh].
Qed.

Lemma blind_request {A} (stmt : Sql.Statement A) : ledger_blind (Sql.request stmt).
Proof.
  intros l w. unfold Sql.request. cbn [db set_ledger].
  destruct (faults (db w)) as [|[m|] rest]; [|reflexivity|].
  - destruct (stmt (db w)); reflexivity.
  - destruct (stmt (Sql.with_faults rest (db w))); reflexivity.
Qed.

Ltac blind_auto :=
  repeat first
    [ apply blind_ret | apply blind_throw | apply blind_lift | apply blind_log
    | apply blind_now | apply blind_prop | apply blind_request
    | apply blind_bind; [|intros ?]
    | apply blind_try; [|intros ?]
    | match goal with
      | |- ledger_blind (if ?b then _ else _) => destruct b
      | |- ledger_blind (match ?x with _ => _ end) => destruct x
      end ].

(** X19. [verifyAgriDataIntegrity] never consults the ledger: run on any
    other ledger it returns the same verdict, or throws the same error, and
    does the same to the database and the log; and it leaves the ledger as
    it found it.  The stored hash it compares with is the one in the
    database row. *)
Theorem verification_ignores_ledger originalData identifier type details l w :
  let verify := AgriChainService.verifyAgriDataIntegrity originalData identifier type
                  details in
  verify (set_ledger l w) = (fst (verify w), set_ledger l (snd (verify w)))
  /\ ledger (snd (verify w)) = ledger w.
Proof.
  cbv zeta. split.
  - revert l w.
    change (ledger_blind (AgriChainService.verifyAgriDataIntegrity originalData identifier
                            type details)).
    unfold AgriChainService.verifyAgriDataIntegrity, DatabaseService.retrieveAgriData,
      DatabaseService.getFilesByDataId, DatabaseService.getVerificationLogs,
      DatabaseService.logVerification, HashService.createAgriDataHash,
      HashService.verifyHash, HashService.generateHash, Sql.executeQuery.
    blind_auto.
  - revert w.
    change (preserves ledger (AgriChainService.verifyAgriDataIntegrity originalData
                                identifier type details)).
    unfold AgriChainService.verifyAgriDataIntegrity, DatabaseService.retrieveAgriData,
      DatabaseService.getFilesByDataId, DatabaseService.getVerificationLogs,
      DatabaseService.logVerification, HashService.createAgriDataHash,
      HashService.verifyHash, HashService.generateHash, Sql.executeQuery.
    preserves_auto.
Qed.

(* ------------------------------------------------------------------ *)
(** ** The two checks of the required fields *)
(* ------------------------------------------------------------------ *)

Lemma blank_missing o field :
  Middleware.blank (JS.lookup field o) = true -> missing o field = true.
Proof.
  unfold missing. destruct (JS.lookup field o) as [[ | | | | | | ]|]; cbn; try discriminate;
    try reflexivity.
  intros H. rewrite H. reflexivity.
Qed.

Lemma missing_not_blank o field :
  missing o field = true -> Middleware.blank (JS.lookup field o) = false ->
  JS.lookup field o = Some (JBool false) \/ JS.lookup field o = Some (JNum 0).
Proof.
  unfold missing. destruct (JS.lookup field o) as [[ |b|n|fm fe|s|l|m]|]; cbn; try discriminate.
  - destruct b; [discriminate|]. auto.
  - intros H _. apply negb_true_iff, negb_false_iff, Z.eqb_eq in H. subst n. auto.
  - intros H H'. rewrite H' in H. discriminate H.
Qed.

(** X20. The store route checks the required fields twice, and the second
    check is the stricter one.  A record [createAgriDataHash] accepts always
    passes [validateRequiredFields] for the same four fields; a record that
    passes the middleware is still rejected by the service exactly for the
    fields whose value is [false] or [0], which the middleware does not
    count as missing. *)
Theorem required_fields_checked_twice o :
  let accepted := Middleware.validateRequiredFields HashService.requiredFields
                    (Some (JObj o)) in
  let rejected := filter (missing o) HashService.requiredFields in
  (rejected = [] -> accepted = Middleware.Continue)
  /\ (accepted = Middleware.Continue ->
      forall field, In field rejected <->
        In field HashService.requiredFields
        /\ (JS.lookup field o = Some (JBool false) \/ JS.lookup field o = Some (JNum 0))).
Proof.
  cbv zeta. unfold Middleware.validateRequiredFields.
  cbn [JS.or_else JS.truthy Middleware.field_of JS.get].
  set (blanks := filter (fun field => Middleware.blank (JS.lookup field o))
                   HashService.requiredFields).
  assert (Hsub : forall f, In f blanks -> In f (filter (missing o) HashService.requiredFields)).
  { intros f Hf. apply filter_In in Hf. destruct Hf as [Hi Hb].
    apply filter_In. split; [exact Hi|apply blank_missing, Hb]. }
  split.
  - intros Hr. destruct blanks as [|f l]; [reflexivity|].
    specialize (Hsub f (or_introl eq_refl)). rewrite Hr in Hsub. destruct Hsub.
  - intros Hc. assert (Hb : blanks = []).
    { destruct blanks; [reflexivity|discriminate Hc]. }
    intros field. rewrite filter_In. split.
    + intros [Hi Hm]. split; [exact Hi|]. apply missing_not_blank; [exact Hm|].
      destruct (Middleware.blank (JS.lookup field o)) eqn:E; [|reflexivity].
      assert (In field blanks) by (apply filter_In; auto).
      rewrite Hb in H. destruct H.
    + intros [Hi [Hv|Hv]]; (split; [exact Hi|]); unfold missing; rewrite Hv; reflexivity.
Qed.
